(** * bingo language server: package loading, type-check caching and
      position resolution

    A shallow embedding of [langserver]'s loader ([posForFileOffset],
    [buildPackageForNamedFileInMultiPackageDir], [typecheck],
    [cachedTypecheck], [loadPackage]) together with the properties its
    specification states about them.

    Go values are modelled as follows.
    - [string] is Rocq's [string]; [int] is [Z].
    - A [nil]-able pointer is an [option loc]; the structs it points to
      live in a heap, so that copies and aliasing are visible.
    - A slice of strings is a header (backing array, length, capacity)
      over an array stored in the heap; [append] writes in place when
      the capacity allows and allocates otherwise.
    - A pair [(value, error)] is a pair of options, the [nil] error being
      [None].
    - A run-time panic is the outcome [Panic]. *)

From Stdlib Require Import ZArith.
From stdpp Require Import gmap strings list fin_maps.

Local Open Scope string_scope.
Local Open Scope Z_scope.
Local Open Scope list_scope.

(** ** Go's [strings] package *)

Module strings.

(** [strings.HasSuffix]:
    [len(s) >= len(suffix) && s[len(s)-len(suffix):] == suffix]. *)
Definition HasSuffix (s suffix : string) : bool :=
  (String.length suffix <=? String.length s)%nat
  && String.eqb
       (String.substring (String.length s - String.length suffix)
                         (String.length suffix) s)
       suffix.

(** [strings.TrimSuffix]: [s[:len(s)-len(suffix)]] when [s] has the
    suffix, [s] otherwise. *)
Definition TrimSuffix (s suffix : string) : string :=
  if HasSuffix s suffix
  then String.substring 0 (String.length s - String.length suffix) s
  else s.

End strings.

(** ** go/build *)

Module build.

(** [*build.MultiplePackageError]: [Files] lists the files of a
    directory and [Packages], at the same indices, the package name
    each one declares. *)
Record MultiplePackageError : Type := mkMultiplePackageError {
  mpDir : string;
  Packages : list string;
  Files : list string
}.

(** The fields of [build.Package] the type-checker reads. It only reads
    them, so the descriptor is a value here. *)
Record Package : Type := mkPackage {
  ImportPath : string;
  Dir : string;
  Name : string;
  GoFiles : list string;
  TestGoFiles : list string;
  XTestGoFiles : list string
}.

End build.

(** ** Errors *)

(** An argument of a [fmt.Errorf] call, tagged by its verb. *)
Inductive fmt_arg : Type :=
| ArgS (s : string)   (* %s *)
| ArgQ (s : string)   (* %q *)
| ArgD (n : Z).       (* %d *)

(** The [error] values that occur in the loader: go/build's
    MultiplePackageError, the errors made by [fmt.Errorf] (kept as the
    format and its arguments), and errors handed back by collaborators. *)
Inductive error : Type :=
| ErrMultiplePackage (m : build.MultiplePackageError)
| Errorf (format : string) (args : list fmt_arg)
| ExternalError (msg : string).

(** [isMultiplePackageError]: the type assertion of [err] to go/build's
    MultiplePackageError. *)
Definition isMultiplePackageError (err : error) : bool :=
  match err with
  | ErrMultiplePackage _ => true
  | _ => false
  end.

(** ** Source positions (go/token) *)

Module token.

Definition Pos := Z.
Definition NoPos : Pos := 0.

(** A [token.File], identified by its name, base and size. *)
Record File : Type := mkFile {
  Name : string;
  Base : Z;
  Size : Z
}.

(** A [token.FileSet]: its files in the order [Iterate] visits them. *)
Definition FileSet := list File.

(** [FileSet.Iterate]: calls [f] on each file in order until it
    returns [false]. The callback is a closure; [S] is the state of the
    variables it captures. *)
Fixpoint Iterate {S : Type} (fset : FileSet) (f : File -> S -> S * bool) (s : S) : S :=
  match fset with
  | [] => s
  | ff :: rest =>
      let '(s', continue) := f ff s in
      if continue then Iterate rest f s' else s'
  end.

End token.

(** ** The heap: package descriptors and string arrays *)

Definition loc := positive.

(** A [[]string] header. The [nil] slice has no backing array. *)
Inductive slice : Type :=
| nil_slice
| Slice (arr : loc) (len cap : nat).

Definition slice_len (s : slice) : nat :=
  match s with
  | nil_slice => 0%nat
  | Slice _ len _ => len
  end.

Module packages.

(** The fields of [packages.Package] the loader reads or writes.
    [Fset] is only read. *)
Record Package : Type := mkPackage {
  PkgPath : string;
  Name : string;
  GoFiles : slice;
  Fset : token.FileSet
}.

Definition with_Name (n : string) (p : Package) : Package :=
  {| PkgPath := PkgPath p; Name := n; GoFiles := GoFiles p; Fset := Fset p |}.

Definition with_GoFiles (s : slice) (p : Package) : Package :=
  {| PkgPath := PkgPath p; Name := Name p; GoFiles := s; Fset := Fset p |}.

End packages.

Record heap : Type := mkHeap {
  pkgs : gmap loc packages.Package;
  arrs : gmap loc (list string)
}.

Definition set_pkgs (f : gmap loc packages.Package -> gmap loc packages.Package)
    (h : heap) : heap :=
  {| pkgs := f (pkgs h); arrs := arrs h |}.

Definition set_arrs (f : gmap loc (list string) -> gmap loc (list string))
    (h : heap) : heap :=
  {| pkgs := pkgs h; arrs := f (arrs h) |}.

(** The result of running a piece of code on a state [St]: it returns a
    value, or it panics. *)
Inductive outcome (St A : Type) : Type :=
| Ret (a : A) (s : St)
| Panic (s : St).
Arguments Ret {St A} a s.
Arguments Panic {St A} s.

Definition bind {St A B : Type} (m : St -> outcome St A) (k : A -> St -> outcome St B)
  : St -> outcome St B :=
  fun s => match m s with
           | Ret a s' => k a s'
           | Panic s' => Panic s'
           end.

Notation "'do' x <- m ; k" := (bind m (fun x => k))
  (at level 10, x name, m at level 100, k at level 200).

(** The elements a slice denotes in a heap, when its header lies within
    its array. *)
Definition slice_elems (h : heap) (s : slice) : option (list string) :=
  match s with
  | nil_slice => Some []
  | Slice a len cap =>
      match arrs h !! a with
      | Some l => if (len <=? length l)%nat then Some (take len l) else None
      | None => None
      end
  end.

(** [s[i]]: an index beyond the length panics. *)
Definition slice_index (s : slice) (i : nat) : heap -> outcome heap string :=
  fun h =>
    match s with
    | nil_slice => Panic h
    | Slice a len cap =>
        if (i <? len)%nat then
          match arrs h !! a ≫= (λ l, l !! i) with
          | Some x => Ret x h
          | None => Panic h
          end
        else Panic h
    end.

(** [*p] for a pointer [p]: dereferencing [nil] panics. *)
Definition deref (p : option loc) : heap -> outcome heap packages.Package :=
  fun h =>
    match p ≫= (λ l, pkgs h !! l) with
    | Some v => Ret v h
    | None => Panic h
    end.

(** [&v] for a local [v] that escapes: a new heap cell holding [v]. *)
Definition new_pkg (v : packages.Package) : heap -> outcome heap loc :=
  fun h =>
    let l := fresh (dom (pkgs h)) in
    Ret l (set_pkgs (insert l v) h).

(** [p.field = x], written as the update [f] of the struct at [p]. *)
Definition update_pkg (p : loc) (f : packages.Package -> packages.Package)
  : heap -> outcome heap unit :=
  fun h =>
    match pkgs h !! p with
    | Some _ => Ret tt (set_pkgs (alter f p) h)
    | None => Panic h
    end.

(** [m[k]] on a [map[string]string]: a missing key reads as the zero
    value, the empty string. *)
Definition map_index (m : gmap string string) (k : string) : string :=
  default "" (m !! k).

Section Loader.

(** The spare capacity the runtime adds when [append] has to grow a
    slice of old capacity [cap] to hold [n] elements. *)
Variable spare : nat -> nat -> nat.

(** [filepath.Dir]. *)
Variable filepath_Dir : string -> string.

(** [append(s, x)]. With room left, [x] is written into the backing
    array at index [len]; otherwise a new array is allocated, the
    elements are copied into it and [x] is added. *)
Definition append (s : slice) (x : string) : heap -> outcome heap slice :=
  fun h =>
    let grow (old : list string) (cap : nat) :=
      let a' := fresh (dom (arrs h)) in
      let n := S (length old) in
      let extra := spare cap n in
      Ret (Slice a' n (n + extra))
          (set_arrs (insert a' (old ++ x :: replicate extra "")) h) in
    match s with
    | nil_slice => grow [] 0%nat
    | Slice a len cap =>
        match arrs h !! a with
        | None => Panic h
        | Some l =>
            if (len <? cap)%nat
            then Ret (Slice a (S len) cap) (set_arrs (insert a (<[len:=x]> l)) h)
            else grow (take len l) cap
        end
    end.

(** The loop [for i, f := range m.Files { fileToPkgName[f] = m.Packages[i] }],
    from index [i] on. [m.Packages[i]] panics, here [None], when
    [Packages] is shorter than [Files]. *)
Fixpoint fileToPkgName_from (i : nat) (files packages : list string)
    (fileToPkgName : gmap string string) : option (gmap string string) :=
  match files with
  | [] => Some fileToPkgName
  | f :: rest =>
      match packages !! i with
      | Some p => fileToPkgName_from (S i) rest packages (<[f:=p]> fileToPkgName)
      | None => None
      end
  end.

Definition make_fileToPkgName (m : build.MultiplePackageError)
  : heap -> outcome heap (gmap string string) :=
  fun h =>
    match fileToPkgName_from 0 (build.Files m) (build.Packages m) ∅ with
    | Some fileToPkgName => Ret fileToPkgName h
    | None => Panic h
    end.

(** The body of [for _, f := range files] in [filterToFilesInPackage],
    with [todo] iterations left from index [i]. The element is read
    from the heap as it is at that iteration. *)
Fixpoint filterToFilesInPackage_from (fileToPkgName : gmap string string)
    (files : slice) (pkgName : string) (todo i : nat) (keep : slice)
  : heap -> outcome heap slice :=
  match todo with
  | O => Ret keep
  | S todo' =>
      do f <- slice_index files i;
      if String.eqb (map_index fileToPkgName f) pkgName
      then do keep' <- append keep f;
           filterToFilesInPackage_from fileToPkgName files pkgName todo' (S i) keep'
      else filterToFilesInPackage_from fileToPkgName files pkgName todo' (S i) keep
  end.

(** The closure [filterToFilesInPackage]; it captures [fileToPkgName]. *)
Definition filterToFilesInPackage (fileToPkgName : gmap string string)
    (files : slice) (pkgName : string) : heap -> outcome heap slice :=
  filterToFilesInPackage_from fileToPkgName files pkgName (slice_len files) 0 nil_slice.

Definition buildPackageForNamedFileInMultiPackageDir
    (bpkg : option loc) (m : build.MultiplePackageError) (filename : string)
  : heap -> outcome heap (option loc * option error) :=
  do copy <- deref bpkg;
  do bpkg <- new_pkg copy;
  do fileToPkgName <- make_fileToPkgName m;
  let pkgName := map_index fileToPkgName filename in
  if String.eqb pkgName "" then
    do cur <- deref (Some bpkg);
    Ret (None,
         Some (Errorf "package %q in %s has no file %q"
                 [ArgQ (packages.PkgPath cur); ArgS (filepath_Dir filename);
                  ArgQ filename]))
  else
    do _ <- update_pkg bpkg (packages.with_Name pkgName);
    let nonXTestPkgName :=
      if strings.HasSuffix pkgName "_test"
      then strings.TrimSuffix pkgName "_test"
      else pkgName in
    do cur <- deref (Some bpkg);
    do keep <- filterToFilesInPackage fileToPkgName (packages.GoFiles cur) nonXTestPkgName;
    do _ <- update_pkg bpkg (packages.with_GoFiles keep);
    Ret (Some bpkg, None).

End Loader.

(** ** [posForFileOffset] *)

Section Positions.

(** [util.PathEqual], the path comparison of the language server. *)
Variable PathEqual : string -> string -> bool.

(** [File.Pos] of go/token: the position of an offset of a file. *)
Variable File_Pos : token.File -> Z -> token.Pos.

Definition posForFileOffset (fset : token.FileSet) (filename : string) (offset : Z)
  : token.Pos :=
  let f : option token.File :=
    token.Iterate fset
      (fun ff f =>
         if PathEqual (token.Name ff) filename
         then (Some ff, false) (* break out of loop *)
         else (f, true))
      None in
  match f with
  | None => token.NoPos
  | Some f => File_Pos f offset
  end.

End Positions.

(** ** Tracing (opentracing) *)

Definition Span := nat.

(** What the collaborators are asked to do, in order: spans started and
    finished on the tracer, and programs loaded by the go/loader. *)
Inductive event : Type :=
| EvStartSpan (operationName : string) (tags : list (string * string))
              (childOf : Span) (span : Span)
| EvFinish (span : Span)
| EvLoad (path : string) (filenames : list string).

(** A [context.Context], as far as the loader looks into it: the span it
    carries, if any. *)
Record Context : Type := mkContext { ctx_span : option Span }.

Definition SpanFromContext (ctx : Context) : option Span := ctx_span ctx.

Definition ContextWithSpan (ctx : Context) (span : Span) : Context :=
  {| ctx_span := Some span |}.

(** [Tracer().StartSpan(name, tags, ChildOf(parent))]: the new span is
    identified by the index of its start event. *)
Definition StartSpan (operationName : string) (tags : list (string * string))
    (parent : Span) (tr : list event) : Span * list event :=
  let span := length tr in
  (span, tr ++ [EvStartSpan operationName tags parent span]).

Definition Finish (span : Span) (tr : list event) : list event :=
  tr ++ [EvFinish span].

(** ** [typecheck] *)

Module parser.
(** The [Mode] bits of go/parser. *)
Definition ParseComments : Z := Z.shiftl 1 2.
Definition AllErrors : Z := Z.shiftl 1 5.
End parser.

Record typecheckKey : Type := mkTypecheckKey {
  importPath : string;
  srcDir : string;
  name : string
}.

Section Typecheck.

(** [*loader.Program] and [diagnostics] with its [nil], both opaque. *)
Variable Program : Type.
Variable diagnostics : Type.
Variable nil_diagnostics : diagnostics.

(** [*build.Context]. *)
Variable BuildContext : Type.

(** [buildutil.JoinPath(bctx, dir, filename)]. *)
Variable JoinPath : BuildContext -> string -> string -> string.

Definition FindPackageFunc : Type :=
  Context -> BuildContext -> string -> string -> Z
  -> option build.Package * option error.

(** The fields of [loader.Config] that [typecheck] sets, and the one
    package [CreateFromFilenames] adds to it. The file set is the
    fresh one of the caller; [Load] fills it. *)
Record Config : Type := mkConfig {
  DisableUnusedImportCheck : bool;
  FakeImportC : bool;
  Build : BuildContext;
  Cwd : string;
  AllowErrors : bool;
  TypeCheckFuncBodies : string -> bool;
  ParserMode : Z;
  FindPackage : BuildContext -> string -> string -> Z
                -> option build.Package * option error;
  CreatePkgs : list (string * list string)
}.

(** What [conf.Load()] does: the files it adds to the file set, the
    program and error it returns, and the errors it reports to
    [TypeChecker.Error] on the way, in order. *)
Record LoadResult : Type := mkLoadResult {
  loaded : token.FileSet;
  loaded_prog : option Program;
  loaded_err : option error;
  reported : list error
}.

Variable Load : Config -> LoadResult.

(** [errsToDiagnostics], of the language server's diagnostics file. *)
Variable errsToDiagnostics : list error -> option Program -> diagnostics * option error.

(** The loop [for i, filename := range goFiles { goFiles[i] = JoinPath(...) }],
    with [todo] iterations left from index [i]. *)
Fixpoint joinPaths_from (bctx : BuildContext) (dir : string) (todo i : nat)
    (goFiles : list string) : list string :=
  match todo with
  | O => goFiles
  | S todo' =>
      match goFiles !! i with
      | Some filename =>
          joinPaths_from bctx dir todo' (S i) (<[i:=JoinPath bctx dir filename]> goFiles)
      | None => goFiles
      end
  end.

(** The file list [typecheck] hands to [CreateFromFilenames]. *)
Definition typecheck_goFiles (bctx : BuildContext) (bpkg : build.Package) : list string :=
  let goFiles : list string := [] in
  let goFiles := goFiles ++ build.GoFiles bpkg in
  let goFiles := goFiles ++ build.TestGoFiles bpkg in
  let goFiles :=
    if strings.HasSuffix (build.Name bpkg) "_test"
    then goFiles ++ build.XTestGoFiles bpkg
    else goFiles in
  joinPaths_from bctx (build.Dir bpkg) (length goFiles) 0 goFiles.

Definition typecheck_conf (ctx : Context) (bctx : BuildContext) (bpkg : build.Package)
    (findPackage : FindPackageFunc) : Config :=
  {| DisableUnusedImportCheck := true;
     FakeImportC := true;
     Build := bctx;
     Cwd := build.Dir bpkg;
     AllowErrors := true;
     TypeCheckFuncBodies := fun p => String.eqb (build.ImportPath bpkg) p;
     ParserMode := Z.lor parser.AllErrors parser.ParseComments;
     FindPackage := fun bctx importPath fromDir mode =>
       (* When importing a package, ignore any MultipleGoErrors. *)
       let '(bpkg, err) := findPackage ctx bctx importPath fromDir mode in
       match err with
       | Some e => if negb (isMultiplePackageError e) then (bpkg, Some e) else (bpkg, None)
       | None => (bpkg, None)
       end;
     CreatePkgs := [(build.ImportPath bpkg, typecheck_goFiles bctx bpkg)] |}.

(** [typecheck]. Besides its three results it returns the files [Load]
    put into [fset], and it records the load among the events. *)
Definition typecheck (ctx : Context) (bctx : BuildContext) (bpkg : build.Package)
    (findPackage : FindPackageFunc) (tr : list event)
  : token.FileSet * (option Program * diagnostics * option error) * list event :=
  let typeErrs : list error := [] in
  let conf := typecheck_conf ctx bctx bpkg findPackage in
  let r := Load conf in
  let tr := tr ++ [EvLoad (build.ImportPath bpkg) (typecheck_goFiles bctx bpkg)] in
  let typeErrs := typeErrs ++ reported r in
  let fset := loaded r in
  match loaded_err r, loaded_prog r with
  | Some err, None => (fset, (None, nil_diagnostics, Some err), tr)
  | _, prog =>
      let '(diags, err) := errsToDiagnostics typeErrs prog in
      match err with
      | Some err => (fset, (None, nil_diagnostics, Some err), tr)
      | None => (fset, (prog, diags, None), tr)
      end
  end.

(** ** [cachedTypecheck] *)

Record typecheckResult : Type := mkTypecheckResult {
  fset : token.FileSet;
  prog : option Program;
  err : option error
}.

(** The handler's [typecheckCache]: its state [C] and its [Get], which
    may run the function it is given. That function is a closure:
    [S] is the state it works on. [Get] returns an [interface{}],
    [nil] or a [*typecheckResult]. *)
Variable C : Type.
Variable Get : forall S : Type,
    typecheckKey -> (S -> option typecheckResult * S) -> C * S
    -> option typecheckResult * (C * S).

(** [h.getFindPackageFunc()]. *)
Variable getFindPackageFunc : FindPackageFunc.

(** The function literal handed to [Get]. It works on the events and on
    the variable [diags] of the enclosing call. *)
Definition cachedTypecheck_fill (ctx : Context) (bctx : BuildContext)
    (bpkg : build.Package)
  : list event * diagnostics -> option typecheckResult * (list event * diagnostics) :=
  fun '(tr, _) =>
    let '(fset, (prog, diags, err), tr) :=
      typecheck ctx bctx bpkg getFindPackageFunc tr in
    (Some {| fset := fset; prog := prog; err := err |}, (tr, diags)).

Definition cachedTypecheck (ctx : Context) (bctx : BuildContext) (bpkg : build.Package)
  : C * list event
    -> outcome (C * list event)
         (option token.FileSet * option Program * diagnostics * option error) :=
  fun '(c, tr) =>
    match SpanFromContext ctx with
    | None => Panic (c, tr) (* parentSpan.Tracer() on a nil span *)
    | Some parentSpan =>
        let '(span, tr) :=
          StartSpan "langserver-go: typecheck" [("pkg", build.ImportPath bpkg)]
                    parentSpan tr in
        let ctx := ContextWithSpan ctx span in
        let diags := nil_diagnostics in
        let '(r, (c, (tr, diags))) :=
          Get _ {| importPath := build.ImportPath bpkg;
                   srcDir := build.Dir bpkg;
                   name := build.Name bpkg |}
              (cachedTypecheck_fill ctx bctx bpkg) (c, (tr, diags)) in
        let tr := Finish span tr in (* defer span.Finish() *)
        match r with
        | None =>
            (* This can happen if we panic *)
            Ret (None, None, diags, None) (c, tr)
        | Some res => Ret (Some (fset res), prog res, diags, err res) (c, tr)
        end
    end.

End Typecheck.

(** ** [loadPackage] *)

Module lsp.
Definition DocumentURI := string.
Record Position : Type := mkPosition { Line : Z; Character : Z }.
End lsp.

(** A computation on the heap, run in a state that also has the events. *)
Definition on_heap {A : Type} (m : heap -> outcome heap A)
  : heap * list event -> outcome (heap * list event) A :=
  fun '(h, tr) =>
    match m h with
    | Ret a h' => Ret a (h', tr)
    | Panic h' => Panic (h', tr)
    end.

(** [defer span.Finish()]: the span is finished when the body returns,
    and when it panics. *)
Definition defer_Finish {St A : Type} (span : Span)
    (body : St * list event -> outcome (St * list event) A)
  : St * list event -> outcome (St * list event) A :=
  fun s =>
    match body s with
    | Ret a (h, tr) => Ret a (h, Finish span tr)
    | Panic (h, tr) => Panic (h, Finish span tr)
    end.

Section LoadPackage.

Variable spare : nat -> nat -> nat.
Variable filepath_Dir : string -> string.
Variable PathEqual : string -> string -> bool.
Variable File_Pos : token.File -> Z -> token.Pos.

(** [path.Dir] and [path.Base]. *)
Variable path_Dir : string -> string.
Variable path_Base : string -> string.

(** [util.IsURI], [h.FilePath] and [bctx.IsDir]. *)
Variable IsURI : lsp.DocumentURI -> bool.
Variable FilePath : lsp.DocumentURI -> string.
Variable IsDir : string -> bool.

(** [h.packageCache.Load]: the package of a directory, as a pointer
    into the heap, and an error. *)
Variable packageCache_Load : string -> heap -> outcome heap (option loc * option error).

(** [h.readFile]. *)
Variable readFile : lsp.DocumentURI -> list Byte.byte * option error.

(** [offsetForPosition], of the language server's position file: the
    offset, whether the position is valid, and why not. *)
Variable offsetForPosition : list Byte.byte -> lsp.Position -> Z * bool * string.

(** [h.load]. *)
Definition load (filename : string) : heap -> outcome heap (option loc * option error) :=
  let pkgDir := filename in
  let pkgDir := if negb (IsDir filename) then path_Dir filename else pkgDir in
  packageCache_Load pkgDir.

(** The package [loadPackage] goes on with: the one [h.load] returns
    or, when the directory holds several packages, the one of the
    requested file. *)
Definition loadPackage_resolve (filename : string)
  : heap -> outcome heap (option loc * option error) :=
  do r <- load filename;
  let '(pkg, err) := r in
  match err with
  | Some (ErrMultiplePackage mpErr) =>
      buildPackageForNamedFileInMultiPackageDir spare filepath_Dir
        pkg mpErr (path_Base filename)
  | _ => Ret (pkg, err)
  end.

Definition loadPackage (ctx : Context) (fileURI : lsp.DocumentURI)
    (position : lsp.Position)
  : heap * list event
    -> outcome (heap * list event) (option loc * token.Pos * option error) :=
  fun '(h, tr) =>
    match SpanFromContext ctx with
    | None => Panic (h, tr) (* parentSpan.Tracer() on a nil span *)
    | Some parentSpan =>
        let '(span, tr) :=
          StartSpan "langserver-go: load program" [("fileURI", fileURI)]
                    parentSpan tr in
        let ctx := ContextWithSpan ctx span in
        defer_Finish span
          (let start := token.NoPos in
           if negb (IsURI fileURI) then
             Ret (None, start,
                  Some (Errorf
                          "typechecking of out-of-workspace URI (%q) is not yet supported"
                          [ArgQ fileURI]))
           else
             let filename := FilePath fileURI in
             do r <- on_heap (loadPackage_resolve filename);
             let '(pkg, err) := r in
             match err with
             | Some err => Ret (None, start, Some err)
             | None =>
                 let '(contents, err) := readFile fileURI in
                 match err with
                 | Some err => Ret (None, start, Some err)
                 | None =>
                     let '(offset, valid, why) := offsetForPosition contents position in
                     if negb valid then
                       Ret (None, start,
                            Some (Errorf "invalid position: %s:%d:%d (%s)"
                                    [ArgS filename; ArgD (lsp.Line position);
                                     ArgD (lsp.Character position); ArgS why]))
                     else
                       do p <- on_heap (deref pkg);
                       let start :=
                         posForFileOffset PathEqual File_Pos (packages.Fset p)
                                          filename offset in
                       if Z.eqb start token.NoPos then
                         Ret (None, start,
                              Some (Errorf "invalid location: %s:#%d"
                                      [ArgS filename; ArgD offset]))
                       else Ret (pkg, start, None)
                 end
             end)
          (h, tr)
    end.

End LoadPackage.

(** Modelled from the spec: [offsetForPosition], which [loadPackage]
    calls and which is not among the sources. The position resolver turns
    file contents and a (line, column) pair into a byte offset, and
    fails, with a reason, when the line or column falls outside the
    file's line table or the column exceeds the line's byte length. *)
Module Position.

Definition newline : Byte.byte := Byte.x0a.

(** The line table: the contents split at newlines. *)
Fixpoint lines (contents : list Byte.byte) : list (list Byte.byte) :=
  match contents with
  | [] => [[]]
  | b :: rest =>
      if Byte.eqb b newline then [] :: lines rest
      else match lines rest with
           | l :: ls => (b :: l) :: ls
           | [] => [[b]]
           end
  end.

(** The offset at which line [n] starts. *)
Fixpoint line_start (ls : list (list Byte.byte)) (n : nat) : Z :=
  match n, ls with
  | S n', l :: ls' => Z.of_nat (length l) + 1 + line_start ls' n'
  | _, _ => 0
  end.

Definition offsetForPosition (contents : list Byte.byte) (p : lsp.Position)
  : Z * bool * string :=
  if lsp.Line p <? 0 then (0, false, "line out of range")
  else
    match lines contents !! Z.to_nat (lsp.Line p) with
    | None => (0, false, "line out of range")
    | Some l =>
        if lsp.Character p <? 0 then (0, false, "column out of range")
        else if Z.of_nat (length l) <? lsp.Character p
             then (0, false, "column beyond line end")
             else (line_start (lines contents) (Z.to_nat (lsp.Line p))
                   + lsp.Character p, true, "")
    end.

(** A position outside the bounds of the contents: its line is out of
    range, or its column is beyond the byte length of its line. *)
Definition out_of_bounds (contents : list Byte.byte) (p : lsp.Position) : Prop :=
  lsp.Line p < 0
  ∨ (length (lines contents) <= Z.to_nat (lsp.Line p))%nat
  ∨ ∃ l, lines contents !! Z.to_nat (lsp.Line p) = Some l
         ∧ Z.of_nat (length l) < lsp.Character p.

End Position.

(** ** The type-check cache *)

(** Modelled from the spec: the cache behind [h.typecheckCache], whose
    [Get] is called by [cachedTypecheck] and is not among the sources.
    [get(key, computeFn)]: on the first call for a key it invokes
    [computeFn], stores the result and returns it; later calls with the
    same key return the stored result. Concurrent callers are
    coordinated through a single-assignment slot per key: the first
    caller creates the slot and populates it, later callers await the
    same slot. *)
Module Cache.
Section Cache.

Context {K : Type} `{Countable K}.
Context {V : Type}.

(** One caller at a time: [computeFn] is a closure on a state [S]. *)
Definition Get {S : Type} (c : gmap K V) (k : K) (computeFn : S -> V * S) (s : S)
  : V * gmap K V * S :=
  match c !! k with
  | Some v => (v, c, s)
  | None => let '(v, s') := computeFn s in (v, <[k:=v]> c, s')
  end.

(** Several callers. [W] is the state the callers' [computeFn]s work
    on. *)
Context {W : Type}.

Inductive slot : Type :=
| Pending
| Ready (v : V).

Inductive caller : Type :=
| Calling (k : K) (computeFn : W -> V * W) (* has not looked up its key yet *)
| Computing (k : K) (computeFn : W -> V * W) (* created the slot, computes *)
| Waiting (k : K)                           (* found a slot, awaits it *)
| Returned (k : K) (v : V).

Record state : Type := mkState {
  slots : gmap K slot;
  world : W;
  invoked : list K; (* the keys [computeFn] was run for, in order *)
  callers : list caller
}.

(** Caller [i] takes its next step, if it has one. *)
Definition step (i : nat) (st : state) : state :=
  match callers st !! i with
  | Some (Calling k computeFn) =>
      match slots st !! k with
      | None =>
          {| slots := <[k:=Pending]> (slots st); world := world st;
             invoked := invoked st;
             callers := <[i:=Computing k computeFn]> (callers st) |}
      | Some _ =>
          {| slots := slots st; world := world st; invoked := invoked st;
             callers := <[i:=Waiting k]> (callers st) |}
      end
  | Some (Computing k computeFn) =>
      let '(v, w) := computeFn (world st) in
      {| slots := <[k:=Ready v]> (slots st); world := w;
         invoked := invoked st ++ [k];
         callers := <[i:=Returned k v]> (callers st) |}
  | Some (Waiting k) =>
      match slots st !! k with
      | Some (Ready v) =>
          {| slots := slots st; world := world st; invoked := invoked st;
             callers := <[i:=Returned k v]> (callers st) |}
      | _ => st
      end
  | _ => st
  end.

(** The callers step in the order of a schedule. *)
Fixpoint run (schedule : list nat) (st : state) : state :=
  match schedule with
  | [] => st
  | i :: rest => run rest (step i st)
  end.

(** The callers [cs] arrive at a cache holding [c]. *)
Definition init (c : gmap K V) (w : W) (cs : list (K * (W -> V * W))) : state :=
  {| slots := Ready <$> c; world := w; invoked := [];
     callers := (fun '(k, computeFn) => Calling k computeFn) <$> cs |}.

Definition runs_of (k : K) (st : state) : nat :=
  length (filter (fun k' => k' = k) (invoked st)).

Definition has_returned (c : caller) : bool :=
  match c with
  | Returned _ _ => true
  | _ => false
  end.

Definition all_returned (st : state) : Prop :=
  forallb has_returned (callers st) = true.

(** The steps a caller still has to take. *)
Definition steps_left (c : caller) : nat :=
  match c with
  | Calling _ _ => 2
  | Computing _ _ | Waiting _ => 1
  | Returned _ _ => 0
  end.

End Cache.
Arguments slot V : clear implicits.
Arguments caller K V W : clear implicits.
Arguments state K {_ _} V W.
End Cache.

(** ** [fsetToFiles] *)

(** [fsetToFiles]: the callback appends the name of each file to the
    result [files], which starts [nil], and always asks to go on. *)
Definition fsetToFiles (fset : token.FileSet) : list string :=
  token.Iterate fset (fun f files => (files ++ [token.Name f], true)) [].

(** ** The scan as a pointer *)

(** [buildPackageForNamedFileInMultiPackageDir] takes the scan as a
    pointer, [m *build.MultiplePackageError]. With [m] [nil] the
    descriptor is copied first, as with any scan, and [len(m.Files)],
    the size given to [make], then panics. *)
Definition buildPackageForNamedFileInMultiPackageDir_ptr
    (spare : nat -> nat -> nat) (filepath_Dir : string -> string)
    (bpkg : option loc) (m : option build.MultiplePackageError) (filename : string)
  : heap -> outcome heap (option loc * option error) :=
  match m with
  | Some scan =>
      buildPackageForNamedFileInMultiPackageDir spare filepath_Dir bpkg scan filename
  | None =>
      do copy <- deref bpkg;
      do bpkg <- new_pkg copy;
      Panic
  end.

(** ** Notions used in the statements *)

(** The files among [files] that [fileToPkgName] maps to [pkgName], in
    their order. *)
Definition files_in_package (fileToPkgName : gmap string string) (pkgName : string)
    (files : list string) : list string :=
  filter (λ f, map_index fileToPkgName f = pkgName) files.

(** The package name a directory scan gives for a file: [packages] holds,
    at the same index, the name for each of [files]; the last entry of a
    file counts. *)
Fixpoint declared_unit (files packages : list string) (f : string) : option string :=
  match files, packages with
  | g :: files', p :: packages' =>
      match declared_unit files' packages' f with
      | Some q => Some q
      | None => if String.eqb g f then Some p else None
      end
  | _, _ => None
  end.

Definition heap_of {A : Type} (o : outcome heap A) : heap :=
  match o with
  | Ret _ h => h
  | Panic h => h
  end.

(** A slice that shares no array with the heap [h0]. *)
Definition fresh_slice (h0 : heap) (s : slice) : Prop :=
  match s with
  | nil_slice => True
  | Slice a _ _ => a ∉ dom (arrs h0)
  end.

(** The heap [h] still has every cell of [h0], with its contents. *)
Definition preserves (h0 h : heap) : Prop :=
  pkgs h0 ⊆ pkgs h ∧ arrs h0 ⊆ arrs h.

(** The slice [keep] is in a well-formed array of its own, apart from
    the arrays of [h0], and holds [kept]. *)
Definition owns (h0 h : heap) (keep : slice) (kept : list string) : Prop :=
  match keep with
  | nil_slice => kept = []
  | Slice a len cap =>
      (a ∉ dom (arrs h0))
      ∧ (∃ l, arrs h !! a = Some l ∧ length l = cap ∧ (len <= cap)%nat
              ∧ take len l = kept ∧ length kept = len)
  end.

(** The package name the scan [m] gives for a file; the empty string
    when it has none. *)
Definition scan_name (m : build.MultiplePackageError) (f : string) : string :=
  default "" (declared_unit (build.Files m) (build.Packages m) f).

(** The name by which [buildPackageForNamedFileInMultiPackageDir] filters
    the files of a package called [pkgName]. *)
Definition nonXTestPkgName (pkgName : string) : string :=
  if strings.HasSuffix pkgName "_test"
  then strings.TrimSuffix pkgName "_test"
  else pkgName.

(** The call failed: it returned an error and no descriptor. *)
Definition fails (o : outcome heap (option loc * option error)) : Prop :=
  ∃ e h', o = Ret (None, Some e) h'.

(** The call returned, without error, a descriptor called [n]. *)
Definition returns_unit_named (o : outcome heap (option loc * option error))
    (n : string) : Prop :=
  ∃ l' h' p', o = Ret (Some l', None) h'
              ∧ pkgs h' !! l' = Some p' ∧ packages.Name p' = n.

(** The file list of the descriptor a call returned. *)
Definition unit_files (o : outcome heap (option loc * option error))
  : option (list string) :=
  match o with
  | Ret (Some l', None) h' =>
      pkgs h' !! l' ≫= (λ p', slice_elems h' (packages.GoFiles p'))
  | _ => None
  end.

(** ** Sample inputs *)

Module Sample.

(** A runtime that grows a slice to twice the length it needs. *)
Definition spare (cap n : nat) : nat := n.

Definition filepath_Dir (filename : string) : string := "/src/pkg".

(** A directory with a package [pkg], its in-package test and an
    external test of package [pkg_test]. *)
Definition descriptor : packages.Package :=
  {| packages.PkgPath := "example.com/pkg";
     packages.Name := "pkg";
     packages.GoFiles := Slice 1%positive 3 3;
     packages.Fset := [] |}.

Definition heap0 : heap :=
  {| pkgs := {[ 1%positive := descriptor ]};
     arrs := {[ 1%positive := ["a.go"; "a_test.go"; "x_test.go"] ]} |}.

Definition scan : build.MultiplePackageError :=
  {| build.mpDir := "/src/pkg";
     build.Packages := ["pkg"; "pkg"; "pkg_test"];
     build.Files := ["a.go"; "a_test.go"; "x_test.go"] |}.

(** A scan that lists a file under the empty name. *)
Definition scan_unnamed : build.MultiplePackageError :=
  {| build.mpDir := "/src/pkg";
     build.Packages := [""; "pkg"];
     build.Files := ["a.go"; "b.go"] |}.

End Sample.

(** A sample analysis: a loader that always produces a program and
    reports one error, and a conversion to diagnostics that gives up on
    an error it does not recognise. *)
Module SampleAnalysis.

Definition Program := list string.
Definition diagnostics := list string.
Definition nil_diagnostics : diagnostics := [].
Definition BuildContext := unit.

Definition JoinPath (bctx : BuildContext) (dir filename : string) : string :=
  dir +:+ "/" +:+ filename.

Definition Load (conf : Config BuildContext) : LoadResult Program :=
  {| loaded := [];
     loaded_prog := Some (concat (snd <$> CreatePkgs _ conf));
     loaded_err := None;
     reported := [ExternalError "a.go:1:1: undeclared name: x"] |}.

(** Every reported error becomes a diagnostic. *)
Definition errsToDiagnostics (typeErrs : list error) (prog : option Program)
  : diagnostics * option error :=
  ((λ e, match e with ExternalError msg => msg | _ => "" end) <$> typeErrs, None).

(** The conversion gives up on the first error it is given. *)
Definition errsToDiagnostics_strict (typeErrs : list error) (prog : option Program)
  : diagnostics * option error :=
  match typeErrs with
  | [] => ([], None)
  | _ :: _ => ([], Some (Errorf "unexpected type error: %#+v" []))
  end.

Definition findPackage : FindPackageFunc BuildContext :=
  fun _ _ _ _ _ => (None, Some (ExternalError "not found")).

Definition pkg : build.Package :=
  {| build.ImportPath := "example.com/pkg";
     build.Dir := "/src/pkg";
     build.Name := "pkg";
     build.GoFiles := ["a.go"];
     build.TestGoFiles := ["a_test.go"];
     build.XTestGoFiles := ["x_test.go"] |}.

Definition ctx : Context := {| ctx_span := Some 0%nat |}.

End SampleAnalysis.

(** Cache keys can be compared and counted, as map keys must. *)
#[global] Instance typecheckKey_eq_dec : EqDecision typecheckKey.
Proof. solve_decision. Defined.

#[global] Instance typecheckKey_countable : Countable typecheckKey.
Proof.
  apply (inj_countable' (λ k, (importPath k, srcDir k, name k))
                        (λ t, {| importPath := t.1.1; srcDir := t.1.2; name := t.2 |})).
  now intros [].
Defined.

(** The cache of the spec as the handler's [typecheckCache]. *)
Definition typecheckCache_Get {V : Type} (S : Type) (k : typecheckKey)
    (computeFn : S -> V * S) (cs : gmap typecheckKey V * S)
  : V * (gmap typecheckKey V * S) :=
  let '(v, c', s') := Cache.Get (fst cs) k computeFn (snd cs) in
  (v, (c', s')).

(** The key [cachedTypecheck] uses for a package. *)
Definition key_of (bpkg : build.Package) : typecheckKey :=
  {| importPath := build.ImportPath bpkg;
     srcDir := build.Dir bpkg;
     name := build.Name bpkg |}.

(** The number of spans of a given name started in a sequence of events,
    and the number of programs loaded in it. *)
Definition is_start (operationName : string) (ev : event) : bool :=
  match ev with
  | EvStartSpan n _ _ _ => String.eqb n operationName
  | _ => false
  end.

Definition is_load (ev : event) : bool :=
  match ev with
  | EvLoad _ _ => true
  | _ => false
  end.

Definition spans_started (operationName : string) (tr : list event) : nat :=
  length (List.filter (is_start operationName) tr).

Definition programs_loaded (tr : list event) : nat :=
  length (List.filter is_load tr).

(** The events at the moment [cachedTypecheck] calls [Get]: the span of
    the call has been started. *)
Definition span_started (parentSpan : Span) (bpkg : build.Package)
    (tr : list event) : list event :=
  tr ++ [EvStartSpan "langserver-go: typecheck" [("pkg", build.ImportPath bpkg)]
           parentSpan (length tr)].

Module SampleCalls.
Import SampleAnalysis.

(** [cachedTypecheck] of the sample analysis over the cache of the
    spec. *)
Definition cachedTypecheck :=
  cachedTypecheck Program diagnostics nil_diagnostics BuildContext JoinPath Load
    errsToDiagnostics (gmap typecheckKey (option (typecheckResult Program)))
    typecheckCache_Get findPackage.

(** The state after one call on the sample package, from an empty
    cache and no events; and the events after a second call. *)
Definition after_one_call
  : gmap typecheckKey (option (typecheckResult Program)) * list event :=
  match cachedTypecheck ctx tt pkg (∅, []) with
  | Ret _ s => s
  | Panic s => s
  end.

Definition events_after_two_calls : list event :=
  match cachedTypecheck ctx tt pkg after_one_call with
  | Ret _ s => snd s
  | Panic s => snd s
  end.

(** A cache that holds [nil] for the sample package, as after a
    computation that panicked. *)
Definition cache_with_nil : gmap typecheckKey (option (typecheckResult Program)) :=
  {[ key_of pkg := None ]}.

End SampleCalls.

(** The events of a call of [loadPackage] that returns. *)
Definition load_events (parentSpan : Span) (fileURI : lsp.DocumentURI)
    (tr : list event) : list event :=
  tr ++ [EvStartSpan "langserver-go: load program" [("fileURI", fileURI)]
           parentSpan (length tr);
         EvFinish (length tr)].

(** A sample request: the file [/src/pkg/a.go] holds two lines, [ab] and
    [cd], and is registered in the file set of its package. *)
Module SampleRequest.

Definition PathEqual (p1 p2 : string) : bool := String.eqb p1 p2.

Definition File_Pos (f : token.File) (offset : Z) : token.Pos :=
  token.Base f + offset.

Definition path_Dir (filename : string) : string := "/src/pkg".
Definition path_Base (filename : string) : string := "a.go".
Definition IsURI (uri : lsp.DocumentURI) : bool := true.
Definition FilePath (uri : lsp.DocumentURI) : string := "/src/pkg/a.go".
Definition IsDir (filename : string) : bool := false.

Definition contents : list Byte.byte :=
  [Byte.x61; Byte.x62; Byte.x0a; Byte.x63; Byte.x64].

Definition readFile (uri : lsp.DocumentURI) : list Byte.byte * option error :=
  (contents, None).

Definition descriptor : packages.Package :=
  {| packages.PkgPath := "example.com/pkg";
     packages.Name := "pkg";
     packages.GoFiles := nil_slice;
     packages.Fset := [ {| token.Name := "/src/pkg/a.go";
                           token.Base := 1; token.Size := 5 |} ] |}.

(** The same package, loaded without registering the file. *)
Definition descriptor_without_file : packages.Package :=
  {| packages.PkgPath := "example.com/pkg";
     packages.Name := "pkg";
     packages.GoFiles := nil_slice;
     packages.Fset := [ {| token.Name := "/src/pkg/b.go";
                           token.Base := 1; token.Size := 7 |} ] |}.

Definition heap0 : heap :=
  {| pkgs := {[ 1%positive := descriptor; 2%positive := descriptor_without_file ]};
     arrs := ∅ |}.

Definition packageCache_Load (l : loc) (dir : string)
  : heap -> outcome heap (option loc * option error) :=
  Ret (Some l, None).

Definition ctx : Context := {| ctx_span := Some 0%nat |}.

(** [loadPackage] for the sample request; [l] is the package the
    package cache returns. *)
Definition loadPackage (l : loc)
    (offsetForPosition : list Byte.byte -> lsp.Position -> Z * bool * string) :=
  loadPackage Sample.spare Sample.filepath_Dir PathEqual File_Pos path_Dir path_Base
    IsURI FilePath IsDir (packageCache_Load l) readFile offsetForPosition.

End SampleRequest.

(** ** The state of the cache while callers run *)

Section CacheInvariant.

Context {K : Type} `{Countable K} {V W : Type}.

(** What holds of every state the callers can reach from a cache that
    stored [c0]. *)
Record cache_inv (c0 : gmap K V) (st : Cache.state K V W) : Prop := {
  inv_stored : ∀ k v,
    c0 !! k = Some v -> Cache.slots st !! k = Some (Cache.Ready v);
  inv_computing : ∀ i k f,
    Cache.callers st !! i = Some (Cache.Computing k f) ->
    Cache.slots st !! k = Some Cache.Pending;
  inv_one_computing : ∀ i j k f f',
    Cache.callers st !! i = Some (Cache.Computing k f) ->
    Cache.callers st !! j = Some (Cache.Computing k f') -> i = j;
  inv_returned : ∀ i k v,
    Cache.callers st !! i = Some (Cache.Returned k v) ->
    Cache.slots st !! k = Some (Cache.Ready v);
  inv_waiting : ∀ i k,
    Cache.callers st !! i = Some (Cache.Waiting k) ->
    is_Some (Cache.slots st !! k);
  inv_pending : ∀ k,
    Cache.slots st !! k = Some Cache.Pending ->
    ∃ i f, Cache.callers st !! i = Some (Cache.Computing k f);
  inv_runs : ∀ k,
    Cache.runs_of k st
    = match c0 !! k, Cache.slots st !! k with
      | None, Some (Cache.Ready _) => 1%nat
      | _, _ => 0%nat
      end
}.

(** The steps the callers still have to take, all together. *)
Definition work_left (st : Cache.state K V W) : nat :=
  sum_list_with Cache.steps_left (Cache.callers st).

End CacheInvariant.

(** Three callers ask for the same key at once; their [computeFn] counts
    its runs and returns the count. *)
Module SampleCallers.

Definition computeFn (runs : nat) : nat * nat := (S runs, S runs).

Definition callers : list (string * (nat -> nat * nat)) :=
  [("pkg", computeFn); ("pkg", computeFn); ("pkg", computeFn)].

(** The second caller looks up the key first; the others arrive while
    it computes. *)
Definition schedule : list nat := [1; 0; 2; 0; 1; 2; 0]%nat.

Definition start : Cache.state string nat nat := Cache.init ∅ 0%nat callers.

End SampleCallers.

(** ** Further notions *)

(** The state a run ends in, whether it returned or panicked. *)
Definition state_of {St A : Type} (o : outcome St A) : St :=
  match o with
  | Ret _ s => s
  | Panic s => s
  end.

(** The descriptor a call returned. *)
Definition unit_of (o : outcome heap (option loc * option error))
  : option packages.Package :=
  match o with
  | Ret (Some l', None) h' => pkgs h' !! l'
  | _ => None
  end.

(** A slice header that is [nil] or has at least one element. *)
Definition nil_or_nonempty (s : slice) : Prop :=
  match s with
  | nil_slice => True
  | Slice _ len cap => (0 < len <= cap)%nat
  end.

Module SampleMore.

(** A scan that lists [a.go] twice, first under [pkg], then under
    [main], and the map the loader builds from it. *)
Definition scan_twice : build.MultiplePackageError :=
  {| build.mpDir := "/src/pkg";
     build.Packages := ["pkg"; "pkg"; "main"];
     build.Files := ["a.go"; "b.go"; "a.go"] |}.

Definition map_twice : gmap string string :=
  default ∅ (fileToPkgName_from 0 (build.Files scan_twice)
               (build.Packages scan_twice) ∅).

(** A descriptor whose one file, [b.go], is of another package than
    [a.go]. *)
Definition descriptor_b : packages.Package :=
  {| packages.PkgPath := "example.com/pkg";
     packages.Name := "pkg";
     packages.GoFiles := Slice 1%positive 1 1;
     packages.Fset := [] |}.

Definition heap_b : heap :=
  {| pkgs := {[ 1%positive := descriptor_b ]};
     arrs := {[ 1%positive := ["b.go"] ]} |}.

End SampleMore.

Module SampleCallsMore.

(** What [typecheck] computes for the sample package, and a cache that
    holds it. *)
Definition result : typecheckResult SampleAnalysis.Program :=
  {| fset := []; prog := Some ["/src/pkg/a.go"; "/src/pkg/a_test.go"]; err := None |}.

Definition cache_with_result
  : gmap typecheckKey (option (typecheckResult SampleAnalysis.Program)) :=
  {[ key_of SampleAnalysis.pkg := Some result ]}.

(** A package with the import path, directory and name of the sample
    package, and other files. *)
Definition pkg_other_files : build.Package :=
  {| build.ImportPath := "example.com/pkg";
     build.Dir := "/src/pkg";
     build.Name := "pkg";
     build.GoFiles := ["main.go"];
     build.TestGoFiles := [];
     build.XTestGoFiles := [] |}.

End SampleCallsMore.

Module SampleRequestMore.

(** A directory whose three files are of two packages: the descriptor the
    package cache holds for it lists all of them, and registers
    [/src/pkg/a.go] in its file set. *)
Definition descriptor : packages.Package :=
  {| packages.PkgPath := "example.com/pkg";
     packages.Name := "pkg";
     packages.GoFiles := Slice 1%positive 3 3;
     packages.Fset := [ {| token.Name := "/src/pkg/a.go";
                           token.Base := 1; token.Size := 5 |} ] |}.

Definition heap0 : heap :=
  {| pkgs := {[ 1%positive := descriptor ]};
     arrs := {[ 1%positive := ["a.go"; "a_test.go"; "x_test.go"] ]} |}.

(** A package cache that reports the scan [m] with its descriptor. *)
Definition packageCache_Load (m : build.MultiplePackageError) (dir : string)
  : heap -> outcome heap (option loc * option error) :=
  Ret (Some 1%positive, Some (ErrMultiplePackage m)).

(** A workspace that holds no file. *)
Definition IsURI_nowhere (uri : lsp.DocumentURI) : bool := false.

(** A file system on which no file can be read. *)
Definition readFile_fails (uri : lsp.DocumentURI) : list Byte.byte * option error :=
  ([], Some (ExternalError "open /src/pkg/a.go: no such file or directory")).

End SampleRequestMore.

(** * Properties *)

(** ** Suffixes *)

Section StringFacts.

Lemma length_append (s t : string) :
  String.length (s +:+ t) = (String.length s + String.length t)%nat.
Proof. induction s as [|c s IH]; simpl; [reflexivity | now rewrite IH]. Qed.

Lemma substring_all (s : string) : String.substring 0 (String.length s) s = s.
Proof. induction s as [|c s IH]; simpl; [reflexivity | now rewrite IH]. Qed.

Lemma substring_drop_prefix (p q : string) (n : nat) :
  String.substring (String.length p) n (p +:+ q) = String.substring 0 n q.
Proof. induction p as [|c p IH]; simpl; [reflexivity | exact IH]. Qed.

Lemma substring_take_prefix (p q : string) :
  String.substring 0 (String.length p) (p +:+ q) = p.
Proof.
  induction p as [|c p IH]; simpl.
  - now destruct q.
  - now rewrite IH.
Qed.

Lemma substring_split (s : string) (n m : nat) :
  (n + m)%nat = String.length s ->
  String.substring 0 n s +:+ String.substring n m s = s.
Proof.
  revert n m. induction s as [|c s IH]; intros n m Hlen; simpl in Hlen.
  - assert (n = 0%nat) by lia. assert (m = 0%nat) by lia. now subst.
  - destruct n as [|n]; simpl.
    + destruct m as [|m]; [discriminate|]. simpl.
      injection Hlen as Hlen. subst m. now rewrite substring_all.
    + injection Hlen as Hlen.
      change (String c (String.substring 0 n s +:+ String.substring n m s)
              = String c s).
      f_equal. now apply IH.
Qed.

(** [HasSuffix] holds exactly of the strings that end in the suffix. *)
Lemma HasSuffix_true_iff (s suffix : string) :
  strings.HasSuffix s suffix = true <-> exists p, s = p +:+ suffix.
Proof.
  unfold strings.HasSuffix. rewrite andb_true_iff, Nat.leb_le, String.eqb_eq.
  split.
  - intros [Hle Hsub].
    exists (String.substring 0 (String.length s - String.length suffix) s).
    set (k := (String.length s - String.length suffix)%nat) in *.
    transitivity (String.substring 0 k s
                  +:+ String.substring k (String.length suffix) s).
    + symmetry. apply substring_split. lia.
    + now rewrite Hsub.
  - intros [p ->]. rewrite length_append. split; [lia|].
    replace (String.length p + String.length suffix - String.length suffix)%nat
      with (String.length p) by lia.
    rewrite substring_drop_prefix. apply substring_all.
Qed.

Lemma TrimSuffix_app (p suffix : string) :
  strings.TrimSuffix (p +:+ suffix) suffix = p.
Proof.
  unfold strings.TrimSuffix.
  assert (strings.HasSuffix (p +:+ suffix) suffix = true) as ->
    by (apply HasSuffix_true_iff; eauto).
  rewrite length_append.
  replace (String.length p + String.length suffix - String.length suffix)%nat
    with (String.length p) by lia.
  apply substring_take_prefix.
Qed.

End StringFacts.

(** ** Slices and the heap *)

Section HeapFacts.

Variable spare : nat -> nat -> nat.

Lemma take_snoc (k r : list string) (x : string) :
  take (S (length k)) (k ++ x :: r) = k ++ [x].
Proof.
  rewrite (cons_middle x k r), app_assoc.
  apply take_app_length'. rewrite length_app. simpl. lia.
Qed.

Lemma preserves_refl (h : heap) : preserves h h.
Proof. split; reflexivity. Qed.

Lemma preserves_trans (h0 h1 h2 : heap) :
  preserves h0 h1 -> preserves h1 h2 -> preserves h0 h2.
Proof. intros [? ?] [? ?]. split; etrans; eauto. Qed.

Lemma preserves_arrs_dom (h0 h : heap) (a : loc) :
  preserves h0 h -> a ∉ dom (arrs h) -> a ∉ dom (arrs h0).
Proof.
  intros [_ Hsub] Hnot Hin. apply Hnot.
  apply elem_of_dom in Hin as [l Hl]. apply elem_of_dom. exists l.
  exact (lookup_weaken _ _ _ _ Hl Hsub).
Qed.

Lemma preserves_pkgs_dom (h0 h : heap) (l : loc) :
  preserves h0 h -> l ∉ dom (pkgs h) -> l ∉ dom (pkgs h0).
Proof.
  intros [Hsub _] Hnot Hin. apply Hnot.
  apply elem_of_dom in Hin as [p Hp]. apply elem_of_dom. exists p.
  exact (lookup_weaken _ _ _ _ Hp Hsub).
Qed.

Lemma preserves_insert_arr (h0 h : heap) (a : loc) (l : list string) :
  preserves h0 h -> a ∉ dom (arrs h0) ->
  preserves h0 (set_arrs (insert a l) h).
Proof.
  intros [Hp Ha] Hnot. split; simpl; [exact Hp|].
  apply map_subseteq_spec. intros b x Hb.
  rewrite lookup_insert_ne.
  - exact (lookup_weaken _ _ _ _ Hb Ha).
  - intros ->. apply Hnot. apply elem_of_dom. eauto.
Qed.

Lemma preserves_insert_pkg (h0 h : heap) (l : loc) (p : packages.Package) :
  preserves h0 h -> l ∉ dom (pkgs h0) ->
  preserves h0 (set_pkgs (insert l p) h).
Proof.
  intros [Hp Ha] Hnot. split; simpl; [|exact Ha].
  apply map_subseteq_spec. intros b x Hb.
  rewrite lookup_insert_ne.
  - exact (lookup_weaken _ _ _ _ Hb Hp).
  - intros ->. apply Hnot. apply elem_of_dom. eauto.
Qed.

Lemma preserves_alter_pkg (h0 h : heap) (l : loc)
    (f : packages.Package -> packages.Package) :
  preserves h0 h -> l ∉ dom (pkgs h0) ->
  preserves h0 (set_pkgs (alter f l) h).
Proof.
  intros [Hp Ha] Hnot. split; simpl; [|exact Ha].
  apply map_subseteq_spec. intros b x Hb.
  rewrite lookup_alter_ne.
  - exact (lookup_weaken _ _ _ _ Hb Hp).
  - intros ->. apply Hnot. apply elem_of_dom. eauto.
Qed.

(** [append] leaves the cells of [h0] alone when the slice it extends
    shares no array with [h0], and so does its result. *)
Lemma append_preserves (h0 h : heap) (keep : slice) (x : string) :
  preserves h0 h -> fresh_slice h0 keep ->
  preserves h0 (heap_of (append spare keep x h))
  ∧ match append spare keep x h with
    | Ret keep' _ => fresh_slice h0 keep'
    | Panic _ => True
    end.
Proof.
  intros Hpres Hfresh.
  assert (fresh (dom (arrs h)) ∉ dom (arrs h0)) as Hnew
    by (eapply preserves_arrs_dom; [exact Hpres | apply is_fresh]).
  unfold append. destruct keep as [|a len cap]; simpl.
  - split; [|exact Hnew]. now apply preserves_insert_arr.
  - destruct (arrs h !! a) as [l|] eqn:Hl; simpl; [|now split].
    destruct (len <? cap)%nat; simpl.
    + split; [|exact Hfresh]. now apply preserves_insert_arr.
    + split; [|exact Hnew]. now apply preserves_insert_arr.
Qed.

Lemma owns_fresh (h0 h : heap) (keep : slice) (kept : list string) :
  owns h0 h keep kept -> fresh_slice h0 keep.
Proof. destruct keep; simpl; [trivial | tauto]. Qed.

Lemma owns_elems (h0 h : heap) (keep : slice) (kept : list string) :
  owns h0 h keep kept -> slice_elems h keep = Some kept.
Proof.
  destruct keep as [|a len cap]; simpl.
  - now intros ->.
  - intros (_ & l & -> & Hlen & Hle & Htake & _).
    assert ((len <=? length l)%nat = true) as -> by (apply Nat.leb_le; lia).
    now rewrite Htake.
Qed.

(** [append] adds the element at the end of a slice that owns its
    array, and the result owns its array. *)
Lemma append_owns (h0 h : heap) (keep : slice) (kept : list string) (x : string) :
  preserves h0 h -> owns h0 h keep kept ->
  ∃ keep' h', append spare keep x h = Ret keep' h'
              ∧ preserves h0 h' ∧ pkgs h' = pkgs h
              ∧ owns h0 h' keep' (kept ++ [x]).
Proof.
  intros Hpres Hown.
  assert (fresh (dom (arrs h)) ∉ dom (arrs h0)) as Hnew
    by (eapply preserves_arrs_dom; [exact Hpres | apply is_fresh]).
  unfold append. destruct keep as [|a len cap]; simpl in *.
  - subst kept. eexists _, _. split; [reflexivity|].
    split; [now apply preserves_insert_arr|]. split; [reflexivity|].
    split; [exact Hnew|]. eexists. split; [apply lookup_insert_eq|].
    simpl. rewrite length_replicate. repeat split; lia.
  - destruct Hown as (Hfresh & l & Hl & Hlen & Hle & Htake & Hklen).
    rewrite Hl. destruct (len <? cap)%nat eqn:Hroom.
    + apply Nat.ltb_lt in Hroom. eexists _, _. split; [reflexivity|].
      split; [now apply preserves_insert_arr|]. split; [reflexivity|].
      split; [exact Hfresh|]. eexists. split; [apply lookup_insert_eq|].
      rewrite length_insert. split; [exact Hlen|]. split; [lia|].
      split; [|rewrite length_app; simpl; lia].
      rewrite (take_S_r _ _ x) by (apply list_lookup_insert_eq; lia).
      rewrite take_insert_ge by lia. now rewrite Htake.
    + apply Nat.ltb_ge in Hroom.
      assert (length (take len l) = len) as Htl by (rewrite length_take; lia).
      rewrite Htl.
      eexists _, _. split; [reflexivity|].
      split; [now apply preserves_insert_arr|]. split; [reflexivity|].
      split; [exact Hnew|]. eexists. split; [apply lookup_insert_eq|].
      rewrite length_app, Htl. simpl.
      rewrite length_replicate. split; [lia|]. split; [lia|].
      split; [|rewrite length_app; simpl; lia].
      rewrite Htake, <- Hklen. apply take_snoc.
Qed.

Lemma slice_index_heap (files : slice) (i : nat) (h : heap) :
  heap_of (slice_index files i h) = h.
Proof.
  unfold slice_index. destruct files as [|a len cap]; [reflexivity|].
  destruct (i <? len)%nat; [|reflexivity].
  now destruct (arrs h !! a ≫= (λ l, l !! i)).
Qed.

Lemma slice_index_elems (h0 h : heap) (files : slice) (fl : list string)
    (i : nat) (f : string) :
  preserves h0 h -> slice_elems h0 files = Some fl -> fl !! i = Some f ->
  slice_index files i h = Ret f h.
Proof.
  intros [_ Harrs] Hfl Hi. unfold slice_index. destruct files as [|a len cap].
  - simpl in Hfl. injection Hfl as <-. discriminate.
  - simpl in Hfl. destruct (arrs h0 !! a) as [l|] eqn:Hl; [|discriminate].
    destruct (len <=? length l)%nat; [|discriminate]. injection Hfl as <-.
    apply lookup_take_Some in Hi as [Hi Hlt].
    assert ((i <? len)%nat = true) as -> by (apply Nat.ltb_lt; lia).
    rewrite (lookup_weaken _ _ _ _ Hl Harrs). simpl. now rewrite Hi.
Qed.

Lemma slice_elems_length (h : heap) (files : slice) (fl : list string) :
  slice_elems h files = Some fl -> length fl = slice_len files.
Proof.
  destruct files as [|a len cap]; simpl.
  - now intros [= <-].
  - destruct (arrs h !! a) as [l|]; [|discriminate].
    destruct (len <=? length l)%nat eqn:Hle; [|discriminate].
    intros [= <-]. apply Nat.leb_le in Hle. rewrite length_take. lia.
Qed.

Section Filter.

Variable fileToPkgName : gmap string string.
Variable files : slice.
Variable pkgName : string.
Variable h0 : heap.

Lemma filterToFilesInPackage_from_S (todo i : nat) (keep : slice) (h : heap) :
  filterToFilesInPackage_from spare fileToPkgName files pkgName (S todo) i keep h
  = match slice_index files i h with
    | Ret f h1 =>
        if String.eqb (map_index fileToPkgName f) pkgName
        then match append spare keep f h1 with
             | Ret keep' h2 =>
                 filterToFilesInPackage_from spare fileToPkgName files pkgName
                   todo (S i) keep' h2
             | Panic h2 => Panic h2
             end
        else filterToFilesInPackage_from spare fileToPkgName files pkgName
               todo (S i) keep h1
    | Panic h1 => Panic h1
    end.
Proof.
  simpl. unfold bind at 1. destruct (slice_index files i h); [|reflexivity].
  now destruct (String.eqb (map_index fileToPkgName a) pkgName).
Qed.

(** The loop touches no cell of the heap it starts from, whatever
    the slice it reads. *)
Lemma filterToFilesInPackage_from_preserves (todo i : nat) (keep : slice) (h : heap) :
  preserves h0 h -> fresh_slice h0 keep ->
  preserves h0
    (heap_of (filterToFilesInPackage_from spare fileToPkgName files pkgName
                todo i keep h))
  ∧ match filterToFilesInPackage_from spare fileToPkgName files pkgName
            todo i keep h with
    | Ret keep' _ => fresh_slice h0 keep'
    | Panic _ => True
    end.
Proof.
  revert i keep h. induction todo as [|todo IH]; intros i keep h Hpres Hfresh.
  - simpl. now split.
  - rewrite filterToFilesInPackage_from_S.
    pose proof (slice_index_heap files i h) as Hsame.
    destruct (slice_index files i h) as [f h1|h1]; simpl in Hsame; subst h1;
      [|simpl; now split].
    destruct (String.eqb (map_index fileToPkgName f) pkgName).
    + destruct (append_preserves h0 h keep f Hpres Hfresh) as [Hp Hf].
      destruct (append spare keep f h) as [keep' h'|h']; simpl in *.
      * now apply IH.
      * now split.
    + now apply IH.
Qed.

(** On a readable slice the loop returns, and what it keeps are the
    files of the package, in order. *)
Lemma filterToFilesInPackage_from_owns (fl : list string) (todo i : nat)
    (keep : slice) (kept : list string) (h : heap) :
  slice_elems h0 files = Some fl -> (i + todo)%nat = length fl ->
  preserves h0 h -> owns h0 h keep kept ->
  ∃ keep' h',
    filterToFilesInPackage_from spare fileToPkgName files pkgName todo i keep h
    = Ret keep' h'
    ∧ preserves h0 h' ∧ pkgs h' = pkgs h
    ∧ owns h0 h' keep'
        (kept ++ files_in_package fileToPkgName pkgName (drop i fl)).
Proof.
  intros Hfl. revert i keep kept h.
  induction todo as [|todo IH]; intros i keep kept h Hlen Hpres Hown.
  - simpl. exists keep, h. rewrite drop_ge by lia.
    unfold files_in_package. simpl. rewrite app_nil_r. auto.
  - destruct (lookup_lt_is_Some_2 fl i) as [f Hf]; [lia|].
    rewrite filterToFilesInPackage_from_S.
    rewrite (slice_index_elems h0 h files fl i f Hpres Hfl Hf).
    rewrite (drop_S _ _ _ Hf). unfold files_in_package.
    destruct (String.eqb_spec (map_index fileToPkgName f) pkgName) as [Heq|Hne].
    + rewrite filter_cons_True by exact Heq.
      destruct (append_owns h0 h keep kept f Hpres Hown)
        as (keep1 & h1 & -> & Hpres1 & Hpk1 & Hown1).
      destruct (IH (S i) keep1 (kept ++ [f]) h1)
        as (keep' & h' & Hrun & Hpres' & Hpk' & Hown');
        [lia | assumption | assumption |].
      exists keep', h'. rewrite Hrun. rewrite <- app_assoc in Hown'.
      split; [reflexivity|]. split; [assumption|].
      split; [congruence | exact Hown'].
    + rewrite filter_cons_False by exact Hne.
      apply IH; [lia | assumption | assumption].
Qed.

End Filter.

End HeapFacts.

(** ** The file-to-package map *)

Section FileToPkgName.

Lemma fileToPkgName_from_lookup (files : list string) :
  ∀ (i : nat) (packages : list string) (m0 mp : gmap string string),
    fileToPkgName_from i files packages m0 = Some mp ->
    ∀ f, mp !! f = match declared_unit files (drop i packages) f with
                   | Some p => Some p
                   | None => m0 !! f
                   end.
Proof.
  induction files as [|g files IH]; intros i packages m0 mp Hrun f; simpl in *.
  - now injection Hrun as <-.
  - destruct (packages !! i) as [p|] eqn:Hp; [|discriminate].
    rewrite (drop_S _ _ _ Hp). rewrite (IH _ _ _ _ Hrun f).
    destruct (declared_unit files (drop (S i) packages) f); [reflexivity|].
    destruct (String.eqb_spec g f) as [->|Hne].
    + apply lookup_insert_eq.
    + now apply lookup_insert_ne.
Qed.

Lemma fileToPkgName_from_is_Some (files : list string) :
  ∀ (i : nat) (packages : list string) (m0 : gmap string string),
    (i + length files <= length packages)%nat ->
    is_Some (fileToPkgName_from i files packages m0).
Proof.
  induction files as [|g files IH]; intros i packages m0 Hlen; simpl in *.
  - eauto.
  - destruct (lookup_lt_is_Some_2 packages i) as [p ->]; [lia|].
    apply IH. lia.
Qed.

Lemma declared_unit_None (files : list string) :
  ∀ (packages : list string) (f : string),
    (length files <= length packages)%nat ->
    declared_unit files packages f = None <-> f ∉ files.
Proof.
  induction files as [|g files IH]; intros packages f Hlen; simpl in *.
  - split; [intros _; apply not_elem_of_nil | reflexivity].
  - destruct packages as [|p packages]; simpl in Hlen; [lia|].
    rewrite not_elem_of_cons. specialize (IH packages f ltac:(lia)).
    destruct (declared_unit files packages f).
    + split; [discriminate|]. intros [_ Hnot]. now apply IH in Hnot.
    + destruct (String.eqb_spec g f) as [->|Hne].
      * split; [discriminate | intros [Hne _]; congruence].
      * split; [intros _; split; [congruence | now apply IH] | reflexivity].
Qed.

(** The map the loader builds gives each file the name the scan
    declares for it. *)
Lemma make_fileToPkgName_index (m : build.MultiplePackageError)
    (mp : gmap string string) :
  fileToPkgName_from 0 (build.Files m) (build.Packages m) ∅ = Some mp ->
  ∀ f, map_index mp f = scan_name m f.
Proof.
  intros Hrun f. unfold map_index, scan_name.
  rewrite (fileToPkgName_from_lookup _ _ _ _ _ Hrun f), drop_0.
  destruct (declared_unit (build.Files m) (build.Packages m) f); [reflexivity|].
  now rewrite lookup_empty.
Qed.

End FileToPkgName.

(** ** [buildPackageForNamedFileInMultiPackageDir] *)

Section BuildPackage.

Variable spare : nat -> nat -> nat.
Variable filepath_Dir : string -> string.

Local Abbreviation build :=
  (buildPackageForNamedFileInMultiPackageDir spare filepath_Dir).

Lemma deref_Some (h : heap) (l : loc) (p : packages.Package) :
  pkgs h !! l = Some p -> deref (Some l) h = Ret p h.
Proof. intros Hp. unfold deref. simpl. now rewrite Hp. Qed.

Lemma update_pkg_Some (h : heap) (l : loc) (p : packages.Package)
    (f : packages.Package -> packages.Package) :
  pkgs h !! l = Some p -> update_pkg l f h = Ret tt (set_pkgs (alter f l) h).
Proof. intros Hp. unfold update_pkg. now rewrite Hp. Qed.

(** The file has no name in the scan: the call returns the error, and
    has only added the copy to the heap. *)
Lemma buildPackage_no_name (h : heap) (l : loc) (p : packages.Package)
    (m : build.MultiplePackageError) (filename : string) :
  pkgs h !! l = Some p ->
  (length (build.Files m) <= length (build.Packages m))%nat ->
  scan_name m filename = "" ->
  build (Some l) m filename h
  = Ret (None,
         Some (Errorf "package %q in %s has no file %q"
                 [ArgQ (packages.PkgPath p); ArgS (filepath_Dir filename);
                  ArgQ filename]))
        (set_pkgs (insert (fresh (dom (pkgs h))) p) h).
Proof.
  intros Hp Hlen Hname.
  destruct (fileToPkgName_from_is_Some (build.Files m) 0 (build.Packages m) ∅)
    as [mp Hmp]; [simpl; lia|].
  unfold buildPackageForNamedFileInMultiPackageDir, bind, deref, new_pkg,
    make_fileToPkgName.
  simpl. rewrite Hp, Hmp.
  rewrite (make_fileToPkgName_index m mp Hmp), Hname. simpl.
  now rewrite lookup_insert_eq.
Qed.

(** The file has a name in the scan: the call returns a copy of the
    descriptor under that name, whose files are those of the
    descriptor that the scan puts under [nonXTestPkgName]. *)
Lemma buildPackage_named (h : heap) (l : loc) (p : packages.Package)
    (m : build.MultiplePackageError) (filename : string) (fl : list string) :
  pkgs h !! l = Some p ->
  (length (build.Files m) <= length (build.Packages m))%nat ->
  scan_name m filename ≠ "" ->
  slice_elems h (packages.GoFiles p) = Some fl ->
  ∃ l' keep h',
    build (Some l) m filename h = Ret (Some l', None) h'
    ∧ (l' ∉ dom (pkgs h))
    ∧ pkgs h' !! l'
      = Some {| packages.PkgPath := packages.PkgPath p;
                packages.Name := scan_name m filename;
                packages.GoFiles := keep;
                packages.Fset := packages.Fset p |}
    ∧ slice_elems h' keep
      = Some (filter (λ f, scan_name m f = nonXTestPkgName (scan_name m filename)) fl)
    ∧ preserves h h'.
Proof.
  intros Hp Hlen Hname Hfl.
  destruct (fileToPkgName_from_is_Some (build.Files m) 0 (build.Packages m) ∅)
    as [mp Hmp]; [simpl; lia|].
  pose proof (make_fileToPkgName_index m mp Hmp) as Hidx.
  set (l' := fresh (dom (pkgs h))).
  assert (l' ∉ dom (pkgs h)) as Hl' by apply is_fresh.
  set (h2 := set_pkgs (alter (packages.with_Name (scan_name m filename)) l')
               (set_pkgs (insert l' p) h)).
  assert (preserves h h2) as Hpres2.
  { apply preserves_alter_pkg; [|exact Hl'].
    apply preserves_insert_pkg; [apply preserves_refl | exact Hl']. }
  destruct (filterToFilesInPackage_from_owns spare mp (packages.GoFiles p)
              (nonXTestPkgName (scan_name m filename)) h2 fl
              (slice_len (packages.GoFiles p)) 0 nil_slice [] h2)
    as (keep & h3 & Hrun & Hpres3 & Hpk3 & Hown3).
  { exact Hfl. }
  { simpl. symmetry. eapply slice_elems_length; exact Hfl. }
  { apply preserves_refl. }
  { reflexivity. }
  exists l', keep, (set_pkgs (alter (packages.with_GoFiles keep) l') h3).
  assert (pkgs (set_pkgs (insert l' p) h) !! l' = Some p) as Hl1
    by (simpl; apply lookup_insert_eq).
  assert (pkgs h2 !! l' = Some (packages.with_Name (scan_name m filename) p)) as Hl2
    by (unfold h2; simpl; now rewrite lookup_alter_eq, lookup_insert_eq).
  assert (pkgs h3 !! l' = Some (packages.with_Name (scan_name m filename) p)) as Hl3
    by now rewrite Hpk3.
  split; [|split; [exact Hl'|split; [|split]]].
  - unfold buildPackageForNamedFileInMultiPackageDir.
    unfold bind at 1. rewrite (deref_Some h l p Hp).
    unfold bind at 1. unfold new_pkg. fold l'.
    unfold bind at 1. unfold make_fileToPkgName. rewrite Hmp, Hidx.
    destruct (String.eqb_spec (scan_name m filename) "") as [Heq|_];
      [contradiction|].
    unfold bind at 1. rewrite (update_pkg_Some _ l' p _ Hl1). fold h2.
    unfold bind at 1. rewrite (deref_Some h2 l' _ Hl2).
    unfold bind at 1. unfold filterToFilesInPackage.
    fold (nonXTestPkgName (scan_name m filename)).
    change (packages.GoFiles (packages.with_Name (scan_name m filename) p))
      with (packages.GoFiles p).
    rewrite Hrun.
    unfold bind at 1. now rewrite (update_pkg_Some h3 l' _ _ Hl3).
  - simpl. rewrite lookup_alter_eq, Hl3. reflexivity.
  - transitivity (slice_elems h3 keep); [now destruct keep|].
    rewrite (owns_elems _ _ _ _ Hown3). simpl. rewrite drop_0. f_equal.
    unfold files_in_package. apply list_filter_iff. intros f. now rewrite Hidx.
  - apply preserves_alter_pkg; [|exact Hl'].
    eapply preserves_trans; [exact Hpres2 | exact Hpres3].
Qed.

(** What [preserves] says of a descriptor and of its files. *)
Lemma preserves_descriptor (h h' : heap) (l : loc) (p : packages.Package)
    (fl : list string) :
  preserves h h' -> pkgs h !! l = Some p ->
  slice_elems h (packages.GoFiles p) = Some fl ->
  pkgs h' !! l = Some p ∧ slice_elems h' (packages.GoFiles p) = Some fl.
Proof.
  intros [Hpk Harr] Hp Hfl. split; [exact (lookup_weaken _ _ _ _ Hp Hpk)|].
  destruct (packages.GoFiles p) as [|a len cap]; simpl in *; [exact Hfl|].
  destruct (arrs h !! a) as [xs|] eqn:Ha; [|discriminate].
  now rewrite (lookup_weaken _ _ _ _ Ha Harr).
Qed.

(** C9. Disambiguation never changes what the caller passed in: every
    descriptor and every array of the heap before the call is still
    there, with the same contents, after it (also when the call
    panics). The descriptor it returns is a new cell, its copy, and
    the file list of that copy is [nil] or lies in an array allocated
    during the call. *)
Theorem disambiguation_does_not_mutate_its_input
    (bpkg : option loc) (m : build.MultiplePackageError) (filename : string)
    (h : heap) :
  preserves h (heap_of (build bpkg m filename h))
  ∧ match build bpkg m filename h with
    | Ret (Some l', _) h' =>
        (l' ∉ dom (pkgs h))
        ∧ (∃ p', pkgs h' !! l' = Some p' ∧ fresh_slice h (packages.GoFiles p'))
    | _ => True
    end.
Proof.
  pose (post := fun o : outcome heap (option loc * option error) =>
    preserves h (heap_of o)
    ∧ match o with
      | Ret (Some l', _) h' =>
          (l' ∉ dom (pkgs h))
          ∧ (∃ p', pkgs h' !! l' = Some p' ∧ fresh_slice h (packages.GoFiles p'))
      | _ => True
      end).
  assert (∀ h', preserves h h' -> post (Panic h')) as Hpanic
    by (intros h' Hh'; split; [exact Hh' | exact I]).
  change (post (build bpkg m filename h)).
  unfold buildPackageForNamedFileInMultiPackageDir.
  unfold bind at 1. unfold deref at 1.
  destruct (bpkg ≫= (λ l, pkgs h !! l)) as [p|];
    [|apply Hpanic, preserves_refl].
  unfold bind at 1. unfold new_pkg.
  set (l' := fresh (dom (pkgs h))).
  assert (l' ∉ dom (pkgs h)) as Hl' by apply is_fresh.
  set (h1 := set_pkgs (insert l' p) h).
  assert (preserves h h1) as Hpres1
    by (apply preserves_insert_pkg; [apply preserves_refl | exact Hl']).
  assert (pkgs h1 !! l' = Some p) as Hl1 by (simpl; apply lookup_insert_eq).
  unfold bind at 1. unfold make_fileToPkgName.
  destruct (fileToPkgName_from 0 (build.Files m) (build.Packages m) ∅) as [mp|];
    [|apply Hpanic, Hpres1].
  destruct (String.eqb (map_index mp filename) "").
  - unfold bind at 1. rewrite (deref_Some h1 l' p Hl1).
    split; [exact Hpres1 | exact I].
  - unfold bind at 1. rewrite (update_pkg_Some h1 l' p _ Hl1).
    set (h2 := set_pkgs (alter (packages.with_Name (map_index mp filename)) l') h1).
    assert (preserves h h2) as Hpres2
      by (apply preserves_alter_pkg; [exact Hpres1 | exact Hl']).
    assert (pkgs h2 !! l' = Some (packages.with_Name (map_index mp filename) p))
      as Hl2 by (unfold h2; simpl; now rewrite lookup_alter_eq, lookup_insert_eq).
    unfold bind at 1. rewrite (deref_Some h2 l' _ Hl2).
    unfold bind at 1. unfold filterToFilesInPackage.
    match goal with
    | |- context [filterToFilesInPackage_from spare mp ?fs ?n ?todo 0 nil_slice h2] =>
        destruct (filterToFilesInPackage_from_preserves spare mp fs n h todo 0
                    nil_slice h2 Hpres2 I) as [Hpres3 Hfresh3];
        destruct (filterToFilesInPackage_from spare mp fs n todo 0 nil_slice h2)
          as [keep h3|h3]
    end; simpl in Hpres3; [|apply Hpanic, Hpres3].
    unfold bind at 1. unfold update_pkg.
    destruct (pkgs h3 !! l') as [q|] eqn:Hq; [|apply Hpanic, Hpres3].
    split; [now apply preserves_alter_pkg|].
    split; [exact Hl'|]. exists (packages.with_GoFiles keep q).
    split; [|exact Hfresh3]. simpl. now rewrite lookup_alter_eq, Hq.
Qed.

End BuildPackage.

(** ** Which unit a file resolves to *)

Section Disambiguation.

Variable spare : nat -> nat -> nat.
Variable filepath_Dir : string -> string.

Local Abbreviation build :=
  (buildPackageForNamedFileInMultiPackageDir spare filepath_Dir).

Lemma scan_name_empty (m : build.MultiplePackageError) (filename : string) :
  (length (build.Files m) <= length (build.Packages m))%nat ->
  scan_name m filename = ""
  <-> filename ∉ build.Files m
      ∨ declared_unit (build.Files m) (build.Packages m) filename = Some "".
Proof.
  intros Hlen. unfold scan_name.
  pose proof (declared_unit_None (build.Files m) (build.Packages m) filename Hlen)
    as Hnone.
  destruct (declared_unit (build.Files m) (build.Packages m) filename) as [n|];
    simpl.
  - split.
    + intros ->. now right.
    + intros [Hnot | [= ->]]; [|reflexivity].
      apply Hnone in Hnot. discriminate.
  - split; [|reflexivity]. intros _. left. now apply Hnone.
Qed.

Lemma declared_unit_in_packages (files packages : list string) (f n : string) :
  declared_unit files packages f = Some n -> n ∈ packages.
Proof.
  revert packages. induction files as [|g files IH]; intros [|p packages];
    simpl; try discriminate.
  destruct (declared_unit files packages f) as [q|] eqn:Hq.
  - intros [= <-]. right. now apply IH.
  - destruct (String.eqb g f); [|discriminate]. intros [= <-]. left.
Qed.

(** The test is [pkgName == ""] on the value read from the map, which
    is the empty string for a file the scan does not list and for a
    file it lists under the empty name: the disambiguation fails in
    these two cases, and returns a unit of the file's name in every
    other. *)
Lemma disambiguation_fails_iff_no_name
    (h : heap) (l : loc) (p : packages.Package)
    (m : build.MultiplePackageError) (filename : string) (fl : list string)
    (Hp : pkgs h !! l = Some p)
    (Hlen : (length (build.Files m) <= length (build.Packages m))%nat)
    (Hfl : slice_elems h (packages.GoFiles p) = Some fl) :
  (fails (build (Some l) m filename h)
   <-> filename ∉ build.Files m
       ∨ declared_unit (build.Files m) (build.Packages m) filename = Some "")
  ∧ (∀ n, declared_unit (build.Files m) (build.Packages m) filename = Some n ->
          n ≠ "" ->
          returns_unit_named (build (Some l) m filename h) n).
Proof.
  assert (scan_name m filename ≠ "" ->
          returns_unit_named (build (Some l) m filename h) (scan_name m filename))
    as Hnamed.
  { intros Hname.
    destruct (buildPackage_named spare filepath_Dir h l p m filename fl
                Hp Hlen Hname Hfl) as (l' & keep & h' & Hrun & _ & Hl' & _).
    exists l', h'. eexists. split; [exact Hrun|]. split; [exact Hl' | reflexivity]. }
  split.
  - rewrite <- (scan_name_empty m filename Hlen). split.
    + intros (e & h' & Hrun).
      destruct (decide (scan_name m filename = "")) as [Heq|Hne]; [exact Heq|].
      destruct (Hnamed Hne) as (l' & h'' & p' & Hrun' & _).
      rewrite Hrun in Hrun'. discriminate.
    + intros Hname. eexists _, _.
      exact (buildPackage_no_name spare filepath_Dir h l p m filename Hp Hlen Hname).
  - intros n Hn Hne. unfold scan_name in Hnamed. rewrite Hn in Hnamed.
    now apply Hnamed.
Qed.

(** C7. Take a descriptor that is there, with a readable file list,
    and a scan that has a package name for every file it lists, none
    of them empty. The disambiguation fails, returning an error and
    no unit, exactly when the requested file is absent from the files
    of the scan; and when the file is among them, a unit of the name
    the scan gives for it is returned without error. *)
Theorem disambiguation_fails_iff_absent_on_named_scans
    (h : heap) (l : loc) (p : packages.Package)
    (m : build.MultiplePackageError) (filename : string) (fl : list string)
    (Hp : pkgs h !! l = Some p)
    (Hlen : (length (build.Files m) <= length (build.Packages m))%nat)
    (Hnamed : "" ∉ build.Packages m)
    (Hfl : slice_elems h (packages.GoFiles p) = Some fl) :
  (fails (build (Some l) m filename h) <-> filename ∉ build.Files m)
  ∧ (filename ∈ build.Files m ->
     ∃ n, declared_unit (build.Files m) (build.Packages m) filename = Some n
          ∧ returns_unit_named (build (Some l) m filename h) n).
Proof.
  destruct (disambiguation_fails_iff_no_name h l p m filename fl Hp Hlen Hfl)
    as [Hiff Hret].
  assert (∀ n, declared_unit (build.Files m) (build.Packages m) filename = Some n ->
               n ≠ "") as Hne.
  { intros n Hn ->. apply declared_unit_in_packages in Hn. contradiction. }
  split.
  - rewrite Hiff. split; [|now left].
    intros [Habsent|Hempty]; [exact Habsent|]. now apply Hne in Hempty.
  - intros Hin.
    destruct (declared_unit (build.Files m) (build.Packages m) filename) as [n|]
      eqn:Hn.
    + exists n. split; [reflexivity|]. apply Hret; [reflexivity|].
      now apply Hne.
    + apply (declared_unit_None _ _ _ Hlen) in Hn. contradiction.
Qed.

Lemma append_test_ne (base : string) : base ≠ base +:+ "_test".
Proof.
  intros Heq. apply (f_equal String.length) in Heq.
  rewrite length_append in Heq. simpl in Heq. lia.
Qed.

(** C1, as amended. When the scan puts the requested file under the
    name [base_test], the unit that is returned is called [base_test],
    and its file list is made of the files of the descriptor that the
    scan puts under [base], in their order: it has no file that the
    scan puts under [base_test]. *)
Theorem xtest_unit_keeps_base_files
    (h : heap) (l : loc) (p : packages.Package)
    (m : build.MultiplePackageError) (filename base : string) (fl : list string)
    (Hp : pkgs h !! l = Some p)
    (Hlen : (length (build.Files m) <= length (build.Packages m))%nat)
    (Hfl : slice_elems h (packages.GoFiles p) = Some fl)
    (Hname : scan_name m filename = base +:+ "_test") :
  returns_unit_named (build (Some l) m filename h) (base +:+ "_test")
  ∧ unit_files (build (Some l) m filename h)
    = Some (filter (λ f, scan_name m f = base) fl)
  ∧ (∀ f : string, scan_name m f = base +:+ "_test" ->
       f ∉ filter (λ f, scan_name m f = base) fl).
Proof.
  assert (scan_name m filename ≠ "") as Hne
    by (rewrite Hname; destruct base; discriminate).
  destruct (buildPackage_named spare filepath_Dir h l p m filename fl
              Hp Hlen Hne Hfl) as (l' & keep & h' & Hrun & _ & Hl' & Hkeep & _).
  assert (nonXTestPkgName (scan_name m filename) = base) as Hbase.
  { unfold nonXTestPkgName. rewrite Hname.
    assert (strings.HasSuffix (base +:+ "_test") "_test" = true) as ->
      by (apply HasSuffix_true_iff; eauto).
    apply TrimSuffix_app. }
  rewrite Hbase in Hkeep.
  assert (unit_files (build (Some l) m filename h)
          = Some (filter (λ f, scan_name m f = base) fl)) as Hfiles.
  { rewrite Hrun. simpl. rewrite Hl'. simpl. exact Hkeep. }
  split; [|split].
  - exists l', h'. eexists. split; [exact Hrun|]. split; [exact Hl'|].
    simpl. exact Hname.
  - exact Hfiles.
  - intros f Hf Hin. apply list_elem_of_filter in Hin as [Hin _].
    rewrite Hf in Hin. symmetry in Hin. now apply append_test_ne in Hin.
Qed.

End Disambiguation.

(** The theorem of C7 at the sample directory, for its external test. *)
Lemma disambiguation_fails_iff_absent_on_named_scans_witness :
  let o := buildPackageForNamedFileInMultiPackageDir Sample.spare Sample.filepath_Dir
             (Some 1%positive) Sample.scan "x_test.go" Sample.heap0 in
  (fails o <-> "x_test.go" ∉ build.Files Sample.scan)
  ∧ ("x_test.go" ∈ build.Files Sample.scan ->
     ∃ n, declared_unit (build.Files Sample.scan) (build.Packages Sample.scan)
            "x_test.go" = Some n
          ∧ returns_unit_named o n).
Proof.
  apply (disambiguation_fails_iff_absent_on_named_scans Sample.spare
           Sample.filepath_Dir Sample.heap0 1%positive Sample.descriptor Sample.scan
           "x_test.go" ["a.go"; "a_test.go"; "x_test.go"]).
  - reflexivity.
  - simpl. lia.
  - simpl. intros Hin.
    repeat (apply elem_of_cons in Hin as [Hin|Hin]; [discriminate|]).
    now apply elem_of_nil in Hin.
  - reflexivity.
Defined.

(** The empty name reads as no name: on a scan that lists a file under
    the empty name, the disambiguation fails for that file as it does
    for a file that is absent. *)
Lemma listed_file_with_empty_name_fails :
  ¬ (fails (buildPackageForNamedFileInMultiPackageDir Sample.spare
              Sample.filepath_Dir (Some 1%positive) Sample.scan_unnamed "a.go"
              Sample.heap0)
     <-> "a.go" ∉ build.Files Sample.scan_unnamed).
Proof.
  intros [Hfail _]. apply Hfail.
  - eexists _, _. vm_compute. reflexivity.
  - simpl. apply list_elem_of_here.
Qed.

(** The theorem of C1 at the sample directory, for its external test. *)
Lemma xtest_unit_keeps_base_files_witness :
  let o := buildPackageForNamedFileInMultiPackageDir Sample.spare Sample.filepath_Dir
             (Some 1%positive) Sample.scan "x_test.go" Sample.heap0 in
  returns_unit_named o ("pkg" +:+ "_test")
  ∧ unit_files o
    = Some (filter (λ f, scan_name Sample.scan f = "pkg")
              ["a.go"; "a_test.go"; "x_test.go"])
  ∧ (∀ f : string, scan_name Sample.scan f = "pkg" +:+ "_test" ->
       f ∉ filter (λ f, scan_name Sample.scan f = "pkg")
             ["a.go"; "a_test.go"; "x_test.go"]).
Proof.
  apply (xtest_unit_keeps_base_files Sample.spare Sample.filepath_Dir
           Sample.heap0 1%positive Sample.descriptor Sample.scan "x_test.go" "pkg"
           ["a.go"; "a_test.go"; "x_test.go"]).
  - reflexivity.
  - simpl. lia.
  - reflexivity.
  - reflexivity.
Defined.

(** C1 as it is stated fails: for the external test of the sample
    directory the unit's file list is [a.go; a_test.go], the files of
    package [pkg], and not the file of package [pkg_test]. *)
Lemma xtest_unit_has_files_of_base_package :
  let o := buildPackageForNamedFileInMultiPackageDir Sample.spare Sample.filepath_Dir
             (Some 1%positive) Sample.scan "x_test.go" Sample.heap0 in
  unit_files o = Some ["a.go"; "a_test.go"]
  ∧ ¬ (∃ fl', unit_files o = Some fl'
              ∧ (∀ f, f ∈ fl' -> scan_name Sample.scan f = "pkg_test")
              ∧ (∀ f, scan_name Sample.scan f = "pkg" -> f ∉ fl')).
Proof.
  assert (unit_files
            (buildPackageForNamedFileInMultiPackageDir Sample.spare
               Sample.filepath_Dir (Some 1%positive) Sample.scan "x_test.go"
               Sample.heap0)
          = Some ["a.go"; "a_test.go"]) as Hfiles by (vm_compute; reflexivity).
  split; [exact Hfiles|].
  intros (fl' & Hfl & Hall & _). rewrite Hfiles in Hfl. injection Hfl as <-.
  specialize (Hall "a.go" (list_elem_of_here _ _)). vm_compute in Hall. discriminate.
Qed.

(** The theorem of C9 at the sample directory: after the call the
    descriptor the caller passed in and its files are as before. *)
Lemma disambiguation_does_not_mutate_its_input_witness :
  let h' := heap_of (buildPackageForNamedFileInMultiPackageDir Sample.spare
                       Sample.filepath_Dir (Some 1%positive) Sample.scan "x_test.go"
                       Sample.heap0) in
  pkgs h' !! 1%positive = Some Sample.descriptor
  ∧ slice_elems h' (packages.GoFiles Sample.descriptor)
    = Some ["a.go"; "a_test.go"; "x_test.go"].
Proof.
  intros h'.
  apply (preserves_descriptor Sample.heap0 h' 1%positive Sample.descriptor).
  - apply (disambiguation_does_not_mutate_its_input Sample.spare Sample.filepath_Dir
             (Some 1%positive) Sample.scan "x_test.go" Sample.heap0).
  - reflexivity.
  - reflexivity.
Defined.

(** ** [typecheck] *)

Section TypecheckFacts.

Variable Program : Type.
Variable diagnostics : Type.
Variable nil_diagnostics : diagnostics.
Variable BuildContext : Type.
Variable JoinPath : BuildContext -> string -> string -> string.
Variable Load : Config BuildContext -> LoadResult Program.
Variable errsToDiagnostics :
  list error -> option Program -> diagnostics * option error.

(** The loop joins every file name from index [i] on with the
    directory, and leaves the ones before it. *)
Lemma joinPaths_from_map (bctx : BuildContext) (dir : string) (todo : nat) :
  ∀ (i : nat) (goFiles : list string),
    (i + todo)%nat = length goFiles ->
    joinPaths_from BuildContext JoinPath bctx dir todo i goFiles
    = take i goFiles ++ map (JoinPath bctx dir) (drop i goFiles).
Proof.
  induction todo as [|todo IH]; intros i goFiles Hlen; simpl.
  - rewrite drop_ge, take_ge by lia. now rewrite app_nil_r.
  - destruct (lookup_lt_is_Some_2 goFiles i) as [filename Hi]; [lia|].
    rewrite Hi. rewrite IH by (rewrite length_insert; lia).
    rewrite (take_S_r _ _ (JoinPath bctx dir filename))
      by (apply list_lookup_insert_eq; lia).
    rewrite take_insert_ge by lia.
    rewrite drop_insert_lt by lia.
    rewrite (drop_S _ _ _ Hi). simpl. now rewrite <- app_assoc.
Qed.

(** C3. The file list [typecheck] builds for a package is its
    [GoFiles], then its [TestGoFiles], then, if and only if [Name]
    ends in [_test], its [XTestGoFiles], each file name joined with the
    package's directory. *)
Theorem typecheck_file_list (bctx : BuildContext) (bpkg : build.Package) :
  typecheck_goFiles BuildContext JoinPath bctx bpkg
  = map (JoinPath bctx (build.Dir bpkg))
        (build.GoFiles bpkg ++ build.TestGoFiles bpkg
         ++ (if strings.HasSuffix (build.Name bpkg) "_test"
             then build.XTestGoFiles bpkg
             else []))
  ∧ (strings.HasSuffix (build.Name bpkg) "_test" = true
     <-> ∃ p, build.Name bpkg = p +:+ "_test").
Proof.
  split; [|apply HasSuffix_true_iff].
  unfold typecheck_goFiles. rewrite joinPaths_from_map by reflexivity.
  rewrite take_0, drop_0. simpl.
  destruct (strings.HasSuffix (build.Name bpkg) "_test").
  - now rewrite <- app_assoc.
  - now rewrite app_nil_r.
Qed.

Local Abbreviation typecheck' :=
  (typecheck Program diagnostics nil_diagnostics BuildContext JoinPath Load
             errsToDiagnostics).

(** With a conversion to diagnostics that never returns an error,
    [typecheck] fails only when the load produced no program. *)
Lemma typecheck_fails_only_without_program (ctx : Context) (bctx : BuildContext)
    (bpkg : build.Package) (findPackage : FindPackageFunc BuildContext)
    (tr : list event) :
  (∀ typeErrs prog, snd (errsToDiagnostics typeErrs prog) = None) ->
  let r := Load (typecheck_conf BuildContext JoinPath ctx bctx bpkg findPackage) in
  let res := snd (fst (typecheck' ctx bctx bpkg findPackage tr)) in
  (snd res ≠ None -> loaded_prog _ r = None)
  ∧ (∀ p, loaded_prog _ r = Some p ->
          res = (Some p, fst (errsToDiagnostics (reported _ r) (Some p)), None)).
Proof.
  intros Hnever r res. subst res. unfold typecheck. fold r. simpl.
  destruct (loaded_err _ r) as [e0|], (loaded_prog _ r) as [p0|];
    try (match goal with
         | |- context [errsToDiagnostics ?errs ?prog] =>
             pose proof (Hnever errs prog) as Hconv;
             destruct (errsToDiagnostics errs prog) as [diags e1] eqn:Hc;
             simpl in Hconv; subst e1
         end);
    simpl;
    (split; [intros Hne; try reflexivity; now destruct Hne
            | intros p Hp; simplify_eq; try rewrite Hc; reflexivity]).
Qed.

(** C4, as amended. [typecheck] returns an error, and then neither a
    program nor diagnostics, in two cases only: the load returned an
    error and no program, or the conversion of the reported errors to
    diagnostics returned an error. When the load produces a program
    and the conversion succeeds, [typecheck] returns that program, the
    diagnostics of the conversion and no error. *)
Theorem typecheck_terminal_errors (ctx : Context) (bctx : BuildContext)
    (bpkg : build.Package) (findPackage : FindPackageFunc BuildContext)
    (tr : list event) :
  let r := Load (typecheck_conf BuildContext JoinPath ctx bctx bpkg findPackage) in
  let converted := errsToDiagnostics (reported _ r) (loaded_prog _ r) in
  let res := snd (fst (typecheck' ctx bctx bpkg findPackage tr)) in
  (∀ e, snd res = Some e ->
        res = (None, nil_diagnostics, Some e)
        ∧ ((loaded_prog _ r = None ∧ loaded_err _ r = Some e)
           ∨ snd converted = Some e))
  ∧ (∀ p, loaded_prog _ r = Some p -> snd converted = None ->
          res = (Some p, fst converted, None)).
Proof.
  intros r converted res. subst res converted. unfold typecheck. fold r. simpl.
  destruct (loaded_err _ r) as [e0|], (loaded_prog _ r) as [p0|];
    destruct (errsToDiagnostics (reported _ r) _) as [diags [e1|]]; simpl;
    split; intros; simplify_eq; auto.
Qed.

(** [typecheck] loads one program, and does nothing else that shows
    in the events. *)
Lemma typecheck_events (ctx : Context) (bctx : BuildContext)
    (bpkg : build.Package) (findPackage : FindPackageFunc BuildContext)
    (tr : list event) :
  snd (typecheck' ctx bctx bpkg findPackage tr)
  = tr ++ [EvLoad (build.ImportPath bpkg)
             (typecheck_goFiles BuildContext JoinPath bctx bpkg)].
Proof.
  unfold typecheck.
  destruct (loaded_err _ _) as [e0|], (loaded_prog _ _) as [p0|];
    try destruct (errsToDiagnostics _ _) as [diags [e1|]]; reflexivity.
Qed.

End TypecheckFacts.

(** The theorem of C4 at the sample analysis: the load produces a
    program, the conversion succeeds, and [typecheck] returns the
    program and the diagnostic. *)
Lemma typecheck_terminal_errors_witness :
  snd (fst (typecheck SampleAnalysis.Program SampleAnalysis.diagnostics
              SampleAnalysis.nil_diagnostics SampleAnalysis.BuildContext
              SampleAnalysis.JoinPath SampleAnalysis.Load
              SampleAnalysis.errsToDiagnostics SampleAnalysis.ctx tt
              SampleAnalysis.pkg SampleAnalysis.findPackage []))
  = (Some ["/src/pkg/a.go"; "/src/pkg/a_test.go"],
     ["a.go:1:1: undeclared name: x"], None).
Proof.
  apply (typecheck_terminal_errors SampleAnalysis.Program SampleAnalysis.diagnostics
           SampleAnalysis.nil_diagnostics SampleAnalysis.BuildContext
           SampleAnalysis.JoinPath SampleAnalysis.Load
           SampleAnalysis.errsToDiagnostics SampleAnalysis.ctx tt
           SampleAnalysis.pkg SampleAnalysis.findPackage []).
  - reflexivity.
  - reflexivity.
Defined.

(** C4 as it is stated fails: with a conversion that gives up, the load
    produces a program and [typecheck] still returns an error, and no
    program. *)
Lemma typecheck_fails_with_a_program :
  let r := SampleAnalysis.Load
             (typecheck_conf SampleAnalysis.BuildContext SampleAnalysis.JoinPath
                SampleAnalysis.ctx tt SampleAnalysis.pkg SampleAnalysis.findPackage) in
  let res := snd (fst (typecheck SampleAnalysis.Program SampleAnalysis.diagnostics
                         SampleAnalysis.nil_diagnostics SampleAnalysis.BuildContext
                         SampleAnalysis.JoinPath SampleAnalysis.Load
                         SampleAnalysis.errsToDiagnostics_strict SampleAnalysis.ctx tt
                         SampleAnalysis.pkg SampleAnalysis.findPackage [])) in
  ¬ ((snd res ≠ None -> loaded_prog _ r = None)
     ∧ (∀ p, loaded_prog _ r = Some p -> fst (fst res) = Some p ∧ snd res = None)).
Proof.
  intros r res [Honly _]. assert (snd res ≠ None) as Herr by (vm_compute; discriminate).
  apply Honly in Herr. vm_compute in Herr. discriminate.
Qed.

(** The theorem of C3 at the sample package, which is not an external
    test: its file list has no external test file. *)
Lemma typecheck_file_list_witness :
  typecheck_goFiles SampleAnalysis.BuildContext SampleAnalysis.JoinPath tt
    SampleAnalysis.pkg
  = ["/src/pkg/a.go"; "/src/pkg/a_test.go"].
Proof.
  rewrite (proj1 (typecheck_file_list SampleAnalysis.BuildContext
                    SampleAnalysis.JoinPath tt SampleAnalysis.pkg)).
  reflexivity.
Defined.

(** ** [cachedTypecheck] *)

Section CachedTypecheckFacts.

Variable Program : Type.
Variable diagnostics : Type.
Variable nil_diagnostics : diagnostics.
Variable BuildContext : Type.
Variable JoinPath : BuildContext -> string -> string -> string.
Variable Load : Config BuildContext -> LoadResult Program.
Variable errsToDiagnostics :
  list error -> option Program -> diagnostics * option error.
Variable C : Type.
Variable Get : forall S : Type,
    typecheckKey -> (S -> option (typecheckResult Program) * S) -> C * S
    -> option (typecheckResult Program) * (C * S).
Variable getFindPackageFunc : FindPackageFunc BuildContext.

Local Abbreviation cachedTypecheck' :=
  (cachedTypecheck Program diagnostics nil_diagnostics BuildContext JoinPath Load
     errsToDiagnostics C Get getFindPackageFunc).

Local Abbreviation fill' :=
  (cachedTypecheck_fill Program diagnostics nil_diagnostics BuildContext JoinPath
     Load errsToDiagnostics getFindPackageFunc).

(** What a call does around [Get], whatever [Get] returns. *)
Lemma cachedTypecheck_around_Get (ctx : Context) (bctx : BuildContext)
    (bpkg : build.Package) (c : C) (tr : list event) (parentSpan : Span) :
  SpanFromContext ctx = Some parentSpan ->
  cachedTypecheck' ctx bctx bpkg (c, tr)
  = let '(r, (c', (tr', diags))) :=
      Get _ (key_of bpkg) (fill' (ContextWithSpan ctx (length tr)) bctx bpkg)
          (c, (span_started parentSpan bpkg tr, nil_diagnostics)) in
    match r with
    | None => Ret (None, None, diags, None) (c', Finish (length tr) tr')
    | Some res =>
        Ret (Some (fset _ res), prog _ res, diags, err _ res)
            (c', Finish (length tr) tr')
    end.
Proof. intros Hspan. unfold cachedTypecheck. now rewrite Hspan. Qed.

(** C10. When the cache's [Get] returns [nil], [cachedTypecheck]
    returns a [nil] file set, a [nil] program and a [nil] error: the
    caller gets no analysis result and no error. *)
Theorem cachedTypecheck_nil_from_cache (ctx : Context) (bctx : BuildContext)
    (bpkg : build.Package) (c c' : C) (tr tr' : list event)
    (parentSpan : Span) (diags : diagnostics)
    (Hspan : SpanFromContext ctx = Some parentSpan)
    (Hget : Get _ (key_of bpkg)
                (fill' (ContextWithSpan ctx (length tr)) bctx bpkg)
                (c, (span_started parentSpan bpkg tr, nil_diagnostics))
            = (None, (c', (tr', diags)))) :
  cachedTypecheck' ctx bctx bpkg (c, tr)
  = Ret (None, None, diags, None) (c', Finish (length tr) tr').
Proof. rewrite (cachedTypecheck_around_Get _ _ _ _ _ _ Hspan). now rewrite Hget. Qed.

(** C8, as amended. Every call of [cachedTypecheck] starts a span named
    for the typecheck, tagged with the package's import path and
    parented to the caller's span, before it consults the cache: [Get]
    runs with that span started, whether it then hits or misses, and
    the span is finished when the call returns. *)
Theorem cachedTypecheck_span_on_every_call (ctx : Context) (bctx : BuildContext)
    (bpkg : build.Package) (c : C) (tr : list event) (parentSpan : Span)
    (Hspan : SpanFromContext ctx = Some parentSpan) :
  let got :=
    Get _ (key_of bpkg) (fill' (ContextWithSpan ctx (length tr)) bctx bpkg)
        (c, (tr ++ [EvStartSpan "langserver-go: typecheck"
                      [("pkg", build.ImportPath bpkg)] parentSpan (length tr)],
             nil_diagnostics)) in
  ∃ res, cachedTypecheck' ctx bctx bpkg (c, tr)
         = Ret res (fst (snd got), fst (snd (snd got)) ++ [EvFinish (length tr)]).
Proof.
  intros got. rewrite (cachedTypecheck_around_Get _ _ _ _ _ _ Hspan).
  unfold span_started. fold got.
  destruct got as [[res|] [c' [tr' diags]]]; simpl; eauto.
Qed.

End CachedTypecheckFacts.

Section CachedTypecheckWithCache.

Variable Program : Type.
Variable diagnostics : Type.
Variable nil_diagnostics : diagnostics.
Variable BuildContext : Type.
Variable JoinPath : BuildContext -> string -> string -> string.
Variable Load : Config BuildContext -> LoadResult Program.
Variable errsToDiagnostics :
  list error -> option Program -> diagnostics * option error.
Variable getFindPackageFunc : FindPackageFunc BuildContext.

(** Over the cache of the spec: a call that hits starts and finishes
    its span and loads nothing; a call that misses loads the program
    inside its span. *)
Lemma cachedTypecheck_events_with_cache (ctx : Context) (bctx : BuildContext)
    (bpkg : build.Package)
    (c : gmap typecheckKey (option (typecheckResult Program)))
    (tr : list event) (parentSpan : Span) :
  SpanFromContext ctx = Some parentSpan ->
  ∃ res c',
    cachedTypecheck Program diagnostics nil_diagnostics BuildContext JoinPath Load
      errsToDiagnostics _ typecheckCache_Get getFindPackageFunc
      ctx bctx bpkg (c, tr)
    = Ret res
        (c', span_started parentSpan bpkg tr
             ++ match c !! key_of bpkg with
                | Some _ => []
                | None => [EvLoad (build.ImportPath bpkg)
                             (typecheck_goFiles BuildContext JoinPath bctx bpkg)]
                end
             ++ [EvFinish (length tr)]).
Proof.
  intros Hspan. rewrite (cachedTypecheck_around_Get _ _ _ _ _ _ _ _ _ _ _ _ _ _ _ _ Hspan).
  unfold typecheckCache_Get, Cache.Get. simpl.
  destruct (c !! key_of bpkg) as [[res|]|]; simpl.
  - eexists _, _. reflexivity.
  - eexists _, _. reflexivity.
  - pose proof (typecheck_events Program diagnostics nil_diagnostics BuildContext
                  JoinPath Load errsToDiagnostics
                  (ContextWithSpan ctx (length tr)) bctx bpkg getFindPackageFunc
                  (span_started parentSpan bpkg tr)) as Hev.
    destruct (typecheck _ _ _ _ _ _ _ _ _ _ _ _) as [[fs [[pg dg] er]] tr'].
    simpl in Hev. subst tr'. simpl.
    eexists _, _. unfold Finish. rewrite <- ?app_assoc. reflexivity.
Qed.

End CachedTypecheckWithCache.

(** The theorem of C10 at the sample analysis, with a cache that holds
    [nil] for the package. *)
Lemma cachedTypecheck_nil_from_cache_witness :
  SampleCalls.cachedTypecheck SampleAnalysis.ctx tt SampleAnalysis.pkg
    (SampleCalls.cache_with_nil, [])
  = Ret (None, None, SampleAnalysis.nil_diagnostics, None)
        (SampleCalls.cache_with_nil,
         [EvStartSpan "langserver-go: typecheck" [("pkg", "example.com/pkg")] 0%nat 0%nat;
          EvFinish 0%nat]).
Proof.
  apply (cachedTypecheck_nil_from_cache SampleAnalysis.Program
           SampleAnalysis.diagnostics SampleAnalysis.nil_diagnostics
           SampleAnalysis.BuildContext SampleAnalysis.JoinPath SampleAnalysis.Load
           SampleAnalysis.errsToDiagnostics _ typecheckCache_Get
           SampleAnalysis.findPackage SampleAnalysis.ctx tt SampleAnalysis.pkg
           SampleCalls.cache_with_nil SampleCalls.cache_with_nil []
           [EvStartSpan "langserver-go: typecheck" [("pkg", "example.com/pkg")]
              0%nat 0%nat]
           0%nat SampleAnalysis.nil_diagnostics).
  - reflexivity.
  - reflexivity.
Defined.

(** The theorem of C8 at the sample analysis, for a call that hits: the
    span is started and finished, and nothing is loaded. *)
Lemma cachedTypecheck_span_on_every_call_witness :
  ∃ res,
    SampleCalls.cachedTypecheck SampleAnalysis.ctx tt SampleAnalysis.pkg
      (SampleCalls.cache_with_nil, [])
    = Ret res
          (SampleCalls.cache_with_nil,
           [EvStartSpan "langserver-go: typecheck" [("pkg", "example.com/pkg")] 0%nat 0%nat;
            EvFinish 0%nat]).
Proof.
  apply (cachedTypecheck_span_on_every_call SampleAnalysis.Program
           SampleAnalysis.diagnostics SampleAnalysis.nil_diagnostics
           SampleAnalysis.BuildContext SampleAnalysis.JoinPath SampleAnalysis.Load
           SampleAnalysis.errsToDiagnostics _ typecheckCache_Get
           SampleAnalysis.findPackage SampleAnalysis.ctx tt SampleAnalysis.pkg
           SampleCalls.cache_with_nil [] 0%nat).
  reflexivity.
Defined.

(** C8 as it is stated fails: of two calls for the sample package, the
    first misses and the second hits; the program is loaded once, and
    two spans are started. *)
Lemma span_started_on_cache_hit :
  SampleCalls.events_after_two_calls
  = [EvStartSpan "langserver-go: typecheck" [("pkg", "example.com/pkg")] 0%nat 0%nat;
     EvLoad "example.com/pkg" ["/src/pkg/a.go"; "/src/pkg/a_test.go"];
     EvFinish 0%nat;
     EvStartSpan "langserver-go: typecheck" [("pkg", "example.com/pkg")] 0%nat 3%nat;
     EvFinish 3%nat]
  ∧ spans_started "langserver-go: typecheck" SampleCalls.events_after_two_calls
    ≠ programs_loaded SampleCalls.events_after_two_calls.
Proof.
  assert (SampleCalls.events_after_two_calls
          = [EvStartSpan "langserver-go: typecheck" [("pkg", "example.com/pkg")] 0%nat 0%nat;
             EvLoad "example.com/pkg" ["/src/pkg/a.go"; "/src/pkg/a_test.go"];
             EvFinish 0%nat;
             EvStartSpan "langserver-go: typecheck" [("pkg", "example.com/pkg")] 0%nat 3%nat;
             EvFinish 3%nat]) as Hev by (vm_compute; reflexivity).
  split; [exact Hev|]. rewrite Hev. vm_compute. discriminate.
Qed.

(** ** [posForFileOffset] *)

Section PosForFileOffsetFacts.

Variable PathEqual : string -> string -> bool.
Variable File_Pos : token.File -> Z -> token.Pos.

(** The iteration stops at the first file of the requested name. *)
Lemma posForFileOffset_first (fset : token.FileSet) (filename : string) (offset : Z) :
  posForFileOffset PathEqual File_Pos fset filename offset
  = match List.find (λ ff, PathEqual (token.Name ff) filename) fset with
    | Some f => File_Pos f offset
    | None => token.NoPos
    end.
Proof.
  unfold posForFileOffset. f_equal.
  induction fset as [|ff rest IH]; simpl; [reflexivity|].
  destruct (PathEqual (token.Name ff) filename); [reflexivity | exact IH].
Qed.

Lemma find_none_of (fset : token.FileSet) (filename : string) :
  Forall (λ ff, PathEqual (token.Name ff) filename = false) fset ->
  List.find (λ ff, PathEqual (token.Name ff) filename) fset = None.
Proof.
  induction 1 as [|ff rest Hff _ IH]; simpl; [reflexivity|]. now rewrite Hff.
Qed.

Lemma find_first_of (pre post : token.FileSet) (f : token.File) (filename : string) :
  Forall (λ ff, PathEqual (token.Name ff) filename = false) pre ->
  PathEqual (token.Name f) filename = true ->
  List.find (λ ff, PathEqual (token.Name ff) filename) (pre ++ f :: post) = Some f.
Proof.
  intros Hpre Hf. induction Hpre as [|ff rest Hff _ IH]; simpl.
  - now rewrite Hf.
  - now rewrite Hff.
Qed.

End PosForFileOffsetFacts.

(** ** The position resolver *)

Module PositionFacts.
Import Position.

(** A position out of bounds is not valid, and there is a reason. *)
Lemma out_of_bounds_invalid (contents : list Byte.byte) (p : lsp.Position) :
  out_of_bounds contents p ->
  ∃ why, why ≠ "" ∧ offsetForPosition contents p = (0, false, why).
Proof.
  unfold out_of_bounds, offsetForPosition. intros Hout.
  destruct (lsp.Line p <? 0) eqn:Hneg.
  { exists "line out of range". split; [discriminate | reflexivity]. }
  apply Z.ltb_ge in Hneg.
  destruct Hout as [Hline | [Hline | (l & Hl & Hcol)]].
  - lia.
  - rewrite (lookup_ge_None_2 _ _ Hline).
    exists "line out of range". split; [discriminate | reflexivity].
  - rewrite Hl.
    assert ((lsp.Character p <? 0) = false) as -> by (apply Z.ltb_ge; lia).
    assert ((Z.of_nat (length l) <? lsp.Character p) = true) as ->
      by (apply Z.ltb_lt; lia).
    exists "column beyond line end". split; [discriminate | reflexivity].
Qed.

(** A position within bounds is valid. *)
Lemma within_bounds_valid (contents : list Byte.byte) (p : lsp.Position)
    (l : list Byte.byte) :
  0 <= lsp.Line p ->
  lines contents !! Z.to_nat (lsp.Line p) = Some l ->
  0 <= lsp.Character p <= Z.of_nat (length l) ->
  snd (fst (offsetForPosition contents p)) = true.
Proof.
  intros Hline Hl [Hlo Hhi]. unfold offsetForPosition.
  assert ((lsp.Line p <? 0) = false) as -> by (apply Z.ltb_ge; lia).
  rewrite Hl.
  assert ((lsp.Character p <? 0) = false) as -> by (apply Z.ltb_ge; lia).
  assert ((Z.of_nat (length l) <? lsp.Character p) = false) as ->
    by (apply Z.ltb_ge; lia).
  reflexivity.
Qed.

End PositionFacts.

(** ** [loadPackage] *)

Section LoadPackageFacts.

Variable spare : nat -> nat -> nat.
Variable filepath_Dir : string -> string.
Variable PathEqual : string -> string -> bool.
Variable File_Pos : token.File -> Z -> token.Pos.
Variable path_Dir : string -> string.
Variable path_Base : string -> string.
Variable IsURI : lsp.DocumentURI -> bool.
Variable FilePath : lsp.DocumentURI -> string.
Variable IsDir : string -> bool.
Variable packageCache_Load : string -> heap -> outcome heap (option loc * option error).
Variable readFile : lsp.DocumentURI -> list Byte.byte * option error.

Local Abbreviation resolve :=
  (loadPackage_resolve spare filepath_Dir path_Dir path_Base IsDir packageCache_Load).

Local Abbreviation loadPackage' :=
  (loadPackage spare filepath_Dir PathEqual File_Pos path_Dir path_Base IsURI
     FilePath IsDir packageCache_Load readFile).

(** A request that is in the workspace, whose package resolves and
    whose file can be read, gets as far as its position. *)
Lemma loadPackage_at_position
    (offsetForPosition : list Byte.byte -> lsp.Position -> Z * bool * string)
    (ctx : Context) (fileURI : lsp.DocumentURI) (position : lsp.Position)
    (h h1 : heap) (tr : list event) (parentSpan : Span) (pkg : option loc)
    (contents : list Byte.byte) :
  SpanFromContext ctx = Some parentSpan ->
  IsURI fileURI = true ->
  resolve (FilePath fileURI) h = Ret (pkg, None) h1 ->
  readFile fileURI = (contents, None) ->
  let filename := FilePath fileURI in
  loadPackage' offsetForPosition ctx fileURI position (h, tr)
  = let '(offset, valid, why) := offsetForPosition contents position in
    if negb valid then
      Ret (None, token.NoPos,
           Some (Errorf "invalid position: %s:%d:%d (%s)"
                   [ArgS filename; ArgD (lsp.Line position);
                    ArgD (lsp.Character position); ArgS why]))
          (h1, load_events parentSpan fileURI tr)
    else
      match pkg ≫= (λ l, pkgs h1 !! l) with
      | None => Panic (h1, load_events parentSpan fileURI tr)
      | Some p =>
          let start := posForFileOffset PathEqual File_Pos (packages.Fset p)
                         filename offset in
          if Z.eqb start token.NoPos then
            Ret (None, start,
                 Some (Errorf "invalid location: %s:#%d"
                         [ArgS filename; ArgD offset]))
                (h1, load_events parentSpan fileURI tr)
          else Ret (pkg, start, None) (h1, load_events parentSpan fileURI tr)
      end.
Proof.
  intros Hspan Huri Hres Hread filename.
  unfold loadPackage, defer_Finish, StartSpan, Finish, load_events.
  rewrite Hspan, Huri. simpl. unfold bind at 1. unfold on_heap at 1.
  rewrite Hres, Hread.
  destruct (offsetForPosition contents position) as [[offset valid] why].
  destruct valid; simpl.
  - unfold bind, on_heap, deref.
    destruct (pkg ≫= (λ l, pkgs h1 !! l)) as [p|]; simpl.
    + fold filename.
      destruct (posForFileOffset PathEqual File_Pos (packages.Fset p) filename offset
                =? token.NoPos); now rewrite <- app_assoc.
    + now rewrite <- app_assoc.
  - now rewrite <- app_assoc.
Qed.

(** C6. Take a request that is in the workspace, whose package
    resolves and whose file can be read, and whose position has a
    byte offset. When no file of the package's file set path-equals
    the file name, [posForFileOffset] returns [NoPos] and
    [loadPackage] fails with the invalid-location error that names the
    file and the offset. When some file does, [posForFileOffset]
    returns the position of the offset in the first such file. *)
Theorem unregistered_file_is_an_invalid_location
    (offsetForPosition : list Byte.byte -> lsp.Position -> Z * bool * string)
    (ctx : Context) (fileURI : lsp.DocumentURI) (position : lsp.Position)
    (h h1 : heap) (tr : list event) (parentSpan : Span) (pkg : option loc)
    (p : packages.Package) (contents : list Byte.byte) (offset : Z) (why : string)
    (Hspan : SpanFromContext ctx = Some parentSpan)
    (Huri : IsURI fileURI = true)
    (Hres : resolve (FilePath fileURI) h = Ret (pkg, None) h1)
    (Hpkg : pkg ≫= (λ l, pkgs h1 !! l) = Some p)
    (Hread : readFile fileURI = (contents, None))
    (Hoff : offsetForPosition contents position = (offset, true, why)) :
  let filename := FilePath fileURI in
  let fset := packages.Fset p in
  (Forall (λ ff, PathEqual (token.Name ff) filename = false) fset ->
   posForFileOffset PathEqual File_Pos fset filename offset = token.NoPos
   ∧ loadPackage' offsetForPosition ctx fileURI position (h, tr)
     = Ret (None, token.NoPos,
            Some (Errorf "invalid location: %s:#%d" [ArgS filename; ArgD offset]))
           (h1, load_events parentSpan fileURI tr))
  ∧ (∀ pre f post,
       fset = pre ++ f :: post ->
       Forall (λ ff, PathEqual (token.Name ff) filename = false) pre ->
       PathEqual (token.Name f) filename = true ->
       posForFileOffset PathEqual File_Pos fset filename offset = File_Pos f offset).
Proof.
  intros filename fset. split.
  - intros Hnone.
    assert (posForFileOffset PathEqual File_Pos fset filename offset = token.NoPos)
      as Hpos by (rewrite posForFileOffset_first; now rewrite find_none_of).
    split; [exact Hpos|].
    rewrite (loadPackage_at_position offsetForPosition ctx fileURI position h h1 tr
               parentSpan pkg contents Hspan Huri Hres Hread).
    rewrite Hoff, Hpkg. simpl. fold filename fset. now rewrite Hpos.
  - intros pre f post Hsplit Hpre Hf.
    rewrite posForFileOffset_first, Hsplit. now rewrite (find_first_of _ pre post f).
Qed.

End LoadPackageFacts.

(** The theorem of C6 at the sample request, for a package whose file
    set does not have the file. *)
Lemma unregistered_file_is_an_invalid_location_witness :
  let filename := "/src/pkg/a.go" in
  let fset := packages.Fset SampleRequest.descriptor_without_file in
  (Forall (λ ff, SampleRequest.PathEqual (token.Name ff) filename = false) fset ->
   posForFileOffset SampleRequest.PathEqual SampleRequest.File_Pos fset filename 4
   = token.NoPos
   ∧ SampleRequest.loadPackage 2%positive Position.offsetForPosition
       SampleRequest.ctx "file:///src/pkg/a.go" {| lsp.Line := 1; lsp.Character := 1 |}
       (SampleRequest.heap0, [])
     = Ret (None, token.NoPos,
            Some (Errorf "invalid location: %s:#%d" [ArgS filename; ArgD 4]))
           (SampleRequest.heap0, load_events 0%nat "file:///src/pkg/a.go" []))
  ∧ (∀ pre f post,
       fset = pre ++ f :: post ->
       Forall (λ ff, SampleRequest.PathEqual (token.Name ff) filename = false) pre ->
       SampleRequest.PathEqual (token.Name f) filename = true ->
       posForFileOffset SampleRequest.PathEqual SampleRequest.File_Pos fset filename 4
       = SampleRequest.File_Pos f 4).
Proof.
  apply (unregistered_file_is_an_invalid_location Sample.spare Sample.filepath_Dir
           SampleRequest.PathEqual SampleRequest.File_Pos SampleRequest.path_Dir
           SampleRequest.path_Base SampleRequest.IsURI SampleRequest.FilePath
           SampleRequest.IsDir (SampleRequest.packageCache_Load 2%positive)
           SampleRequest.readFile Position.offsetForPosition
           SampleRequest.ctx "file:///src/pkg/a.go"
           {| lsp.Line := 1; lsp.Character := 1 |}
           SampleRequest.heap0 SampleRequest.heap0 [] 0%nat (Some 2%positive)
           SampleRequest.descriptor_without_file SampleRequest.contents 4 "").
  - reflexivity.
  - reflexivity.
  - reflexivity.
  - reflexivity.
  - reflexivity.
  - reflexivity.
Defined.

(** On the sample request a position within the file resolves to the
    position of its offset in the registered file. *)
Example loadPackage_sample :
  SampleRequest.loadPackage 1%positive Position.offsetForPosition
    SampleRequest.ctx "file:///src/pkg/a.go" {| lsp.Line := 1; lsp.Character := 1 |}
    (SampleRequest.heap0, [])
  = Ret (Some 1%positive, 5, None)
        (SampleRequest.heap0, load_events 0%nat "file:///src/pkg/a.go" []).
Proof. reflexivity. Qed.

(** ** The cache *)

Section CacheFacts.

Context {K : Type} `{Countable K} {V W : Type}.

Implicit Types (st : Cache.state K V W).

(** A miss runs [computeFn] once, on the state of the call, and
    stores what it returned. *)
Lemma Get_miss {S : Type} (c : gmap K V) (k : K) (computeFn : S -> V * S) (s : S) :
  c !! k = None ->
  Cache.Get c k computeFn s
  = (fst (computeFn s), <[k:=fst (computeFn s)]> c, snd (computeFn s)).
Proof. intros Hk. unfold Cache.Get. rewrite Hk. now destruct (computeFn s). Qed.

(** A hit returns the stored value, whatever [computeFn] is, and
    leaves the state alone. *)
Lemma Get_hit {S : Type} (c : gmap K V) (k : K) (computeFn : S -> V * S) (s : S)
    (v : V) :
  c !! k = Some v -> Cache.Get c k computeFn s = (v, c, s).
Proof. intros Hk. unfold Cache.Get. now rewrite Hk. Qed.

Lemma run_app (s1 s2 : list nat) st :
  Cache.run (s1 ++ s2) st = Cache.run s2 (Cache.run s1 st).
Proof. revert st. induction s1 as [|i s1 IH]; intros st; simpl; [reflexivity | apply IH]. Qed.

Lemma runs_of_snoc (k k' : K) st (sl : gmap K (Cache.slot V)) (w : W)
    (cs : list (Cache.caller K V W)) :
  Cache.runs_of k {| Cache.slots := sl; Cache.world := w;
                     Cache.invoked := Cache.invoked st ++ [k'];
                     Cache.callers := cs |}
  = (Cache.runs_of k st + if decide (k' = k) then 1 else 0)%nat.
Proof.
  unfold Cache.runs_of. simpl. rewrite filter_app, length_app. f_equal.
  rewrite filter_cons. destruct (decide (k' = k)); reflexivity.
Qed.

Lemma inv_init (c0 : gmap K V) (w : W) (cs : list (K * (W -> V * W))) :
  cache_inv c0 (Cache.init c0 w cs).
Proof.
  assert (∀ i c, Cache.callers (Cache.init c0 w cs) !! i = Some c ->
                 ∃ k f, c = Cache.Calling k f) as Hcalling.
  { intros i c Hi. simpl in Hi. rewrite list_lookup_fmap in Hi.
    destruct (cs !! i) as [[k f]|]; simpl in Hi; [|discriminate].
    injection Hi as <-. eauto. }
  split.
  - intros k v Hk. simpl. now rewrite lookup_fmap, Hk.
  - intros i k f Hi. apply Hcalling in Hi as (? & ? & ?). discriminate.
  - intros i j k f f' Hi. apply Hcalling in Hi as (? & ? & ?). discriminate.
  - intros i k v Hi. apply Hcalling in Hi as (? & ? & ?). discriminate.
  - intros i k Hi. apply Hcalling in Hi as (? & ? & ?). discriminate.
  - intros k Hk. simpl in Hk. rewrite lookup_fmap in Hk.
    destruct (c0 !! k); discriminate.
  - intros k. unfold Cache.runs_of. simpl. rewrite lookup_fmap.
    destruct (c0 !! k); reflexivity.
Qed.

Lemma inv_not_stored (c0 : gmap K V) st (k : K) :
  cache_inv c0 st ->
  Cache.slots st !! k = None ∨ Cache.slots st !! k = Some Cache.Pending ->
  c0 !! k = None.
Proof.
  intros Hinv Hk. destruct (c0 !! k) as [v|] eqn:Hc; [|reflexivity].
  apply (inv_stored _ _ Hinv) in Hc. destruct Hk as [Hk|Hk]; congruence.
Qed.

(** Every step keeps the invariant. *)
Lemma inv_step (c0 : gmap K V) st (i : nat) : cache_inv c0 st -> cache_inv c0 (Cache.step i st).
Proof.
  intros Hinv. unfold Cache.step.
  destruct (Cache.callers st !! i) as [[k f|k f|k|k v]|] eqn:Hi; try exact Hinv.
  - (* the caller looks up its key *)
    destruct (Cache.slots st !! k) as [sl|] eqn:Hk.
    + (* a slot: it waits *)
      split; simpl.
      * apply (inv_stored _ _ Hinv).
      * intros j k' f' Hj.
        apply list_lookup_insert_Some in Hj as [(_ & [=] & _) | (_ & Hj)].
        exact (inv_computing _ _ Hinv _ _ _ Hj).
      * intros j1 j2 k' f1 f2 Hj1 Hj2.
        apply list_lookup_insert_Some in Hj1 as [(_ & [=] & _) | (_ & Hj1)].
        apply list_lookup_insert_Some in Hj2 as [(_ & [=] & _) | (_ & Hj2)].
        exact (inv_one_computing _ _ Hinv _ _ _ _ _ Hj1 Hj2).
      * intros j k' v Hj.
        apply list_lookup_insert_Some in Hj as [(_ & [=] & _) | (_ & Hj)].
        exact (inv_returned _ _ Hinv _ _ _ Hj).
      * intros j k' Hj.
        apply list_lookup_insert_Some in Hj as [(_ & [= <-] & _) | (_ & Hj)].
        -- rewrite Hk. eauto.
        -- exact (inv_waiting _ _ Hinv _ _ Hj).
      * intros k' Hk'. destruct (inv_pending _ _ Hinv _ Hk') as (j & f' & Hj).
        exists j, f'. rewrite list_lookup_insert_ne; [exact Hj|].
        intros ->. congruence.
      * apply (inv_runs _ _ Hinv).
    + (* no slot: it creates one and computes *)
      pose proof (inv_not_stored c0 st k Hinv (or_introl Hk)) as Hc0.
      split; simpl.
      * intros k' v Hk'. rewrite lookup_insert_ne by congruence.
        exact (inv_stored _ _ Hinv _ _ Hk').
      * intros j k' f' Hj.
        apply list_lookup_insert_Some in Hj as [(_ & [= <- <-] & _) | (_ & Hj)].
        -- apply lookup_insert_eq.
        -- pose proof (inv_computing _ _ Hinv _ _ _ Hj) as Hk'.
           rewrite lookup_insert_ne by congruence. exact Hk'.
      * intros j1 j2 k' f1 f2 Hj1 Hj2.
        apply list_lookup_insert_Some in Hj1 as [(<- & Heq1 & _) | (Hne1 & Hj1)];
          apply list_lookup_insert_Some in Hj2 as [(<- & Heq2 & _) | (Hne2 & Hj2)];
          simplify_eq; try reflexivity.
        -- pose proof (inv_computing _ _ Hinv _ _ _ Hj2). congruence.
        -- pose proof (inv_computing _ _ Hinv _ _ _ Hj1). congruence.
        -- exact (inv_one_computing _ _ Hinv _ _ _ _ _ Hj1 Hj2).
      * intros j k' v Hj.
        apply list_lookup_insert_Some in Hj as [(_ & [=] & _) | (_ & Hj)].
        pose proof (inv_returned _ _ Hinv _ _ _ Hj) as Hk'.
        rewrite lookup_insert_ne by congruence. exact Hk'.
      * intros j k' Hj.
        apply list_lookup_insert_Some in Hj as [(_ & [=] & _) | (_ & Hj)].
        apply lookup_insert_is_Some. destruct (decide (k = k')); [now left|].
        right. split; [assumption|]. exact (inv_waiting _ _ Hinv _ _ Hj).
      * intros k' Hk'. destruct (decide (k = k')) as [<-|Hne].
        -- exists i, f. apply list_lookup_insert_eq. eapply lookup_lt_Some; eauto.
        -- rewrite lookup_insert_ne in Hk' by assumption.
           destruct (inv_pending _ _ Hinv _ Hk') as (j & f' & Hj).
           exists j, f'. rewrite list_lookup_insert_ne; [exact Hj|].
           intros ->. congruence.
      * intros k'. unfold Cache.runs_of. simpl. fold (Cache.runs_of k' st).
        rewrite (inv_runs _ _ Hinv k').
        destruct (decide (k = k')) as [<-|Hne].
        -- rewrite lookup_insert_eq, Hk, Hc0. reflexivity.
        -- now rewrite lookup_insert_ne.
  - (* the caller has computed: it fills the slot and returns *)
    pose proof (inv_computing _ _ Hinv _ _ _ Hi) as Hk.
    pose proof (inv_not_stored c0 st k Hinv (or_intror Hk)) as Hc0.
    destruct (f (Cache.world st)) as [v w] eqn:Hf.
    split; simpl.
    + intros k' v' Hk'. rewrite lookup_insert_ne by congruence.
      exact (inv_stored _ _ Hinv _ _ Hk').
    + intros j k' f' Hj.
      apply list_lookup_insert_Some in Hj as [(_ & [=] & _) | (Hne & Hj)].
      pose proof (inv_computing _ _ Hinv _ _ _ Hj) as Hk'.
      rewrite lookup_insert_ne; [exact Hk'|]. intros <-.
      apply Hne. exact (inv_one_computing _ _ Hinv _ _ _ _ _ Hi Hj).
    + intros j1 j2 k' f1 f2 Hj1 Hj2.
      apply list_lookup_insert_Some in Hj1 as [(_ & [=] & _) | (_ & Hj1)].
      apply list_lookup_insert_Some in Hj2 as [(_ & [=] & _) | (_ & Hj2)].
      exact (inv_one_computing _ _ Hinv _ _ _ _ _ Hj1 Hj2).
    + intros j k' v' Hj.
      apply list_lookup_insert_Some in Hj as [(_ & [= <- <-] & _) | (_ & Hj)].
      * apply lookup_insert_eq.
      * pose proof (inv_returned _ _ Hinv _ _ _ Hj) as Hk'.
        rewrite lookup_insert_ne by congruence. exact Hk'.
    + intros j k' Hj.
      apply list_lookup_insert_Some in Hj as [(_ & [=] & _) | (_ & Hj)].
      apply lookup_insert_is_Some. destruct (decide (k = k')); [now left|].
      right. split; [assumption|]. exact (inv_waiting _ _ Hinv _ _ Hj).
    + intros k' Hk'. destruct (decide (k = k')) as [<-|Hne].
      * rewrite lookup_insert_eq in Hk'. discriminate.
      * rewrite lookup_insert_ne in Hk' by assumption.
        destruct (inv_pending _ _ Hinv _ Hk') as (j & f' & Hj).
        exists j, f'. rewrite list_lookup_insert_ne; [exact Hj|].
        intros ->. congruence.
    + intros k'. rewrite runs_of_snoc, (inv_runs _ _ Hinv k').
      destruct (decide (k = k')) as [<-|Hne].
      * rewrite lookup_insert_eq, Hk, Hc0. reflexivity.
      * rewrite lookup_insert_ne by assumption. lia.
  - (* the caller waits for its slot *)
    destruct (Cache.slots st !! k) as [[|v]|] eqn:Hk; try exact Hinv.
    split; simpl.
    + apply (inv_stored _ _ Hinv).
    + intros j k' f' Hj.
      apply list_lookup_insert_Some in Hj as [(_ & [=] & _) | (_ & Hj)].
      exact (inv_computing _ _ Hinv _ _ _ Hj).
    + intros j1 j2 k' f1 f2 Hj1 Hj2.
      apply list_lookup_insert_Some in Hj1 as [(_ & [=] & _) | (_ & Hj1)].
      apply list_lookup_insert_Some in Hj2 as [(_ & [=] & _) | (_ & Hj2)].
      exact (inv_one_computing _ _ Hinv _ _ _ _ _ Hj1 Hj2).
    + intros j k' v' Hj.
      apply list_lookup_insert_Some in Hj as [(_ & [= <- <-] & _) | (_ & Hj)].
      * exact Hk.
      * exact (inv_returned _ _ Hinv _ _ _ Hj).
    + intros j k' Hj.
      apply list_lookup_insert_Some in Hj as [(_ & [=] & _) | (_ & Hj)].
      exact (inv_waiting _ _ Hinv _ _ Hj).
    + intros k' Hk'. destruct (inv_pending _ _ Hinv _ Hk') as (j & f' & Hj).
      exists j, f'. rewrite list_lookup_insert_ne; [exact Hj|].
      intros ->. congruence.
    + apply (inv_runs _ _ Hinv).
Qed.

Lemma inv_run (c0 : gmap K V) (schedule : list nat) st :
  cache_inv c0 st -> cache_inv c0 (Cache.run schedule st).
Proof.
  revert st. induction schedule as [|i schedule IH]; intros st Hinv; simpl.
  - exact Hinv.
  - apply IH, inv_step, Hinv.
Qed.

(** *** Every caller can return *)

Lemma sum_steps_insert (l : list (Cache.caller K V W)) (i : nat)
    (c c' : Cache.caller K V W) :
  l !! i = Some c ->
  (sum_list_with Cache.steps_left (<[i:=c']> l) + Cache.steps_left c
   = sum_list_with Cache.steps_left l + Cache.steps_left c')%nat.
Proof.
  revert i. induction l as [|x l IH]; intros i Hi; [discriminate|].
  destruct i as [|i]; simpl in Hi.
  - injection Hi as ->. change (<[0%nat:=c']> (c :: l)) with (c' :: l).
    cbn [sum_list_with]. lia.
  - specialize (IH i Hi). change (<[S i:=c']> (x :: l)) with (x :: <[i:=c']> l).
    cbn [sum_list_with]. lia.
Qed.

Lemma sum_steps_pos (l : list (Cache.caller K V W)) :
  (0 < sum_list_with Cache.steps_left l)%nat ->
  ∃ i c, l !! i = Some c ∧ (0 < Cache.steps_left c)%nat.
Proof.
  induction l as [|x l IH]; cbn [sum_list_with]; intros Hpos; [lia|].
  destruct (decide (Cache.steps_left x = 0%nat)) as [Hx|Hx].
  - destruct IH as (i & c & Hi & Hc); [lia|]. exists (S i), c. auto.
  - exists 0%nat, x. split; [reflexivity | lia].
Qed.

Lemma work_left_0 st : work_left st = 0%nat -> Cache.all_returned st.
Proof.
  unfold work_left, Cache.all_returned.
  induction (Cache.callers st) as [|c l IH]; [reflexivity|].
  cbn [sum_list_with forallb]. intros Hsum. rewrite IH by lia.
  destruct c; simpl in *; lia || reflexivity.
Qed.

(** A caller that is computing can take its step. *)
Lemma step_computing st (i : nat) (k : K) (f : W -> V * W) :
  Cache.callers st !! i = Some (Cache.Computing k f) ->
  (work_left (Cache.step i st) < work_left st)%nat.
Proof.
  intros Hi. unfold Cache.step. rewrite Hi.
  destruct (f (Cache.world st)) as [v w]. unfold work_left. simpl.
  pose proof (sum_steps_insert _ i _ (Cache.Returned k v) Hi). simpl in *. lia.
Qed.

(** As long as a caller has not returned, some caller can take a
    step. *)
Lemma progress (c0 : gmap K V) st :
  cache_inv c0 st -> (0 < work_left st)%nat ->
  ∃ i, (work_left (Cache.step i st) < work_left st)%nat.
Proof.
  intros Hinv Hpos. destruct (sum_steps_pos _ Hpos) as (i & c & Hi & Hc).
  destruct c as [k f|k f|k|k v]; simpl in Hc; [| | |lia].
  - exists i. unfold Cache.step. rewrite Hi.
    destruct (Cache.slots st !! k); unfold work_left; simpl.
    + pose proof (sum_steps_insert _ i _ (Cache.Waiting k) Hi). simpl in *. lia.
    + pose proof (sum_steps_insert _ i _ (Cache.Computing k f) Hi). simpl in *. lia.
  - exists i. eapply step_computing; eauto.
  - destruct (inv_waiting _ _ Hinv _ _ Hi) as [[|v] Hk].
    + destruct (inv_pending _ _ Hinv _ Hk) as (j & f & Hj).
      exists j. eapply step_computing; eauto.
    + exists i. unfold Cache.step. rewrite Hi, Hk. unfold work_left. simpl.
      pose proof (sum_steps_insert _ i _ (Cache.Returned k v) Hi). simpl in *. lia.
Qed.

Lemma can_finish (c0 : gmap K V) (n : nat) :
  ∀ st, cache_inv c0 st -> (work_left st <= n)%nat ->
        ∃ schedule, Cache.all_returned (Cache.run schedule st).
Proof.
  induction n as [|n IH]; intros st Hinv Hle.
  - exists []. simpl. apply work_left_0. lia.
  - destruct (decide (work_left st = 0%nat)) as [Hz|Hnz].
    + exists []. simpl. now apply work_left_0.
    + destruct (progress c0 st Hinv) as [i Hi]; [lia|].
      destruct (IH (Cache.step i st)) as [schedule Hdone];
        [now apply inv_step | lia |].
      exists (i :: schedule). exact Hdone.
Qed.

(** *** One caller alone does what [Get] does *)

Lemma single_caller_as_Get (c : gmap K V) (w : W) (k : K) (f : W -> V * W) :
  let '(v, c', w') := Cache.Get c k f w in
  Cache.run [0%nat; 0%nat] (Cache.init c w [(k, f)])
  = {| Cache.slots := Cache.Ready <$> c';
       Cache.world := w';
       Cache.invoked := match c !! k with Some _ => [] | None => [k] end;
       Cache.callers := [Cache.Returned k v] |}.
Proof.
  unfold Cache.Get, Cache.init. simpl. unfold Cache.step at 2. simpl.
  rewrite lookup_fmap. destruct (c !! k) as [v|] eqn:Hk; simpl.
  - unfold Cache.step. simpl. now rewrite lookup_fmap, Hk.
  - unfold Cache.step. simpl. destruct (f w) as [v w'].
    rewrite insert_insert_eq, fmap_insert. reflexivity.
Qed.

(** C2. Called one at a time, [Get] runs [computeFn] once on a miss
    and stores what it returned, and from then on returns the stored
    value for that key without running the function it is given.
    With callers that run together, in any order of their steps:
    [computeFn] is run at most once for a key, and not at all for a
    key whose result the cache already holds, which stays stored; a
    caller that has returned has the value of its key's slot, after
    exactly one run of [computeFn] if the key was not stored; any two
    callers of the same key that have returned have the same result;
    and the callers can always all be brought to return. *)
Theorem cache_computes_once_per_key
    (c0 : gmap K V) (w0 : W) (cs : list (K * (W -> V * W))) (schedule : list nat) :
  let st := Cache.run schedule (Cache.init c0 w0 cs) in
  (∀ (c : gmap K V) (k : K) (f g : W -> V * W) (w w2 : W),
     c !! k = None ->
     let '(v, c', w') := Cache.Get c k f w in
     (v, w') = f w ∧ c' = <[k:=v]> c ∧ Cache.Get c' k g w2 = (v, c', w2))
  ∧ (∀ k, Cache.runs_of k st <= 1)%nat
  ∧ (∀ k v, c0 !! k = Some v ->
            Cache.runs_of k st = 0%nat ∧ Cache.slots st !! k = Some (Cache.Ready v))
  ∧ (∀ i k v, Cache.callers st !! i = Some (Cache.Returned k v) ->
              Cache.slots st !! k = Some (Cache.Ready v)
              ∧ (c0 !! k = None -> Cache.runs_of k st = 1%nat))
  ∧ (∀ i j k v v',
       Cache.callers st !! i = Some (Cache.Returned k v) ->
       Cache.callers st !! j = Some (Cache.Returned k v') -> v = v')
  ∧ (∃ rest, Cache.all_returned
               (Cache.run (schedule ++ rest) (Cache.init c0 w0 cs))).
Proof.
  intros st.
  assert (cache_inv c0 st) as Hinv by apply inv_run, inv_init.
  split; [|split; [|split; [|split; [|split]]]].
  - intros c k f g w w2 Hk. rewrite (Get_miss c k f w Hk).
    split; [now destruct (f w)|]. split; [reflexivity|].
    apply Get_hit, lookup_insert_eq.
  - intros k. rewrite (inv_runs _ _ Hinv k).
    destruct (c0 !! k), (Cache.slots st !! k) as [[|?]|]; lia.
  - intros k v Hk. rewrite (inv_runs _ _ Hinv k), Hk.
    split; [reflexivity | exact (inv_stored _ _ Hinv _ _ Hk)].
  - intros i k v Hi. pose proof (inv_returned _ _ Hinv _ _ _ Hi) as Hk.
    split; [exact Hk|]. intros Hc0. now rewrite (inv_runs _ _ Hinv k), Hc0, Hk.
  - intros i j k v v' Hi Hj.
    pose proof (inv_returned _ _ Hinv _ _ _ Hi).
    pose proof (inv_returned _ _ Hinv _ _ _ Hj). congruence.
  - destruct (can_finish c0 (work_left st) st Hinv (le_n _)) as [rest Hdone].
    exists rest. now rewrite run_app.
Qed.

End CacheFacts.

(** Three callers of one key, interleaved: [computeFn] has run once, and
    the three have the same result. *)
Example three_callers_one_run :
  Cache.run SampleCallers.schedule SampleCallers.start
  = {| Cache.slots := {[ "pkg" := Cache.Ready 1%nat ]};
       Cache.world := 1%nat;
       Cache.invoked := ["pkg"];
       Cache.callers := [Cache.Returned "pkg" 1%nat; Cache.Returned "pkg" 1%nat;
                         Cache.Returned "pkg" 1%nat] |}.
Proof. vm_compute. reflexivity. Qed.

(** The theorem of C2 at the three callers. *)
Lemma cache_computes_once_per_key_witness :
  (Cache.runs_of "pkg" (Cache.run SampleCallers.schedule SampleCallers.start) <= 1)%nat
  ∧ ∃ rest, Cache.all_returned
              (Cache.run (SampleCallers.schedule ++ rest) SampleCallers.start).
Proof.
  destruct (cache_computes_once_per_key (∅ : gmap string nat) 0%nat
              SampleCallers.callers SampleCallers.schedule)
    as (_ & Honce & _ & _ & _ & Hall).
  split; [apply Honce | exact Hall].
Defined.

(** * Further properties *)

(** ** The file-to-package map *)

Section FileToPkgNameMore.

Lemma fileToPkgName_from_Some_length (files : list string) :
  ∀ (i : nat) (packages : list string) (m0 mp : gmap string string),
    (i <= length packages)%nat ->
    fileToPkgName_from i files packages m0 = Some mp ->
    (i + length files <= length packages)%nat.
Proof.
  induction files as [|g files IH]; intros i packages m0 mp Hi Hrun; simpl in *.
  - lia.
  - destruct (packages !! i) as [p|] eqn:Hp; [|discriminate].
    apply lookup_lt_Some in Hp. apply IH in Hrun; lia.
Qed.

Lemma fileToPkgName_from_None_iff (files packages : list string) :
  fileToPkgName_from 0 files packages ∅ = None
  <-> (length packages < length files)%nat.
Proof.
  split.
  - intros Hnone.
    destruct (decide (length files <= length packages)%nat) as [Hle|Hgt]; [|lia].
    destruct (fileToPkgName_from_is_Some files 0 packages ∅) as [mp Hmp];
      [simpl; lia | congruence].
  - intros Hlt. destruct (fileToPkgName_from 0 files packages ∅) as [mp|] eqn:Hrun;
      [|reflexivity].
    apply fileToPkgName_from_Some_length in Hrun; simpl in *; lia.
Qed.

(** The name the scan gives a file is the one at the last index at which
    [files] has the file. *)
Lemma declared_unit_Some_iff (files : list string) :
  ∀ (packages : list string) (f n : string),
    (length files <= length packages)%nat ->
    declared_unit files packages f = Some n
    <-> ∃ i, files !! i = Some f ∧ packages !! i = Some n
             ∧ ∀ j, (i < j)%nat -> files !! j ≠ Some f.
Proof.
  induction files as [|g files IH]; intros packages f n Hlen.
  - simpl. split; [discriminate | intros (i & Hi & _); discriminate].
  - destruct packages as [|p packages]; simpl in Hlen; [lia|].
    assert (length files <= length packages)%nat as Hlen' by lia.
    pose proof (declared_unit_None files packages f Hlen') as Hnone.
    specialize (IH packages f n Hlen'). simpl.
    destruct (declared_unit files packages f) as [q|] eqn:Hrec.
    + split.
      * intros [= ->]. destruct (proj1 IH eq_refl) as (i & Hi & Hp & Hlast).
        exists (S i). split; [exact Hi|]. split; [exact Hp|].
        intros [|j] Hj; [lia|]. simpl. apply Hlast. lia.
      * intros ([|i] & Hi & Hp & Hlast); simpl in *.
        -- assert (f ∉ files) as Hnot.
           { intros Hin. apply list_elem_of_lookup in Hin as [j Hj].
             apply (Hlast (S j)); [lia | exact Hj]. }
           apply Hnone in Hnot. discriminate.
        -- apply IH. exists i. split; [exact Hi|]. split; [exact Hp|].
           intros j Hj. apply (Hlast (S j)). lia.
    + split.
      * destruct (String.eqb_spec g f) as [->|Hne]; [|discriminate].
        intros [= ->]. exists 0%nat. split; [reflexivity|]. split; [reflexivity|].
        intros [|j] Hj; [lia|]. simpl. intros Hfj.
        assert (f ∈ files) as Hin by (apply list_elem_of_lookup; eauto).
        now apply (proj1 Hnone eq_refl).
      * intros ([|i] & Hi & Hp & Hlast); simpl in *.
        -- injection Hi as ->. injection Hp as ->. now rewrite String.eqb_refl.
        -- exfalso. assert (f ∈ files) as Hin by (apply list_elem_of_lookup; eauto).
           now apply (proj1 Hnone eq_refl).
Qed.

(** X1. When the loop that builds [fileToPkgName] does not panic, the map
    has an entry exactly for the files the scan lists, and the entry of a
    file is the package name at the last index at which [Files] has the
    file: of two entries for one file the later one wins. *)
Theorem fileToPkgName_last_entry_wins (m : build.MultiplePackageError)
    (fileToPkgName : gmap string string)
    (Hrun : fileToPkgName_from 0 (build.Files m) (build.Packages m) ∅
            = Some fileToPkgName) :
  (∀ f n, fileToPkgName !! f = Some n
          <-> ∃ i, build.Files m !! i = Some f ∧ build.Packages m !! i = Some n
                   ∧ ∀ j, (i < j)%nat -> build.Files m !! j ≠ Some f)
  ∧ (∀ f, fileToPkgName !! f = None <-> f ∉ build.Files m).
Proof.
  pose proof (fileToPkgName_from_Some_length _ _ _ _ _ (Nat.le_0_l _) Hrun) as Hlen.
  simpl in Hlen.
  assert (∀ f, fileToPkgName !! f
               = declared_unit (build.Files m) (build.Packages m) f) as Hlookup.
  { intros f. rewrite (fileToPkgName_from_lookup _ _ _ _ _ Hrun f), drop_0.
    destruct (declared_unit (build.Files m) (build.Packages m) f); [reflexivity|].
    apply lookup_empty. }
  split.
  - intros f n. rewrite Hlookup. now apply declared_unit_Some_iff.
  - intros f. rewrite Hlookup. now apply declared_unit_None.
Qed.

End FileToPkgNameMore.

(** The theorem of X1 on a scan that lists [a.go] twice. *)
Lemma fileToPkgName_last_entry_wins_witness :
  SampleMore.map_twice !! "a.go" = Some "main"
  ∧ SampleMore.map_twice !! "c.go" = None.
Proof.
  pose proof (fileToPkgName_last_entry_wins SampleMore.scan_twice
                SampleMore.map_twice ltac:(vm_compute; reflexivity))
    as [Hsome Hnone].
  split.
  - apply Hsome. exists 2%nat. split; [reflexivity|]. split; [reflexivity|].
    intros [|[|[|j]]] Hj; try lia; discriminate.
  - apply Hnone. simpl. intros Hin.
    repeat (apply elem_of_cons in Hin as [Hin|Hin]; [discriminate|]).
    now apply elem_of_nil in Hin.
Defined.

(** ** More on [buildPackageForNamedFileInMultiPackageDir] *)

Section DisambiguationMore.

Variable spare : nat -> nat -> nat.
Variable filepath_Dir : string -> string.

Local Abbreviation build :=
  (buildPackageForNamedFileInMultiPackageDir spare filepath_Dir).

Lemma build_nil (bpkg : option loc) (m : build.MultiplePackageError)
    (filename : string) (h : heap) :
  bpkg ≫= (λ l, pkgs h !! l) = None -> build bpkg m filename h = Panic h.
Proof.
  intros Hnil. unfold buildPackageForNamedFileInMultiPackageDir.
  unfold bind at 1. unfold deref. now rewrite Hnil.
Qed.

Lemma build_short_scan (l : loc) (p : packages.Package)
    (m : build.MultiplePackageError) (filename : string) (h : heap) :
  pkgs h !! l = Some p ->
  (length (build.Packages m) < length (build.Files m))%nat ->
  build (Some l) m filename h = Panic (set_pkgs (insert (fresh (dom (pkgs h))) p) h).
Proof.
  intros Hp Hshort. unfold buildPackageForNamedFileInMultiPackageDir.
  unfold bind at 1. rewrite (deref_Some h l p Hp).
  unfold bind at 1. unfold new_pkg.
  unfold bind at 1. unfold make_fileToPkgName.
  now rewrite (proj2 (fileToPkgName_from_None_iff _ _) Hshort).
Qed.

(** With a scan that is not [nil], on a heap in which the file list of
    the descriptor is readable, the disambiguation panics in two cases
    only: the descriptor pointer is [nil], or the scan has fewer package
    names than files. *)
Lemma build_panics_iff (bpkg : option loc)
    (m : build.MultiplePackageError) (filename : string) (h : heap)
    (Hwf : ∀ p, bpkg ≫= (λ l, pkgs h !! l) = Some p ->
                is_Some (slice_elems h (packages.GoFiles p))) :
  (∃ h', build bpkg m filename h = Panic h')
  <-> bpkg ≫= (λ l, pkgs h !! l) = None
      ∨ (length (build.Packages m) < length (build.Files m))%nat.
Proof.
  destruct (bpkg ≫= (λ l, pkgs h !! l)) as [p|] eqn:Hdesc.
  - destruct bpkg as [l|]; [|discriminate]. simpl in Hdesc.
    destruct (Hwf p eq_refl) as [fl Hfl].
    destruct (decide (length (build.Packages m) < length (build.Files m))%nat)
      as [Hshort|Hlen].
    + split; [now right|]. intros _. eexists.
      exact (build_short_scan l p m filename h Hdesc Hshort).
    + split; [|intros [[=]|Hshort]; contradiction].
      intros [h' Hpanic]. exfalso.
      destruct (decide (scan_name m filename = "")) as [Hname|Hname].
      * rewrite (buildPackage_no_name spare filepath_Dir h l p m filename Hdesc
                   ltac:(lia) Hname) in Hpanic. discriminate.
      * destruct (buildPackage_named spare filepath_Dir h l p m filename fl Hdesc
                    ltac:(lia) Hname Hfl) as (l' & keep & h'' & Hrun & _).
        rewrite Hrun in Hpanic. discriminate.
  - split; [now left|]. intros _. exists h. now apply build_nil.
Qed.

(** X2. On a heap in which the file list of the descriptor is readable,
    the disambiguation panics in three cases only: the descriptor
    pointer is [nil], the scan pointer is [nil], or the scan has fewer
    package names than files. In every other case it returns. *)
Theorem disambiguation_panics_iff (bpkg : option loc)
    (m : option build.MultiplePackageError) (filename : string) (h : heap)
    (Hwf : ∀ p, bpkg ≫= (λ l, pkgs h !! l) = Some p ->
                is_Some (slice_elems h (packages.GoFiles p))) :
  (∃ h', buildPackageForNamedFileInMultiPackageDir_ptr spare filepath_Dir
           bpkg m filename h = Panic h')
  <-> bpkg ≫= (λ l, pkgs h !! l) = None
      ∨ m = None
      ∨ (∃ scan, m = Some scan
                 ∧ (length (build.Packages scan) < length (build.Files scan))%nat).
Proof.
  destruct m as [scan|]; simpl.
  - rewrite (build_panics_iff bpkg scan filename h Hwf). split.
    + intros [Hnil|Hshort]; [now left|]. right. right. now exists scan.
    + intros [Hnil|[[=]|(scan' & [= <-] & Hshort)]]; [now left | now right].
  - split; [intros _; right; now left|]. intros _.
    unfold bind, deref, new_pkg.
    destruct (bpkg ≫= (λ l, pkgs h !! l)); eexists; reflexivity.
Qed.

(** X3. When the scan names the requested file, the descriptor that is
    returned is a copy of the one passed in, with the same package path
    and file set, under the name of the file's package; its files are
    those files of the descriptor that the scan puts under that name
    without its [_test] suffix. They keep their order, and all of them
    are under one and the same name. *)
Theorem disambiguated_unit (h : heap) (l : loc) (p : packages.Package)
    (m : build.MultiplePackageError) (filename : string) (fl : list string)
    (Hp : pkgs h !! l = Some p)
    (Hlen : (length (build.Files m) <= length (build.Packages m))%nat)
    (Hname : scan_name m filename ≠ "")
    (Hfl : slice_elems h (packages.GoFiles p) = Some fl) :
  ∃ kept keep,
    unit_of (build (Some l) m filename h)
    = Some {| packages.PkgPath := packages.PkgPath p;
              packages.Name := scan_name m filename;
              packages.GoFiles := keep;
              packages.Fset := packages.Fset p |}
    ∧ unit_files (build (Some l) m filename h) = Some kept
    ∧ kept = filter (λ f, scan_name m f = nonXTestPkgName (scan_name m filename)) fl
    ∧ sublist kept fl
    ∧ Forall (λ f, scan_name m f = nonXTestPkgName (scan_name m filename)) kept.
Proof.
  destruct (buildPackage_named spare filepath_Dir h l p m filename fl
              Hp Hlen Hname Hfl) as (l' & keep & h' & Hrun & _ & Hl' & Hkeep & _).
  eexists _, keep. rewrite Hrun. simpl. rewrite Hl'. simpl.
  split; [reflexivity|]. split; [exact Hkeep|]. split; [reflexivity|].
  split; [apply sublist_filter|].
  apply Forall_forall. intros f Hin. now apply list_elem_of_filter in Hin as [Hf _].
Qed.

(** X4. For a file of a package whose name does not end in [_test], the
    files of the returned unit are the files of the descriptor that the
    scan puts in the same package as the requested file: the requested
    file is among them exactly when the descriptor lists it. *)
Theorem ordinary_unit_keeps_requested_file (h : heap) (l : loc)
    (p : packages.Package) (m : build.MultiplePackageError) (filename : string)
    (fl : list string)
    (Hp : pkgs h !! l = Some p)
    (Hlen : (length (build.Files m) <= length (build.Packages m))%nat)
    (Hname : scan_name m filename ≠ "")
    (Hord : strings.HasSuffix (scan_name m filename) "_test" = false)
    (Hfl : slice_elems h (packages.GoFiles p) = Some fl) :
  unit_files (build (Some l) m filename h)
  = Some (filter (λ f, scan_name m f = scan_name m filename) fl)
  ∧ (filename ∈ filter (λ f, scan_name m f = scan_name m filename) fl
     <-> filename ∈ fl).
Proof.
  destruct (buildPackage_named spare filepath_Dir h l p m filename fl
              Hp Hlen Hname Hfl) as (l' & keep & h' & Hrun & _ & Hl' & Hkeep & _).
  unfold nonXTestPkgName in Hkeep. rewrite Hord in Hkeep.
  split.
  - rewrite Hrun. simpl. rewrite Hl'. exact Hkeep.
  - rewrite list_elem_of_filter. tauto.
Qed.

(** [append] returns a slice that is not [nil] and has room for its
    elements. *)
Lemma append_nonempty (keep : slice) (x : string) (h : heap) :
  match append spare keep x h with
  | Ret keep' _ => keep' ≠ nil_slice ∧ nil_or_nonempty keep'
  | Panic _ => True
  end.
Proof.
  unfold append. destruct keep as [|a len cap]; simpl.
  - split; [discriminate | lia].
  - destruct (arrs h !! a) as [xs|]; [|exact I].
    destruct (len <? cap)%nat eqn:Hroom; simpl.
    + apply Nat.ltb_lt in Hroom. split; [discriminate | lia].
    + split; [discriminate | lia].
Qed.

Lemma filterToFilesInPackage_from_nonempty (fileToPkgName : gmap string string)
    (files : slice) (pkgName : string) (todo : nat) :
  ∀ (i : nat) (keep : slice) (h : heap),
    nil_or_nonempty keep ->
    match filterToFilesInPackage_from spare fileToPkgName files pkgName
            todo i keep h with
    | Ret keep' _ => nil_or_nonempty keep'
    | Panic _ => True
    end.
Proof.
  induction todo as [|todo IH]; intros i keep h Hkeep.
  - exact Hkeep.
  - rewrite filterToFilesInPackage_from_S.
    destruct (slice_index files i h) as [f h1|h1]; [|exact I].
    destruct (String.eqb (map_index fileToPkgName f) pkgName).
    + pose proof (append_nonempty keep f h1) as Happ.
      destruct (append spare keep f h1) as [keep' h2|h2]; [|exact I].
      apply IH. tauto.
    + now apply IH.
Qed.

(** The file list of a descriptor that is returned is [nil] or has an
    element. *)
Lemma build_unit_nil_or_nonempty (bpkg : option loc)
    (m : build.MultiplePackageError) (filename : string) (h : heap)
    (u : packages.Package) :
  unit_of (build bpkg m filename h) = Some u -> nil_or_nonempty (packages.GoFiles u).
Proof.
  unfold buildPackageForNamedFileInMultiPackageDir.
  unfold bind at 1. destruct (deref bpkg h) as [p h0|h0]; [|discriminate].
  unfold bind at 1. unfold new_pkg at 1.
  unfold bind at 1. destruct (make_fileToPkgName m _) as [mp h1|h1]; [|discriminate].
  destruct (String.eqb (map_index mp filename) "").
  - unfold bind at 1. destruct (deref _ h1); discriminate.
  - unfold bind at 1. destruct (update_pkg _ _ h1) as [[] h2|h2]; [|discriminate].
    unfold bind at 1. destruct (deref _ h2) as [cur h3|h3]; [|discriminate].
    unfold bind at 1. unfold filterToFilesInPackage.
    match goal with
    | |- context [filterToFilesInPackage_from spare mp ?fs ?n ?todo 0 nil_slice h3] =>
        pose proof (filterToFilesInPackage_from_nonempty mp fs n todo 0%nat
                      nil_slice h3 I) as Hkeep;
        destruct (filterToFilesInPackage_from spare mp fs n todo 0 nil_slice h3)
          as [keep h4|h4]
    end; [|discriminate].
    unfold bind at 1. unfold update_pkg.
    destruct (pkgs h4 !! _) as [q|] eqn:Hq; [|discriminate].
    simpl. rewrite lookup_alter_eq, Hq. simpl. now intros [= <-].
Qed.

(** X5. The file list of the returned unit has as many elements as the
    descriptor has files in the package, within its capacity; and when
    the descriptor has no file in the package, it is the [nil] slice,
    not an empty slice with an array. *)
Theorem unit_without_files_is_nil (h : heap) (l : loc) (p : packages.Package)
    (m : build.MultiplePackageError) (filename : string) (fl : list string)
    (Hp : pkgs h !! l = Some p)
    (Hlen : (length (build.Files m) <= length (build.Packages m))%nat)
    (Hname : scan_name m filename ≠ "")
    (Hfl : slice_elems h (packages.GoFiles p) = Some fl) :
  let kept := filter (λ f, scan_name m f = nonXTestPkgName (scan_name m filename)) fl in
  ∃ u, unit_of (build (Some l) m filename h) = Some u
       ∧ slice_len (packages.GoFiles u) = length kept
       ∧ nil_or_nonempty (packages.GoFiles u)
       ∧ (packages.GoFiles u = nil_slice <-> kept = []).
Proof.
  intros kept.
  destruct (buildPackage_named spare filepath_Dir h l p m filename fl
              Hp Hlen Hname Hfl) as (l' & keep & h' & Hrun & _ & Hl' & Hkeep & _).
  assert (unit_of (build (Some l) m filename h)
          = Some {| packages.PkgPath := packages.PkgPath p;
                    packages.Name := scan_name m filename;
                    packages.GoFiles := keep;
                    packages.Fset := packages.Fset p |}) as Hunit
    by (rewrite Hrun; exact Hl').
  pose proof (build_unit_nil_or_nonempty _ _ _ _ _ Hunit) as Hshape.
  pose proof (slice_elems_length _ _ _ Hkeep) as Hcount. fold kept in Hcount.
  eexists. split; [exact Hunit|]. simpl in *.
  split; [now symmetry|]. split; [exact Hshape|].
  split.
  - intros ->. simpl in Hcount. now destruct kept.
  - intros Hnil. rewrite Hnil in Hcount. simpl in Hcount.
    destruct keep as [|a len cap]; [reflexivity|]. simpl in *. lia.
Qed.

(** X6. Disambiguating again, on the unit that was returned, gives a
    unit of the same name with the same files: the files that were kept
    are all kept again. *)
Theorem disambiguation_twice (h : heap) (l : loc) (p : packages.Package)
    (m : build.MultiplePackageError) (filename : string) (fl : list string)
    (Hp : pkgs h !! l = Some p)
    (Hlen : (length (build.Files m) <= length (build.Packages m))%nat)
    (Hname : scan_name m filename ≠ "")
    (Hfl : slice_elems h (packages.GoFiles p) = Some fl) :
  ∃ l' h',
    build (Some l) m filename h = Ret (Some l', None) h'
    ∧ returns_unit_named (build (Some l') m filename h') (scan_name m filename)
    ∧ unit_files (build (Some l') m filename h')
      = unit_files (build (Some l) m filename h).
Proof.
  destruct (buildPackage_named spare filepath_Dir h l p m filename fl
              Hp Hlen Hname Hfl) as (l' & keep & h' & Hrun & _ & Hl' & Hkeep & _).
  destruct (buildPackage_named spare filepath_Dir h' l' _ m filename _
              Hl' Hlen Hname Hkeep)
    as (l2 & keep2 & h2 & Hrun2 & _ & Hl2 & Hkeep2 & _).
  exists l', h'. split; [exact Hrun|]. split.
  - exists l2, h2. eexists. split; [exact Hrun2|]. split; [exact Hl2 | reflexivity].
  - rewrite Hrun2, Hrun. simpl. rewrite Hl2, Hl'. simpl.
    rewrite Hkeep2, Hkeep. f_equal.
    apply list_filter_filter_l. auto.
Qed.

End DisambiguationMore.

(** X7. The name the files are filtered by is the package name without
    one [_test] suffix: putting the suffix back gives the package name
    again, and a name without the suffix is taken as it is. *)
Theorem nonXTestPkgName_round_trip (pkgName : string) :
  if strings.HasSuffix pkgName "_test"
  then nonXTestPkgName pkgName +:+ "_test" = pkgName
       ∧ String.length pkgName = (String.length (nonXTestPkgName pkgName) + 5)%nat
  else nonXTestPkgName pkgName = pkgName.
Proof.
  unfold nonXTestPkgName.
  destruct (strings.HasSuffix pkgName "_test") eqn:Hsuffix; [|reflexivity].
  apply HasSuffix_true_iff in Hsuffix as [base ->].
  rewrite TrimSuffix_app. split; [reflexivity|]. now rewrite length_append.
Qed.

(** The theorem of X2 at the sample directory: the call does not
    panic. *)
Lemma disambiguation_panics_iff_witness :
  (∃ h', buildPackageForNamedFileInMultiPackageDir_ptr Sample.spare
           Sample.filepath_Dir (Some 1%positive) (Some Sample.scan) "x_test.go"
           Sample.heap0 = Panic h')
  <-> Some 1%positive ≫= (λ l, pkgs Sample.heap0 !! l) = None
      ∨ Some Sample.scan = None
      ∨ (∃ scan, Some Sample.scan = Some scan
                 ∧ (length (build.Packages scan) < length (build.Files scan))%nat).
Proof.
  apply (disambiguation_panics_iff Sample.spare Sample.filepath_Dir
           (Some 1%positive) (Some Sample.scan) "x_test.go" Sample.heap0).
  intros p [= <-]. eexists. reflexivity.
Defined.

(** The theorem of X3 at the sample directory, for [a.go]. *)
Lemma disambiguated_unit_witness :
  ∃ kept keep,
    unit_of (buildPackageForNamedFileInMultiPackageDir Sample.spare
               Sample.filepath_Dir (Some 1%positive) Sample.scan "a.go" Sample.heap0)
    = Some {| packages.PkgPath := "example.com/pkg";
              packages.Name := scan_name Sample.scan "a.go";
              packages.GoFiles := keep;
              packages.Fset := [] |}
    ∧ unit_files (buildPackageForNamedFileInMultiPackageDir Sample.spare
                    Sample.filepath_Dir (Some 1%positive) Sample.scan "a.go"
                    Sample.heap0) = Some kept
    ∧ kept = filter (λ f, scan_name Sample.scan f
                          = nonXTestPkgName (scan_name Sample.scan "a.go"))
               ["a.go"; "a_test.go"; "x_test.go"]
    ∧ sublist kept ["a.go"; "a_test.go"; "x_test.go"]
    ∧ Forall (λ f, scan_name Sample.scan f
                   = nonXTestPkgName (scan_name Sample.scan "a.go")) kept.
Proof.
  apply (disambiguated_unit Sample.spare Sample.filepath_Dir Sample.heap0 1%positive
           Sample.descriptor Sample.scan "a.go" ["a.go"; "a_test.go"; "x_test.go"]).
  - reflexivity.
  - simpl. lia.
  - discriminate.
  - reflexivity.
Defined.

(** The theorem of X4 at the sample directory, for [a.go]. *)
Lemma ordinary_unit_keeps_requested_file_witness :
  unit_files (buildPackageForNamedFileInMultiPackageDir Sample.spare
                Sample.filepath_Dir (Some 1%positive) Sample.scan "a.go" Sample.heap0)
  = Some (filter (λ f, scan_name Sample.scan f = scan_name Sample.scan "a.go")
            ["a.go"; "a_test.go"; "x_test.go"])
  ∧ ("a.go" ∈ filter (λ f, scan_name Sample.scan f = scan_name Sample.scan "a.go")
                ["a.go"; "a_test.go"; "x_test.go"]
     <-> "a.go" ∈ ["a.go"; "a_test.go"; "x_test.go"]).
Proof.
  apply (ordinary_unit_keeps_requested_file Sample.spare Sample.filepath_Dir
           Sample.heap0 1%positive Sample.descriptor Sample.scan "a.go"
           ["a.go"; "a_test.go"; "x_test.go"]).
  - reflexivity.
  - simpl. lia.
  - discriminate.
  - reflexivity.
  - reflexivity.
Defined.

(** The theorem of X5 at the sample directory, for a file of package
    [main], of which the descriptor has no file. *)
Lemma unit_without_files_is_nil_witness :
  let kept := filter (λ f, scan_name SampleMore.scan_twice f
                           = nonXTestPkgName (scan_name SampleMore.scan_twice "a.go"))
                ["b.go"] in
  ∃ u, unit_of (buildPackageForNamedFileInMultiPackageDir Sample.spare
                  Sample.filepath_Dir (Some 1%positive) SampleMore.scan_twice "a.go"
                  SampleMore.heap_b)
       = Some u
       ∧ slice_len (packages.GoFiles u) = length kept
       ∧ nil_or_nonempty (packages.GoFiles u)
       ∧ (packages.GoFiles u = nil_slice <-> kept = []).
Proof.
  apply (unit_without_files_is_nil Sample.spare Sample.filepath_Dir
           SampleMore.heap_b 1%positive SampleMore.descriptor_b
           SampleMore.scan_twice "a.go" ["b.go"]).
  - reflexivity.
  - simpl. lia.
  - discriminate.
  - reflexivity.
Defined.

(** The theorem of X6 at the sample directory, for [a.go]. *)
Lemma disambiguation_twice_witness :
  ∃ l' h',
    buildPackageForNamedFileInMultiPackageDir Sample.spare Sample.filepath_Dir
      (Some 1%positive) Sample.scan "a.go" Sample.heap0 = Ret (Some l', None) h'
    ∧ returns_unit_named
        (buildPackageForNamedFileInMultiPackageDir Sample.spare Sample.filepath_Dir
           (Some l') Sample.scan "a.go" h')
        (scan_name Sample.scan "a.go")
    ∧ unit_files (buildPackageForNamedFileInMultiPackageDir Sample.spare
                    Sample.filepath_Dir (Some l') Sample.scan "a.go" h')
      = unit_files (buildPackageForNamedFileInMultiPackageDir Sample.spare
                      Sample.filepath_Dir (Some 1%positive) Sample.scan "a.go"
                      Sample.heap0).
Proof.
  apply (disambiguation_twice Sample.spare Sample.filepath_Dir Sample.heap0
           1%positive Sample.descriptor Sample.scan "a.go"
           ["a.go"; "a_test.go"; "x_test.go"]).
  - reflexivity.
  - simpl. lia.
  - discriminate.
  - reflexivity.
Defined.

(** ** [fsetToFiles] and [posForFileOffset] *)

Lemma Iterate_collect (fset : token.FileSet) (files : list string) :
  token.Iterate fset (fun f files => (files ++ [token.Name f], true)) files
  = files ++ (token.Name <$> fset).
Proof.
  revert files. induction fset as [|f rest IH]; intros files; simpl.
  - now rewrite app_nil_r.
  - rewrite IH, <- app_assoc. reflexivity.
Qed.

Lemma fsetToFiles_names (fset : token.FileSet) :
  fsetToFiles fset = token.Name <$> fset.
Proof. unfold fsetToFiles. now rewrite Iterate_collect. Qed.

(** X8. [fsetToFiles] lists the name of every file of the file set, once
    for each file and in the order of the file set: the iteration is
    never cut short. *)
Theorem fsetToFiles_lists_every_file (fset : token.FileSet) :
  length (fsetToFiles fset) = length fset
  ∧ (∀ i, fsetToFiles fset !! i = token.Name <$> fset !! i)
  ∧ (∀ fset', fsetToFiles (fset ++ fset') = fsetToFiles fset ++ fsetToFiles fset').
Proof.
  split; [|split].
  - now rewrite fsetToFiles_names, length_fmap.
  - intros i. now rewrite fsetToFiles_names, list_lookup_fmap.
  - intros fset'. now rewrite !fsetToFiles_names, fmap_app.
Qed.

Section PositionsMore.

Variable PathEqual : string -> string -> bool.
Variable File_Pos : token.File -> Z -> token.Pos.

(** X9. When no file of the file set has [NoPos] as the position of the
    offset, [posForFileOffset] returns [NoPos] exactly when none of the
    names [fsetToFiles] lists path-equals the file name: the
    invalid-location check of [loadPackage] then tells exactly whether
    the file is in the file set. *)
Theorem posForFileOffset_NoPos_iff (fset : token.FileSet) (filename : string)
    (offset : Z)
    (Hpos : Forall (λ f, File_Pos f offset ≠ token.NoPos) fset) :
  posForFileOffset PathEqual File_Pos fset filename offset = token.NoPos
  <-> Forall (λ name, PathEqual name filename = false) (fsetToFiles fset).
Proof.
  rewrite posForFileOffset_first, fsetToFiles_names.
  induction Hpos as [|f rest Hf _ IH]; simpl.
  - split; [constructor | reflexivity].
  - destruct (PathEqual (token.Name f) filename) eqn:Heq.
    + split; [contradiction|]. intros Hall. apply Forall_cons in Hall as [Hhead _].
      congruence.
    + rewrite IH. split; [now constructor|]. intros Hall.
      now apply Forall_cons in Hall as [_ Hrest].
Qed.

End PositionsMore.

(** The theorem of X9 at the file set of the sample request. *)
Lemma posForFileOffset_NoPos_iff_witness :
  posForFileOffset SampleRequest.PathEqual SampleRequest.File_Pos
    (packages.Fset SampleRequest.descriptor) "/src/pkg/c.go" 4 = token.NoPos
  <-> Forall (λ name, SampleRequest.PathEqual name "/src/pkg/c.go" = false)
        (fsetToFiles (packages.Fset SampleRequest.descriptor)).
Proof.
  apply (posForFileOffset_NoPos_iff SampleRequest.PathEqual SampleRequest.File_Pos
           (packages.Fset SampleRequest.descriptor) "/src/pkg/c.go" 4).
  repeat constructor. discriminate.
Defined.

(** ** The configuration of the loader *)

Section TypecheckMore.

Variable BuildContext : Type.
Variable JoinPath : BuildContext -> string -> string -> string.

(** X10. The [FindPackage] that [typecheck] gives the loader returns the
    package [findPackage] returns, and never a MultiplePackageError: such
    an error is dropped, every other error is passed on as it is. *)
Theorem FindPackage_ignores_multiple_packages (ctx : Context) (bctx : BuildContext)
    (bpkg : build.Package) (findPackage : FindPackageFunc BuildContext)
    (bctx' : BuildContext) (importPath fromDir : string) (mode : Z) :
  let found := findPackage ctx bctx' importPath fromDir mode in
  let r := FindPackage _ (typecheck_conf BuildContext JoinPath ctx bctx bpkg findPackage)
             bctx' importPath fromDir mode in
  fst r = fst found
  ∧ (∀ e, snd r = Some e <-> snd found = Some e ∧ isMultiplePackageError e = false)
  ∧ (snd r = None
     <-> snd found = None ∨ ∃ m, snd found = Some (ErrMultiplePackage m)).
Proof.
  intros found r. subst r. simpl. fold found.
  destruct found as [pkg [e0|]]; simpl.
  - destruct (isMultiplePackageError e0) eqn:Hmp; simpl.
    + split; [reflexivity|]. split.
      * intros e. split; [discriminate|]. intros [[= <-] Hne]. congruence.
      * split; [|reflexivity]. intros _. right.
        destruct e0; try discriminate. eauto.
    + split; [reflexivity|]. split.
      * intros e. split; [intros [= <-]; now split | now intros [[= <-] _]].
      * split; [discriminate|]. intros [[=] | [m [= ->]]]. discriminate.
  - split; [reflexivity|]. split.
    + intros e. split; [discriminate | intros [[=] _]].
    + split; [now left | reflexivity].
Qed.

End TypecheckMore.

(** ** More on [cachedTypecheck] *)

Section CachedTypecheckMore.

Variable Program : Type.
Variable diagnostics : Type.
Variable nil_diagnostics : diagnostics.
Variable BuildContext : Type.
Variable JoinPath : BuildContext -> string -> string -> string.
Variable Load : Config BuildContext -> LoadResult Program.
Variable errsToDiagnostics :
  list error -> option Program -> diagnostics * option error.
Variable C : Type.
Variable Get : forall S : Type,
    typecheckKey -> (S -> option (typecheckResult Program) * S) -> C * S
    -> option (typecheckResult Program) * (C * S).
Variable getFindPackageFunc : FindPackageFunc BuildContext.

Local Abbreviation cachedTypecheck' :=
  (cachedTypecheck Program diagnostics nil_diagnostics BuildContext JoinPath Load
     errsToDiagnostics C Get getFindPackageFunc).

Local Abbreviation fill' :=
  (cachedTypecheck_fill Program diagnostics nil_diagnostics BuildContext JoinPath
     Load errsToDiagnostics getFindPackageFunc).

Local Abbreviation typecheck' :=
  (typecheck Program diagnostics nil_diagnostics BuildContext JoinPath Load
     errsToDiagnostics).

(** X11. When the cache holds a result under the key of a package and
    answers with it without running the function it is given, then for
    every package with the same import path, directory and name,
    whatever its files, [cachedTypecheck] returns the file set, the
    program and the error of that result, and [nil] diagnostics: the
    diagnostics of the computation are not part of what is cached. *)
Theorem cached_result_has_no_diagnostics (ctx : Context) (bctx : BuildContext)
    (bpkg bpkg2 : build.Package) (c : C) (tr : list event) (parentSpan : Span)
    (res : typecheckResult Program)
    (Hspan : SpanFromContext ctx = Some parentSpan)
    (Hkey : build.ImportPath bpkg2 = build.ImportPath bpkg
            ∧ build.Dir bpkg2 = build.Dir bpkg
            ∧ build.Name bpkg2 = build.Name bpkg)
    (Hstored : ∀ (S : Type) (fill : S -> option (typecheckResult Program) * S)
                 (s : S),
        Get S (key_of bpkg) fill (c, s) = (Some res, (c, s))) :
  cachedTypecheck' ctx bctx bpkg2 (c, tr)
  = Ret (Some (fset _ res), prog _ res, nil_diagnostics, err _ res)
        (c, span_started parentSpan bpkg2 tr ++ [EvFinish (length tr)]).
Proof.
  rewrite (cachedTypecheck_around_Get _ _ _ _ _ _ _ _ _ _ _ _ _ _ _ _ Hspan).
  assert (key_of bpkg2 = key_of bpkg) as ->
    by (unfold key_of; destruct Hkey as (-> & -> & ->); reflexivity).
  now rewrite Hstored.
Qed.

(** X12. When the cache runs the function it is given, once, and returns
    what the function returned, [cachedTypecheck] returns what [typecheck]
    returns for the package, its diagnostics included, with the file set
    the load filled; [typecheck] runs inside the span of the call, and
    loads the program once. *)
Theorem miss_returns_what_typecheck_returns (ctx : Context) (bctx : BuildContext)
    (bpkg : build.Package) (c c' : C) (tr : list event) (parentSpan : Span)
    (Hspan : SpanFromContext ctx = Some parentSpan)
    (Hmiss :
       let fill := fill' (ContextWithSpan ctx (length tr)) bctx bpkg in
       let s := (span_started parentSpan bpkg tr, nil_diagnostics) in
       Get _ (key_of bpkg) fill (c, s) = (fst (fill s), (c', snd (fill s)))) :
  let '(fset, (prog, diags, err), _) :=
    typecheck' (ContextWithSpan ctx (length tr)) bctx bpkg getFindPackageFunc
      (span_started parentSpan bpkg tr) in
  cachedTypecheck' ctx bctx bpkg (c, tr)
  = Ret (Some fset, prog, diags, err)
        (c', span_started parentSpan bpkg tr
             ++ [EvLoad (build.ImportPath bpkg)
                   (typecheck_goFiles BuildContext JoinPath bctx bpkg);
                 EvFinish (length tr)]).
Proof.
  rewrite (cachedTypecheck_around_Get _ _ _ _ _ _ _ _ _ _ _ _ _ _ _ _ Hspan).
  simpl in Hmiss. rewrite Hmiss. unfold cachedTypecheck_fill.
  pose proof (typecheck_events Program diagnostics nil_diagnostics BuildContext
                JoinPath Load errsToDiagnostics
                (ContextWithSpan ctx (length tr)) bctx bpkg getFindPackageFunc
                (span_started parentSpan bpkg tr)) as Hev.
  destruct (typecheck _ _ _ _ _ _ _ _ _ _ _ _) as [[fs [[pg dg] er]] tr'].
  simpl in *. subst tr'. unfold Finish. now rewrite <- app_assoc.
Qed.

End CachedTypecheckMore.

(** The theorem of X11 at the sample analysis: after one call for the
    sample package, a package of the same key with other files gets the
    cached result. *)
Lemma cached_result_has_no_diagnostics_witness :
  SampleCalls.cachedTypecheck SampleAnalysis.ctx tt SampleCallsMore.pkg_other_files
    (SampleCallsMore.cache_with_result, [])
  = Ret (Some [], Some ["/src/pkg/a.go"; "/src/pkg/a_test.go"],
         SampleAnalysis.nil_diagnostics, None)
        (SampleCallsMore.cache_with_result,
         span_started 0%nat SampleCallsMore.pkg_other_files [] ++ [EvFinish 0%nat]).
Proof.
  apply (cached_result_has_no_diagnostics SampleAnalysis.Program
           SampleAnalysis.diagnostics SampleAnalysis.nil_diagnostics
           SampleAnalysis.BuildContext SampleAnalysis.JoinPath SampleAnalysis.Load
           SampleAnalysis.errsToDiagnostics _ typecheckCache_Get
           SampleAnalysis.findPackage SampleAnalysis.ctx tt SampleAnalysis.pkg
           SampleCallsMore.pkg_other_files SampleCallsMore.cache_with_result []
           0%nat SampleCallsMore.result).
  - reflexivity.
  - repeat split.
  - intros S fill s. reflexivity.
Defined.

(** The theorem of X12 at the sample analysis, from an empty cache. *)
Lemma miss_returns_what_typecheck_returns_witness :
  SampleCalls.cachedTypecheck SampleAnalysis.ctx tt SampleAnalysis.pkg (∅, [])
  = Ret (Some [], Some ["/src/pkg/a.go"; "/src/pkg/a_test.go"],
         ["a.go:1:1: undeclared name: x"], None)
        (SampleCallsMore.cache_with_result,
         span_started 0%nat SampleAnalysis.pkg []
         ++ [EvLoad "example.com/pkg" ["/src/pkg/a.go"; "/src/pkg/a_test.go"];
             EvFinish 0%nat]).
Proof.
  apply (miss_returns_what_typecheck_returns SampleAnalysis.Program
           SampleAnalysis.diagnostics SampleAnalysis.nil_diagnostics
           SampleAnalysis.BuildContext SampleAnalysis.JoinPath SampleAnalysis.Load
           SampleAnalysis.errsToDiagnostics _ typecheckCache_Get
           SampleAnalysis.findPackage SampleAnalysis.ctx tt SampleAnalysis.pkg
           ∅ SampleCallsMore.cache_with_result [] 0%nat).
  - reflexivity.
  - reflexivity.
Defined.

(** ** More on [loadPackage] *)

Section LoadPackageMore.

Variable spare : nat -> nat -> nat.
Variable filepath_Dir : string -> string.
Variable PathEqual : string -> string -> bool.
Variable File_Pos : token.File -> Z -> token.Pos.
Variable path_Dir : string -> string.
Variable path_Base : string -> string.
Variable IsURI : lsp.DocumentURI -> bool.
Variable FilePath : lsp.DocumentURI -> string.
Variable IsDir : string -> bool.
Variable packageCache_Load : string -> heap -> outcome heap (option loc * option error).
Variable readFile : lsp.DocumentURI -> list Byte.byte * option error.
Variable offsetForPosition : list Byte.byte -> lsp.Position -> Z * bool * string.

Local Abbreviation resolve :=
  (loadPackage_resolve spare filepath_Dir path_Dir path_Base IsDir packageCache_Load).

Local Abbreviation loadPackage' :=
  (loadPackage spare filepath_Dir PathEqual File_Pos path_Dir path_Base IsURI
     FilePath IsDir packageCache_Load readFile offsetForPosition).

(** The paths of a call before it gets to the position. *)
Lemma loadPackage_early (ctx : Context) (fileURI : lsp.DocumentURI)
    (position : lsp.Position) (h : heap) (tr : list event) (parentSpan : Span) :
  SpanFromContext ctx = Some parentSpan ->
  let ev := load_events parentSpan fileURI tr in
  (IsURI fileURI = false ->
   loadPackage' ctx fileURI position (h, tr)
   = Ret (None, token.NoPos,
          Some (Errorf "typechecking of out-of-workspace URI (%q) is not yet supported"
                  [ArgQ fileURI]))
         (h, ev))
  ∧ (IsURI fileURI = true ->
     ∀ h1, resolve (FilePath fileURI) h = Panic h1 ->
           loadPackage' ctx fileURI position (h, tr) = Panic (h1, ev))
  ∧ (IsURI fileURI = true ->
     ∀ pkg e h1, resolve (FilePath fileURI) h = Ret (pkg, Some e) h1 ->
                 loadPackage' ctx fileURI position (h, tr)
                 = Ret (None, token.NoPos, Some e) (h1, ev))
  ∧ (IsURI fileURI = true ->
     ∀ pkg h1 contents e,
       resolve (FilePath fileURI) h = Ret (pkg, None) h1 ->
       readFile fileURI = (contents, Some e) ->
       loadPackage' ctx fileURI position (h, tr)
       = Ret (None, token.NoPos, Some e) (h1, ev)).
Proof.
  intros Hspan ev. subst ev.
  unfold loadPackage, defer_Finish, StartSpan, Finish, load_events.
  rewrite Hspan. simpl.
  split; [|split; [|split]].
  - intros ->. simpl. now rewrite <- app_assoc.
  - intros -> h1 Hres. simpl. unfold bind at 1. unfold on_heap at 1.
    rewrite Hres. now rewrite <- app_assoc.
  - intros -> pkg e h1 Hres. simpl. unfold bind at 1. unfold on_heap at 1.
    rewrite Hres. now rewrite <- app_assoc.
  - intros -> pkg h1 contents e Hres Hread. simpl. unfold bind at 1.
    unfold on_heap at 1. rewrite Hres, Hread. now rewrite <- app_assoc.
Qed.

Lemma loadPackage_not_URI (ctx : Context) (fileURI : lsp.DocumentURI)
    (position : lsp.Position) (h : heap) (tr : list event) (parentSpan : Span) :
  SpanFromContext ctx = Some parentSpan -> IsURI fileURI = false ->
  loadPackage' ctx fileURI position (h, tr)
  = Ret (None, token.NoPos,
         Some (Errorf "typechecking of out-of-workspace URI (%q) is not yet supported"
                 [ArgQ fileURI]))
        (h, load_events parentSpan fileURI tr).
Proof. intros Hspan. apply (loadPackage_early ctx fileURI position h tr _ Hspan). Qed.

Lemma loadPackage_resolve_panic (ctx : Context) (fileURI : lsp.DocumentURI)
    (position : lsp.Position) (h h1 : heap) (tr : list event) (parentSpan : Span) :
  SpanFromContext ctx = Some parentSpan -> IsURI fileURI = true ->
  resolve (FilePath fileURI) h = Panic h1 ->
  loadPackage' ctx fileURI position (h, tr)
  = Panic (h1, load_events parentSpan fileURI tr).
Proof.
  intros Hspan Huri. apply (loadPackage_early ctx fileURI position h tr _ Hspan), Huri.
Qed.

Lemma loadPackage_resolve_error (ctx : Context) (fileURI : lsp.DocumentURI)
    (position : lsp.Position) (h h1 : heap) (tr : list event) (parentSpan : Span)
    (pkg : option loc) (e : error) :
  SpanFromContext ctx = Some parentSpan -> IsURI fileURI = true ->
  resolve (FilePath fileURI) h = Ret (pkg, Some e) h1 ->
  loadPackage' ctx fileURI position (h, tr)
  = Ret (None, token.NoPos, Some e) (h1, load_events parentSpan fileURI tr).
Proof.
  intros Hspan Huri.
  apply (proj1 (proj2 (proj2 (loadPackage_early ctx fileURI position h tr _ Hspan)))),
    Huri.
Qed.

Lemma loadPackage_read_error (ctx : Context) (fileURI : lsp.DocumentURI)
    (position : lsp.Position) (h h1 : heap) (tr : list event) (parentSpan : Span)
    (pkg : option loc) (contents : list Byte.byte) (e : error) :
  SpanFromContext ctx = Some parentSpan -> IsURI fileURI = true ->
  resolve (FilePath fileURI) h = Ret (pkg, None) h1 ->
  readFile fileURI = (contents, Some e) ->
  loadPackage' ctx fileURI position (h, tr)
  = Ret (None, token.NoPos, Some e) (h1, load_events parentSpan fileURI tr).
Proof.
  intros Hspan Huri.
  apply (proj2 (proj2 (proj2 (loadPackage_early ctx fileURI position h tr _ Hspan)))),
    Huri.
Qed.

(** What [h.load] and the disambiguation make of the package cache's
    answer. *)
Lemma resolve_plain (filename : string) (h h1 : heap) (pkg : option loc)
    (err : option error) :
  packageCache_Load (if negb (IsDir filename) then path_Dir filename else filename) h = Ret (pkg, err) h1 ->
  match err with Some e => isMultiplePackageError e = false | None => True end ->
  resolve filename h = Ret (pkg, err) h1.
Proof.
  intros Hload Hne. unfold loadPackage_resolve, load, bind. rewrite Hload.
  destruct err as [[m| |]|]; try reflexivity. discriminate.
Qed.

Lemma resolve_multiple (filename : string) (h h1 : heap) (pkg : option loc)
    (m : build.MultiplePackageError) :
  packageCache_Load (if negb (IsDir filename) then path_Dir filename else filename) h = Ret (pkg, Some (ErrMultiplePackage m)) h1 ->
  resolve filename h
  = buildPackageForNamedFileInMultiPackageDir spare filepath_Dir pkg m
      (path_Base filename) h1.
Proof.
  intros Hload. unfold loadPackage_resolve, load, bind. now rewrite Hload.
Qed.

(** A call whose position the resolver finds invalid never gets to the
    file set. It returns no package, [NoPos] and an error, or it panics,
    which it does only without a span or when resolving the package
    panics; and when it gets as far as the position, the error is the
    invalid-position error with the resolver's reason. *)
Lemma loadPackage_invalid_position (ctx : Context) (fileURI : lsp.DocumentURI)
    (position : lsp.Position) (h : heap) (tr : list event) (offset : Z)
    (why : string) :
  offsetForPosition (fst (readFile fileURI)) position = (offset, false, why) ->
  match loadPackage' ctx fileURI position (h, tr) with
  | Ret (pkg, start, err) _ => pkg = None ∧ start = token.NoPos ∧ err ≠ None
  | Panic _ =>
      SpanFromContext ctx = None
      ∨ (IsURI fileURI = true ∧ ∃ h1, resolve (FilePath fileURI) h = Panic h1)
  end
  ∧ (∀ parentSpan pkg h1,
       SpanFromContext ctx = Some parentSpan ->
       IsURI fileURI = true ->
       resolve (FilePath fileURI) h = Ret (pkg, None) h1 ->
       snd (readFile fileURI) = None ->
       loadPackage' ctx fileURI position (h, tr)
       = Ret (None, token.NoPos,
              Some (Errorf "invalid position: %s:%d:%d (%s)"
                      [ArgS (FilePath fileURI); ArgD (lsp.Line position);
                       ArgD (lsp.Character position); ArgS why]))
             (h1, load_events parentSpan fileURI tr)).
Proof.
  intros Hinvalid.
  assert (∀ parentSpan pkg h1,
            SpanFromContext ctx = Some parentSpan ->
            IsURI fileURI = true ->
            resolve (FilePath fileURI) h = Ret (pkg, None) h1 ->
            snd (readFile fileURI) = None ->
            loadPackage' ctx fileURI position (h, tr)
            = Ret (None, token.NoPos,
                   Some (Errorf "invalid position: %s:%d:%d (%s)"
                           [ArgS (FilePath fileURI); ArgD (lsp.Line position);
                            ArgD (lsp.Character position); ArgS why]))
                  (h1, load_events parentSpan fileURI tr)) as Hcheck.
  { intros parentSpan pkg h1 Hspan Huri Hres Hnone.
    destruct (readFile fileURI) as [contents rerr] eqn:Hrd.
    simpl in Hnone, Hinvalid. subst rerr.
    rewrite (loadPackage_at_position spare filepath_Dir PathEqual File_Pos path_Dir
               path_Base IsURI FilePath IsDir packageCache_Load readFile
               offsetForPosition ctx fileURI position h h1 tr parentSpan pkg
               contents Hspan Huri Hres Hrd).
    now rewrite Hinvalid. }
  split; [|exact Hcheck].
  destruct (SpanFromContext ctx) as [parentSpan|] eqn:Hspan;
    [|unfold loadPackage; rewrite Hspan; now left].
  destruct (IsURI fileURI) eqn:Huri;
    [|now rewrite (loadPackage_not_URI _ _ _ _ _ _ Hspan Huri)].
  destruct (resolve (FilePath fileURI) h) as [[pkg [e|]] h1|h1] eqn:Hres.
  - now rewrite (loadPackage_resolve_error _ _ _ _ _ _ _ _ _ Hspan Huri Hres).
  - destruct (snd (readFile fileURI)) as [e|] eqn:Hrd.
    + destruct (readFile fileURI) as [contents rerr] eqn:Hrd'. simpl in Hrd.
      subst rerr.
      now rewrite (loadPackage_read_error _ _ _ _ _ _ _ _ _ _ Hspan Huri Hres Hrd').
    + now rewrite (Hcheck parentSpan pkg h1 eq_refl eq_refl eq_refl eq_refl).
  - rewrite (loadPackage_resolve_panic _ _ _ _ _ _ _ Hspan Huri Hres).
    right. split; [reflexivity|]. now exists h1.
Qed.

(** X14. Whatever its collaborators do, [loadPackage] returns one of two
    shapes: an error with no package and the position [NoPos], or no
    error with a package that is not [nil] and a position that is not
    [NoPos]. *)
Theorem loadPackage_result_shape (ctx : Context) (fileURI : lsp.DocumentURI)
    (position : lsp.Position) (h : heap) (tr : list event) :
  match loadPackage' ctx fileURI position (h, tr) with
  | Ret (pkg, start, Some _) _ => pkg = None ∧ start = token.NoPos
  | Ret (pkg, start, None) _ => pkg ≠ None ∧ start ≠ token.NoPos
  | Panic _ => True
  end.
Proof.
  destruct (SpanFromContext ctx) as [parentSpan|] eqn:Hspan;
    [|unfold loadPackage; now rewrite Hspan].
  destruct (IsURI fileURI) eqn:Huri;
    [|now rewrite (loadPackage_not_URI _ _ _ _ _ _ Hspan Huri)].
  destruct (resolve (FilePath fileURI) h) as [[pkg [e|]] h1|h1] eqn:Hres.
  - now rewrite (loadPackage_resolve_error _ _ _ _ _ _ _ _ _ Hspan Huri Hres).
  - destruct (readFile fileURI) as [contents [e|]] eqn:Hrd.
    + now rewrite (loadPackage_read_error _ _ _ _ _ _ _ _ _ _ Hspan Huri Hres Hrd).
    + rewrite (loadPackage_at_position spare filepath_Dir PathEqual File_Pos path_Dir
                 path_Base IsURI FilePath IsDir packageCache_Load readFile
                 offsetForPosition ctx fileURI position h h1 tr parentSpan pkg
                 contents Hspan Huri Hres Hrd).
      destruct (offsetForPosition contents position) as [[offset valid] why].
      destruct valid; simpl; [|now split].
      destruct (pkg ≫= (λ l, pkgs h1 !! l)) as [p|] eqn:Hp; [|exact I].
      destruct (Z.eqb_spec
                  (posForFileOffset PathEqual File_Pos (packages.Fset p)
                     (FilePath fileURI) offset) token.NoPos) as [Heq|Hne].
      * now split.
      * split; [|exact Hne]. now destruct pkg.
  - now rewrite (loadPackage_resolve_panic _ _ _ _ _ _ _ Hspan Huri Hres).
Qed.

(** X15. A call whose context carries a span starts one span, named for
    the load, tagged with the file URI and parented to that span, and
    finishes it on every path, also when it fails and when the
    disambiguation panics; it leaves no other event. A call whose
    context carries no span panics at once and leaves heap and events as
    they were. *)
Theorem loadPackage_finishes_its_span (ctx : Context) (fileURI : lsp.DocumentURI)
    (position : lsp.Position) (h : heap) (tr : list event) :
  match SpanFromContext ctx with
  | Some parentSpan =>
      snd (state_of (loadPackage' ctx fileURI position (h, tr)))
      = tr ++ [EvStartSpan "langserver-go: load program" [("fileURI", fileURI)]
                 parentSpan (length tr);
               EvFinish (length tr)]
  | None => loadPackage' ctx fileURI position (h, tr) = Panic (h, tr)
  end.
Proof.
  destruct (SpanFromContext ctx) as [parentSpan|] eqn:Hspan;
    [|unfold loadPackage; now rewrite Hspan].
  fold (load_events parentSpan fileURI tr).
  destruct (IsURI fileURI) eqn:Huri;
    [|now rewrite (loadPackage_not_URI _ _ _ _ _ _ Hspan Huri)].
  destruct (resolve (FilePath fileURI) h) as [[pkg [e|]] h1|h1] eqn:Hres.
  - now rewrite (loadPackage_resolve_error _ _ _ _ _ _ _ _ _ Hspan Huri Hres).
  - destruct (readFile fileURI) as [contents [e|]] eqn:Hrd.
    + now rewrite (loadPackage_read_error _ _ _ _ _ _ _ _ _ _ Hspan Huri Hres Hrd).
    + rewrite (loadPackage_at_position spare filepath_Dir PathEqual File_Pos path_Dir
                 path_Base IsURI FilePath IsDir packageCache_Load readFile
                 offsetForPosition ctx fileURI position h h1 tr parentSpan pkg
                 contents Hspan Huri Hres Hrd).
      destruct (offsetForPosition contents position) as [[offset valid] why].
      destruct valid; simpl; [|reflexivity].
      destruct (pkg ≫= (λ l, pkgs h1 !! l)) as [p|]; [|reflexivity].
      now destruct (_ =? _).
  - now rewrite (loadPackage_resolve_panic _ _ _ _ _ _ _ Hspan Huri Hres).
Qed.

(** X16. A file URI that is not a workspace URI is refused with the
    out-of-workspace error before the package cache is asked: the heap
    is as it was. *)
Theorem out_of_workspace_is_refused (ctx : Context) (fileURI : lsp.DocumentURI)
    (position : lsp.Position) (h : heap) (tr : list event) (parentSpan : Span)
    (Hspan : SpanFromContext ctx = Some parentSpan)
    (Huri : IsURI fileURI = false) :
  loadPackage' ctx fileURI position (h, tr)
  = Ret (None, token.NoPos,
         Some (Errorf "typechecking of out-of-workspace URI (%q) is not yet supported"
                 [ArgQ fileURI]))
        (h, load_events parentSpan fileURI tr).
Proof. exact (loadPackage_not_URI _ _ _ _ _ _ Hspan Huri). Qed.

(** X17. The package cache is asked for the file itself when it is a
    directory and for [path.Dir] of it otherwise. An error of the package
    cache that is not a MultiplePackageError is returned as it is, and
    so is, when the package cache gave none, an error of [readFile]; the
    error of the package cache comes first. *)
Theorem collaborator_errors_are_returned (ctx : Context)
    (fileURI : lsp.DocumentURI) (position : lsp.Position) (h h1 : heap)
    (tr : list event) (parentSpan : Span) (pkg : option loc)
    (err rerr : option error) (contents : list Byte.byte)
    (Hspan : SpanFromContext ctx = Some parentSpan)
    (Huri : IsURI fileURI = true)
    (Hload : packageCache_Load
               (if IsDir (FilePath fileURI) then FilePath fileURI
                else path_Dir (FilePath fileURI)) h
             = Ret (pkg, err) h1)
    (Hplain : match err with
              | Some e => isMultiplePackageError e = false
              | None => True
              end)
    (Hread : readFile fileURI = (contents, rerr))
    (Herr : err ≠ None ∨ rerr ≠ None) :
  loadPackage' ctx fileURI position (h, tr)
  = Ret (None, token.NoPos, match err with Some e => Some e | None => rerr end)
        (h1, load_events parentSpan fileURI tr).
Proof.
  assert (resolve (FilePath fileURI) h = Ret (pkg, err) h1) as Hres.
  { apply resolve_plain; [|exact Hplain].
    destruct (IsDir (FilePath fileURI)); exact Hload. }
  destruct err as [e|].
  - exact (loadPackage_resolve_error _ _ _ _ _ _ _ _ _ Hspan Huri Hres).
  - destruct rerr as [e|]; [|destruct Herr; contradiction].
    exact (loadPackage_read_error _ _ _ _ _ _ _ _ _ _ Hspan Huri Hres Hread).
Qed.

(** X18. In a directory with several packages, when the scan has no
    name for the base name of the file, [loadPackage] returns the error
    of the disambiguation, which names the package path, the directory
    of the base name and the base name; the file is not read. *)
Theorem multi_package_file_not_in_scan (ctx : Context) (fileURI : lsp.DocumentURI)
    (position : lsp.Position) (h h1 : heap) (tr : list event) (parentSpan : Span)
    (l : loc) (p : packages.Package) (m : build.MultiplePackageError)
    (Hspan : SpanFromContext ctx = Some parentSpan)
    (Huri : IsURI fileURI = true)
    (Hload : packageCache_Load
               (if IsDir (FilePath fileURI) then FilePath fileURI
                else path_Dir (FilePath fileURI)) h
             = Ret (Some l, Some (ErrMultiplePackage m)) h1)
    (Hp : pkgs h1 !! l = Some p)
    (Hlen : (length (build.Files m) <= length (build.Packages m))%nat)
    (Hname : scan_name m (path_Base (FilePath fileURI)) = "") :
  let base := path_Base (FilePath fileURI) in
  loadPackage' ctx fileURI position (h, tr)
  = Ret (None, token.NoPos,
         Some (Errorf "package %q in %s has no file %q"
                 [ArgQ (packages.PkgPath p); ArgS (filepath_Dir base); ArgQ base]))
        (set_pkgs (insert (fresh (dom (pkgs h1))) p) h1,
         load_events parentSpan fileURI tr).
Proof.
  intros base.
  apply (loadPackage_resolve_error _ _ _ _ _ _ _ None _ Hspan Huri).
  rewrite (resolve_multiple (FilePath fileURI) h h1 (Some l) m)
    by (destruct (IsDir (FilePath fileURI)); exact Hload).
  exact (buildPackage_no_name spare filepath_Dir h1 l p m base Hp Hlen Hname).
Qed.

(** X19. In a directory with several packages, when the scan names the
    base name of the file, the position is valid and the file is in the
    file set of the cached package, [loadPackage] returns a new
    descriptor under the name of the file's package, with the position
    of the offset in the first file of that file set that path-equals
    the file name; the cached descriptor, and everything else in the
    heap, is as the package cache left it. *)
Theorem multi_package_load (ctx : Context) (fileURI : lsp.DocumentURI)
    (position : lsp.Position) (h h1 : heap) (tr : list event) (parentSpan : Span)
    (l : loc) (p : packages.Package) (m : build.MultiplePackageError)
    (fl : list string) (contents : list Byte.byte) (offset : Z) (why : string)
    (pre post : token.FileSet) (f : token.File)
    (Hspan : SpanFromContext ctx = Some parentSpan)
    (Huri : IsURI fileURI = true)
    (Hload : packageCache_Load
               (if IsDir (FilePath fileURI) then FilePath fileURI
                else path_Dir (FilePath fileURI)) h
             = Ret (Some l, Some (ErrMultiplePackage m)) h1)
    (Hp : pkgs h1 !! l = Some p)
    (Hlen : (length (build.Files m) <= length (build.Packages m))%nat)
    (Hname : scan_name m (path_Base (FilePath fileURI)) ≠ "")
    (Hfl : slice_elems h1 (packages.GoFiles p) = Some fl)
    (Hread : readFile fileURI = (contents, None))
    (Hoff : offsetForPosition contents position = (offset, true, why))
    (Hfset : packages.Fset p = pre ++ f :: post)
    (Hpre : Forall (λ ff, PathEqual (token.Name ff) (FilePath fileURI) = false) pre)
    (Hf : PathEqual (token.Name f) (FilePath fileURI) = true)
    (Hpos : File_Pos f offset ≠ token.NoPos) :
  ∃ l' h2 u,
    loadPackage' ctx fileURI position (h, tr)
    = Ret (Some l', File_Pos f offset, None) (h2, load_events parentSpan fileURI tr)
    ∧ (l' ∉ dom (pkgs h1))
    ∧ preserves h1 h2
    ∧ pkgs h2 !! l' = Some u
    ∧ packages.Name u = scan_name m (path_Base (FilePath fileURI))
    ∧ packages.Fset u = packages.Fset p.
Proof.
  destruct (buildPackage_named spare filepath_Dir h1 l p m
              (path_Base (FilePath fileURI)) fl Hp Hlen Hname Hfl)
    as (l' & keep & h2 & Hrun & Hfresh & Hl' & _ & Hpres).
  assert (resolve (FilePath fileURI) h = Ret (Some l', None) h2) as Hres.
  { rewrite (resolve_multiple (FilePath fileURI) h h1 (Some l) m)
      by (destruct (IsDir (FilePath fileURI)); exact Hload).
    exact Hrun. }
  exists l', h2. eexists. split; [|split; [exact Hfresh|split; [exact Hpres|
    split; [exact Hl'|split; reflexivity]]]].
  rewrite (loadPackage_at_position spare filepath_Dir PathEqual File_Pos path_Dir
             path_Base IsURI FilePath IsDir packageCache_Load readFile
             offsetForPosition ctx fileURI position h h2 tr parentSpan (Some l')
             contents Hspan Huri Hres Hread).
  rewrite Hoff. simpl. rewrite Hl'. simpl.
  rewrite posForFileOffset_first, Hfset, (find_first_of _ pre post f _ Hpre Hf).
  now destruct (Z.eqb_spec (File_Pos f offset) token.NoPos).
Qed.

(** X20. In a directory with one package, for a valid position in a file
    of the package's file set, [loadPackage] returns the pointer of the
    package cache itself, with the position of the offset in the first
    file that path-equals the file name, and no error. *)
Theorem single_package_load (ctx : Context) (fileURI : lsp.DocumentURI)
    (position : lsp.Position) (h h1 : heap) (tr : list event) (parentSpan : Span)
    (l : loc) (p : packages.Package)
    (contents : list Byte.byte) (offset : Z) (why : string)
    (pre post : token.FileSet) (f : token.File)
    (Hspan : SpanFromContext ctx = Some parentSpan)
    (Huri : IsURI fileURI = true)
    (Hload : packageCache_Load
               (if IsDir (FilePath fileURI) then FilePath fileURI
                else path_Dir (FilePath fileURI)) h
             = Ret (Some l, None) h1)
    (Hp : pkgs h1 !! l = Some p)
    (Hread : readFile fileURI = (contents, None))
    (Hoff : offsetForPosition contents position = (offset, true, why))
    (Hfset : packages.Fset p = pre ++ f :: post)
    (Hpre : Forall (λ ff, PathEqual (token.Name ff) (FilePath fileURI) = false) pre)
    (Hf : PathEqual (token.Name f) (FilePath fileURI) = true)
    (Hpos : File_Pos f offset ≠ token.NoPos) :
  loadPackage' ctx fileURI position (h, tr)
  = Ret (Some l, File_Pos f offset, None) (h1, load_events parentSpan fileURI tr).
Proof.
  assert (resolve (FilePath fileURI) h = Ret (Some l, None) h1) as Hres.
  { apply resolve_plain; [|exact I].
    destruct (IsDir (FilePath fileURI)); exact Hload. }
  rewrite (loadPackage_at_position spare filepath_Dir PathEqual File_Pos path_Dir
             path_Base IsURI FilePath IsDir packageCache_Load readFile
             offsetForPosition ctx fileURI position h h1 tr parentSpan (Some l)
             contents Hspan Huri Hres Hread).
  rewrite Hoff. simpl. rewrite Hp. simpl.
  rewrite posForFileOffset_first, Hfset, (find_first_of _ pre post f _ Hpre Hf).
  now destruct (Z.eqb_spec (File_Pos f offset) token.NoPos).
Qed.

End LoadPackageMore.

(** The theorem of X16 at the sample request, in a workspace that holds
    no file. *)
Lemma out_of_workspace_is_refused_witness :
  loadPackage Sample.spare Sample.filepath_Dir SampleRequest.PathEqual
    SampleRequest.File_Pos SampleRequest.path_Dir SampleRequest.path_Base
    SampleRequestMore.IsURI_nowhere SampleRequest.FilePath SampleRequest.IsDir
    (SampleRequest.packageCache_Load 1%positive) SampleRequest.readFile
    Position.offsetForPosition SampleRequest.ctx "file:///src/pkg/a.go"
    {| lsp.Line := 1; lsp.Character := 1 |} (SampleRequest.heap0, [])
  = Ret (None, token.NoPos,
         Some (Errorf "typechecking of out-of-workspace URI (%q) is not yet supported"
                 [ArgQ "file:///src/pkg/a.go"]))
        (SampleRequest.heap0, load_events 0%nat "file:///src/pkg/a.go" []).
Proof.
  apply (out_of_workspace_is_refused Sample.spare Sample.filepath_Dir
           SampleRequest.PathEqual SampleRequest.File_Pos SampleRequest.path_Dir
           SampleRequest.path_Base SampleRequestMore.IsURI_nowhere
           SampleRequest.FilePath SampleRequest.IsDir
           (SampleRequest.packageCache_Load 1%positive) SampleRequest.readFile
           Position.offsetForPosition SampleRequest.ctx "file:///src/pkg/a.go"
           {| lsp.Line := 1; lsp.Character := 1 |} SampleRequest.heap0 [] 0%nat).
  - reflexivity.
  - reflexivity.
Defined.

(** The theorem of X17 at the sample request, on a file system on which
    the file cannot be read. *)
Lemma collaborator_errors_are_returned_witness :
  loadPackage Sample.spare Sample.filepath_Dir SampleRequest.PathEqual
    SampleRequest.File_Pos SampleRequest.path_Dir SampleRequest.path_Base
    SampleRequest.IsURI SampleRequest.FilePath SampleRequest.IsDir
    (SampleRequest.packageCache_Load 1%positive) SampleRequestMore.readFile_fails
    Position.offsetForPosition SampleRequest.ctx "file:///src/pkg/a.go"
    {| lsp.Line := 1; lsp.Character := 1 |} (SampleRequest.heap0, [])
  = Ret (None, token.NoPos,
         Some (ExternalError "open /src/pkg/a.go: no such file or directory"))
        (SampleRequest.heap0, load_events 0%nat "file:///src/pkg/a.go" []).
Proof.
  apply (collaborator_errors_are_returned Sample.spare Sample.filepath_Dir
           SampleRequest.PathEqual SampleRequest.File_Pos SampleRequest.path_Dir
           SampleRequest.path_Base SampleRequest.IsURI SampleRequest.FilePath
           SampleRequest.IsDir (SampleRequest.packageCache_Load 1%positive)
           SampleRequestMore.readFile_fails Position.offsetForPosition
           SampleRequest.ctx "file:///src/pkg/a.go"
           {| lsp.Line := 1; lsp.Character := 1 |}
           SampleRequest.heap0 SampleRequest.heap0 [] 0%nat (Some 1%positive)
           None (Some (ExternalError "open /src/pkg/a.go: no such file or directory"))
           []).
  - reflexivity.
  - reflexivity.
  - reflexivity.
  - exact I.
  - reflexivity.
  - right. discriminate.
Defined.

(** The theorem of X18 for a scan that lists [a.go] under the empty
    name. *)
Lemma multi_package_file_not_in_scan_witness :
  loadPackage Sample.spare Sample.filepath_Dir SampleRequest.PathEqual
    SampleRequest.File_Pos SampleRequest.path_Dir SampleRequest.path_Base
    SampleRequest.IsURI SampleRequest.FilePath SampleRequest.IsDir
    (SampleRequestMore.packageCache_Load Sample.scan_unnamed) SampleRequest.readFile
    Position.offsetForPosition SampleRequest.ctx "file:///src/pkg/a.go"
    {| lsp.Line := 1; lsp.Character := 1 |} (SampleRequestMore.heap0, [])
  = Ret (None, token.NoPos,
         Some (Errorf "package %q in %s has no file %q"
                 [ArgQ "example.com/pkg"; ArgS "/src/pkg"; ArgQ "a.go"]))
        (set_pkgs (insert 2%positive SampleRequestMore.descriptor)
           SampleRequestMore.heap0,
         load_events 0%nat "file:///src/pkg/a.go" []).
Proof.
  apply (multi_package_file_not_in_scan Sample.spare Sample.filepath_Dir
           SampleRequest.PathEqual SampleRequest.File_Pos SampleRequest.path_Dir
           SampleRequest.path_Base SampleRequest.IsURI SampleRequest.FilePath
           SampleRequest.IsDir
           (SampleRequestMore.packageCache_Load Sample.scan_unnamed)
           SampleRequest.readFile Position.offsetForPosition
           SampleRequest.ctx "file:///src/pkg/a.go"
           {| lsp.Line := 1; lsp.Character := 1 |}
           SampleRequestMore.heap0 SampleRequestMore.heap0 [] 0%nat 1%positive
           SampleRequestMore.descriptor Sample.scan_unnamed).
  - reflexivity.
  - reflexivity.
  - reflexivity.
  - reflexivity.
  - simpl. lia.
  - reflexivity.
Defined.

(** The theorem of X19 for the sample scan, which lists [a.go] under
    [pkg]. *)
Lemma multi_package_load_witness :
  ∃ l' h2 u,
    loadPackage Sample.spare Sample.filepath_Dir SampleRequest.PathEqual
      SampleRequest.File_Pos SampleRequest.path_Dir SampleRequest.path_Base
      SampleRequest.IsURI SampleRequest.FilePath SampleRequest.IsDir
      (SampleRequestMore.packageCache_Load Sample.scan) SampleRequest.readFile
      Position.offsetForPosition SampleRequest.ctx "file:///src/pkg/a.go"
      {| lsp.Line := 1; lsp.Character := 1 |} (SampleRequestMore.heap0, [])
    = Ret (Some l', 5, None) (h2, load_events 0%nat "file:///src/pkg/a.go" [])
    ∧ (l' ∉ dom (pkgs SampleRequestMore.heap0))
    ∧ preserves SampleRequestMore.heap0 h2
    ∧ pkgs h2 !! l' = Some u
    ∧ packages.Name u = "pkg"
    ∧ packages.Fset u = packages.Fset SampleRequestMore.descriptor.
Proof.
  apply (multi_package_load Sample.spare Sample.filepath_Dir
           SampleRequest.PathEqual SampleRequest.File_Pos SampleRequest.path_Dir
           SampleRequest.path_Base SampleRequest.IsURI SampleRequest.FilePath
           SampleRequest.IsDir
           (SampleRequestMore.packageCache_Load Sample.scan)
           SampleRequest.readFile Position.offsetForPosition
           SampleRequest.ctx "file:///src/pkg/a.go"
           {| lsp.Line := 1; lsp.Character := 1 |}
           SampleRequestMore.heap0 SampleRequestMore.heap0 [] 0%nat 1%positive
           SampleRequestMore.descriptor Sample.scan
           ["a.go"; "a_test.go"; "x_test.go"] SampleRequest.contents 4 ""
           [] [] {| token.Name := "/src/pkg/a.go"; token.Base := 1; token.Size := 5 |}).
  - reflexivity.
  - reflexivity.
  - reflexivity.
  - reflexivity.
  - simpl. lia.
  - discriminate.
  - reflexivity.
  - reflexivity.
  - reflexivity.
  - reflexivity.
  - constructor.
  - reflexivity.
  - discriminate.
Defined.

(** The theorem of X20 at the sample request. *)
Lemma single_package_load_witness :
  SampleRequest.loadPackage 1%positive Position.offsetForPosition
    SampleRequest.ctx "file:///src/pkg/a.go" {| lsp.Line := 1; lsp.Character := 1 |}
    (SampleRequest.heap0, [])
  = Ret (Some 1%positive, 5, None)
        (SampleRequest.heap0, load_events 0%nat "file:///src/pkg/a.go" []).
Proof.
  apply (single_package_load Sample.spare Sample.filepath_Dir
           SampleRequest.PathEqual SampleRequest.File_Pos SampleRequest.path_Dir
           SampleRequest.path_Base SampleRequest.IsURI SampleRequest.FilePath
           SampleRequest.IsDir (SampleRequest.packageCache_Load 1%positive)
           SampleRequest.readFile Position.offsetForPosition
           SampleRequest.ctx "file:///src/pkg/a.go"
           {| lsp.Line := 1; lsp.Character := 1 |}
           SampleRequest.heap0 SampleRequest.heap0 [] 0%nat 1%positive
           SampleRequest.descriptor SampleRequest.contents 4 ""
           [] [] {| token.Name := "/src/pkg/a.go"; token.Base := 1; token.Size := 5 |}).
  - reflexivity.
  - reflexivity.
  - reflexivity.
  - reflexivity.
  - reflexivity.
  - reflexivity.
  - reflexivity.
  - constructor.
  - reflexivity.
  - discriminate.
Defined.

(** ** A position outside the file *)

Section PositionOutOfBounds.

Variable spare : nat -> nat -> nat.
Variable filepath_Dir : string -> string.
Variable PathEqual : string -> string -> bool.
Variable File_Pos : token.File -> Z -> token.Pos.
Variable path_Dir : string -> string.
Variable path_Base : string -> string.
Variable IsURI : lsp.DocumentURI -> bool.
Variable FilePath : lsp.DocumentURI -> string.
Variable IsDir : string -> bool.
Variable packageCache_Load : string -> heap -> outcome heap (option loc * option error).
Variable readFile : lsp.DocumentURI -> list Byte.byte * option error.

Local Abbreviation resolve :=
  (loadPackage_resolve spare filepath_Dir path_Dir path_Base IsDir packageCache_Load).

Local Abbreviation loadPackage' :=
  (loadPackage spare filepath_Dir PathEqual File_Pos path_Dir path_Base IsURI
     FilePath IsDir packageCache_Load readFile Position.offsetForPosition).

(** C5, as amended. Take any request whose position is outside the
    bounds of the contents of its file, its line out of range or its
    column beyond the byte length of its line. [loadPackage] never
    returns a valid position for it: when it returns, it returns no
    package, the position [NoPos] and an error. It panics only when the
    context carries no span or when resolving the package panics. And
    when the request gets as far as the position, that is with a span,
    a workspace URI, a package resolved without error and a file that
    was read, it returns the invalid-position error, which names the
    file, the line and the column and carries a reason that is not
    empty. *)
Theorem position_out_of_bounds_is_invalid
    (ctx : Context) (fileURI : lsp.DocumentURI) (position : lsp.Position)
    (h : heap) (tr : list event)
    (Hout : Position.out_of_bounds (fst (readFile fileURI)) position) :
  match loadPackage' ctx fileURI position (h, tr) with
  | Ret (pkg, start, err) _ => pkg = None ∧ start = token.NoPos ∧ err ≠ None
  | Panic _ =>
      SpanFromContext ctx = None
      ∨ (IsURI fileURI = true ∧ ∃ h1, resolve (FilePath fileURI) h = Panic h1)
  end
  ∧ (∀ parentSpan pkg h1,
       SpanFromContext ctx = Some parentSpan ->
       IsURI fileURI = true ->
       resolve (FilePath fileURI) h = Ret (pkg, None) h1 ->
       snd (readFile fileURI) = None ->
       ∃ why, why ≠ ""
              ∧ loadPackage' ctx fileURI position (h, tr)
                = Ret (None, token.NoPos,
                       Some (Errorf "invalid position: %s:%d:%d (%s)"
                               [ArgS (FilePath fileURI); ArgD (lsp.Line position);
                                ArgD (lsp.Character position); ArgS why]))
                      (h1, load_events parentSpan fileURI tr)).
Proof.
  destruct (PositionFacts.out_of_bounds_invalid _ _ Hout) as (why & Hwhy & Hinvalid).
  destruct (loadPackage_invalid_position spare filepath_Dir PathEqual File_Pos
              path_Dir path_Base IsURI FilePath IsDir packageCache_Load readFile
              Position.offsetForPosition ctx fileURI position h tr 0 why Hinvalid)
    as [Hshape Hcheck].
  split; [exact Hshape|].
  intros parentSpan pkg h1 Hspan Huri Hres Hread. exists why.
  split; [exact Hwhy|]. now apply Hcheck with pkg.
Qed.

End PositionOutOfBounds.

(** The theorem of C5 at the sample request, for column 5 of the line
    [ab]. *)
Lemma position_out_of_bounds_is_invalid_witness :
  let position := {| lsp.Line := 0; lsp.Character := 5 |} in
  match SampleRequest.loadPackage 1%positive Position.offsetForPosition
          SampleRequest.ctx "file:///src/pkg/a.go" position (SampleRequest.heap0, [])
  with
  | Ret (pkg, start, err) _ => pkg = None ∧ start = token.NoPos ∧ err ≠ None
  | Panic _ =>
      SpanFromContext SampleRequest.ctx = None
      ∨ (SampleRequest.IsURI "file:///src/pkg/a.go" = true
         ∧ ∃ h1, loadPackage_resolve Sample.spare Sample.filepath_Dir
                   SampleRequest.path_Dir SampleRequest.path_Base SampleRequest.IsDir
                   (SampleRequest.packageCache_Load 1%positive)
                   (SampleRequest.FilePath "file:///src/pkg/a.go")
                   SampleRequest.heap0 = Panic h1)
  end
  ∧ (∀ parentSpan pkg h1,
       SpanFromContext SampleRequest.ctx = Some parentSpan ->
       SampleRequest.IsURI "file:///src/pkg/a.go" = true ->
       loadPackage_resolve Sample.spare Sample.filepath_Dir
         SampleRequest.path_Dir SampleRequest.path_Base SampleRequest.IsDir
         (SampleRequest.packageCache_Load 1%positive)
         (SampleRequest.FilePath "file:///src/pkg/a.go") SampleRequest.heap0
       = Ret (pkg, None) h1 ->
       snd (SampleRequest.readFile "file:///src/pkg/a.go") = None ->
       ∃ why, why ≠ ""
              ∧ SampleRequest.loadPackage 1%positive Position.offsetForPosition
                  SampleRequest.ctx "file:///src/pkg/a.go" position
                  (SampleRequest.heap0, [])
                = Ret (None, token.NoPos,
                       Some (Errorf "invalid position: %s:%d:%d (%s)"
                               [ArgS "/src/pkg/a.go"; ArgD 0; ArgD 5; ArgS why]))
                      (h1, load_events parentSpan "file:///src/pkg/a.go" [])).
Proof.
  apply (position_out_of_bounds_is_invalid Sample.spare Sample.filepath_Dir
           SampleRequest.PathEqual SampleRequest.File_Pos SampleRequest.path_Dir
           SampleRequest.path_Base SampleRequest.IsURI SampleRequest.FilePath
           SampleRequest.IsDir (SampleRequest.packageCache_Load 1%positive)
           SampleRequest.readFile
           SampleRequest.ctx "file:///src/pkg/a.go"
           {| lsp.Line := 0; lsp.Character := 5 |} SampleRequest.heap0 []).
  right. right. exists [Byte.x61; Byte.x62]. split; [reflexivity | simpl; lia].
Defined.

(** C5 as it is stated fails: the position is checked late, and a
    request with a position out of bounds that does not get as far
    ends otherwise. At column 5 of the line [ab], a call whose context
    carries no span panics; for a URI outside the workspace the error is
    the out-of-workspace error; and when the file cannot be read it is
    the error of [readFile]. *)
Lemma out_of_bounds_request_ends_otherwise :
  let position := {| lsp.Line := 0; lsp.Character := 5 |} in
  let uri := "file:///src/pkg/a.go" in
  Position.out_of_bounds SampleRequest.contents position
  ∧ SampleRequest.loadPackage 1%positive Position.offsetForPosition
      {| ctx_span := None |} uri position (SampleRequest.heap0, [])
    = Panic (SampleRequest.heap0, [])
  ∧ loadPackage Sample.spare Sample.filepath_Dir SampleRequest.PathEqual
      SampleRequest.File_Pos SampleRequest.path_Dir SampleRequest.path_Base
      SampleRequestMore.IsURI_nowhere SampleRequest.FilePath SampleRequest.IsDir
      (SampleRequest.packageCache_Load 1%positive) SampleRequest.readFile
      Position.offsetForPosition SampleRequest.ctx uri position
      (SampleRequest.heap0, [])
    = Ret (None, token.NoPos,
           Some (Errorf "typechecking of out-of-workspace URI (%q) is not yet supported"
                   [ArgQ uri]))
          (SampleRequest.heap0, load_events 0%nat uri [])
  ∧ loadPackage Sample.spare Sample.filepath_Dir SampleRequest.PathEqual
      SampleRequest.File_Pos SampleRequest.path_Dir SampleRequest.path_Base
      SampleRequest.IsURI SampleRequest.FilePath SampleRequest.IsDir
      (SampleRequest.packageCache_Load 1%positive)
      (λ _, (SampleRequest.contents,
             Some (ExternalError "read /src/pkg/a.go: input/output error")))
      Position.offsetForPosition SampleRequest.ctx uri position
      (SampleRequest.heap0, [])
    = Ret (None, token.NoPos,
           Some (ExternalError "read /src/pkg/a.go: input/output error"))
          (SampleRequest.heap0, load_events 0%nat uri []).
Proof.
  intros position uri. split; [|repeat split; reflexivity].
  right. right. exists [Byte.x61; Byte.x62]. split; [reflexivity | simpl; lia].
Qed.
